(** * asn1tools/parser.py: a shallow embedding and its verified properties

    The development follows the layout of [asn1tools/parser.py]:

    - Python values and exceptions ([pyval], [exn], the [res] monad);
    - the subset of Python's [re] used by the module ([regex], [re_match]);
    - [ignore_comments];
    - the [convert_*] parse actions;
    - the pyparsing combinators used by [create_grammar] and the grammar itself;
    - the textparser combinators used by [Asn1Parser], its token
      specification, keywords and grammar, and the [Transformer];
    - [parse_string];
    - the notions the properties are stated with, and the properties:
      the recursion bound, comments, bit string literals, value ranges,
      enumerations, assignment lists, the two grammars, reserved words;
      then the list an enumeration returns, assignment lists, comment
      stripping, modules and imports, constrained types, the literal
      patterns and the tokenizer, structured types and size constraints.

    pyparsing and textparser are libraries, not part of the module: their
    combinators are given here the behaviour the grammars rely on, as
    interpreters with a bound on the depth of the recursion through
    [Forward] productions and repetitions.

    Python [str] values are modelled by [string]; a character is a code point
    below 256.  Python [int] is [Z].  A [dict] with [str] keys is a
    [gmap string _], so that equality of dictionaries is insensitive to the
    insertion order, as it is in Python. *)

From Stdlib Require Import ZArith Ascii String Lia.
From stdpp Require Import gmap strings list.

Set Warnings "-register-all".
Open Scope string_scope.
Open Scope list_scope.

(** ** 1. Characters and strings *)

Section Characters.

Definition code (c : ascii) : N := N_of_ascii c.

Definition in_range (lo hi : ascii) (c : ascii) : bool :=
  ((code lo <=? code c) && (code c <=? code hi))%N.

Definition is_digit (c : ascii) : bool := in_range "0" "9" c.
Definition is_upper (c : ascii) : bool := in_range "A" "Z" c.
Definition is_lower (c : ascii) : bool := in_range "a" "z" c.
Definition is_alpha (c : ascii) : bool := is_upper c || is_lower c.
Definition is_alnum (c : ascii) : bool := is_alpha c || is_digit c.

Definition chr_in (set : string) (c : ascii) : bool :=
  existsb (Ascii.eqb c) (list_ascii_of_string set).

(** [\s] of a Python 3 [str] pattern: the characters for which
    [str.isspace()] holds, below 256. *)
Definition re_space (c : ascii) : bool :=
  let n := code c in
  ((9 <=? n) && (n <=? 13) || (28 <=? n) && (n <=? 32)
   || (n =? 133) || (n =? 160))%N.

(** [str.lower()] on code points below 256. *)
Definition lower_char (c : ascii) : ascii :=
  let n := code c in
  if is_upper c then ascii_of_N (n + 32)
  else if ((192 <=? n) && (n <=? 222) && negb (n =? 215))%N
       then ascii_of_N (n + 32)
  else c.

Definition NL : ascii := "010".
Definition CR : ascii := "013".
Definition TAB : ascii := "009".
Definition SP : ascii := " ".
Definition DQ : ascii := "034".

(** pyparsing's default whitespace characters, [" \n\t\r"]. *)
Definition pyp_white (c : ascii) : bool :=
  Ascii.eqb c SP || Ascii.eqb c NL || Ascii.eqb c TAB || Ascii.eqb c CR.

(** [string.printable] without [string.whitespace]: pyparsing's
    [printables]. *)
Definition printable (c : ascii) : bool := ((33 <=? code c) && (code c <=? 126))%N.

End Characters.

Abbreviation chars := list_ascii_of_string.
Abbreviation str_of := string_of_list_ascii.

Definition lower (s : list ascii) : list ascii := map lower_char s.

(** [str.expandtabs()] with the default tab size of 8; the column restarts
    after a line feed or a carriage return. *)
Fixpoint expandtabs_from (col : nat) (s : list ascii) : list ascii :=
  match s with
  | [] => []
  | c :: s' =>
      if Ascii.eqb c TAB then
        repeat SP (8 - col mod 8) ++ expandtabs_from 0 s'
      else if Ascii.eqb c NL || Ascii.eqb c CR then c :: expandtabs_from 0 s'
      else c :: expandtabs_from (S col) s'
  end.

Definition expandtabs (s : list ascii) : list ascii := expandtabs_from 0 s.

(** ** 2. Regular expressions

    The patterns of the module use literals, character classes, sequence,
    alternation, [?], greedy and lazy repetition of a character class, and
    [$].  [re_match r s k] is the backtracking matcher of [re]: it tries the
    ways [r] can match a prefix of [s] in Python's order of preference and
    returns the first one the continuation [k] accepts. *)

Inductive regex : Type :=
| RChar (c : ascii)
| RClass (p : ascii -> bool)
| RSeq (r1 r2 : regex)
| RAlt (r1 r2 : regex)
| ROpt (r : regex)
| RStar (p : ascii -> bool)
| RLazyStar (p : ascii -> bool)
| REnd.

Section Matcher.
Context {A : Type}.

Fixpoint star_greedy (p : ascii -> bool) (s : list ascii)
    (k : list ascii -> option A) : option A :=
  match s with
  | c :: s' =>
      if p c then
        match star_greedy p s' k with
        | Some x => Some x
        | None => k s
        end
      else k s
  | [] => k s
  end.

Fixpoint star_lazy (p : ascii -> bool) (s : list ascii)
    (k : list ascii -> option A) : option A :=
  match k s with
  | Some x => Some x
  | None =>
      match s with
      | c :: s' => if p c then star_lazy p s' k else None
      | [] => None
      end
  end.

Fixpoint re_match (r : regex) (s : list ascii)
    (k : list ascii -> option A) : option A :=
  match r with
  | RChar c =>
      match s with
      | x :: s' => if Ascii.eqb x c then k s' else None
      | [] => None
      end
  | RClass p =>
      match s with
      | x :: s' => if p x then k s' else None
      | [] => None
      end
  | RSeq r1 r2 => re_match r1 s (fun s' => re_match r2 s' k)
  | RAlt r1 r2 =>
      match re_match r1 s k with
      | Some x => Some x
      | None => re_match r2 s k
      end
  | ROpt r1 =>
      match re_match r1 s k with
      | Some x => Some x
      | None => k s
      end
  | RStar p => star_greedy p s k
  | RLazyStar p => star_lazy p s k
  | REnd =>
      match s with
      | [] => k s
      | [c] => if Ascii.eqb c NL then k s else None
      | _ => None
      end
  end.

End Matcher.

Fixpoint RStr_chars (l : list ascii) : regex :=
  match l with
  | [] => ROpt (RClass (fun _ => false))
  | [c] => RChar c
  | c :: l' => RSeq (RChar c) (RStr_chars l')
  end.

Definition RStr (s : string) : regex := RStr_chars (chars s).
Definition RPlus (p : ascii -> bool) : regex := RSeq (RClass p) (RStar p).

(** [pattern.match(s)]: the text left after the match, if there is one. *)
Definition re_prefix (r : regex) (s : list ascii) : option (list ascii) :=
  re_match r s Some.

(** The part of [s] in front of its suffix [rest]. *)
Definition matched (s rest : list ascii) : list ascii :=
  take (length s - length rest) s.

(** [re.sub(r, f, s)] for a pattern [r] that has no empty match: the matches
    are found from left to right and do not overlap. *)
Fixpoint re_sub_fuel (fuel : nat) (r : regex)
    (f : list ascii -> list ascii) (s : list ascii) : list ascii :=
  match fuel with
  | O => s
  | S n =>
      match s with
      | [] => []
      | c :: s' =>
          match re_prefix r s with
          | Some rest =>
              if (length rest <? length s)%nat
              then f (matched s rest) ++ re_sub_fuel n r f rest
              else c :: re_sub_fuel n r f s'
          | None => c :: re_sub_fuel n r f s'
          end
      end
  end.

Definition re_sub (r : regex) (f : list ascii -> list ascii)
    (s : list ascii) : list ascii :=
  re_sub_fuel (length s) r f s.

(** ** 3. [ignore_comments] *)

Definition any_char (_ : ascii) : bool := true.
Definition not_newline (c : ascii) : bool := negb (Ascii.eqb c NL).

(** [r"--([\s\S]*?(--|\n))"] *)
Definition comment_re : regex :=
  RSeq (RStr "--") (RSeq (RLazyStar any_char) (RAlt (RStr "--") (RChar NL))).

(** [re_replace.sub(' ', mo.group(0))] with [re_replace = r'[^\n]']. *)
Definition blank (m : list ascii) : list ascii :=
  map (fun c => if not_newline c then SP else c) m.

Definition ignore_comments_chars (s : list ascii) : list ascii :=
  re_sub comment_re blank s.

Definition ignore_comments (s : string) : string :=
  str_of (ignore_comments_chars (chars s)).

(** ** 4. Python values, exceptions and log records *)

(** The values that flow through the parse actions.  [PResults] is a
    [pyparsing.ParseResults] (its token list; no results names are used by
    the grammar), [PList] a Python [list], [PTokens] an instance of the
    module's class [Tokens]. *)
Inductive pyval : Type :=
| PNone
| PBool (b : bool)
| PInt (z : Z)
| PStr (s : string)
| PTuple (l : list pyval)
| PList (l : list pyval)
| PResults (l : list pyval)
| PDict (d : gmap string pyval)
| PTokens (tag : string) (l : list pyval).

(** [EXTENSION_MARKER = None] *)
Definition EXTENSION_MARKER : pyval := PNone.

Inductive parse_error_message : Type :=
| InvalidSyntaxTokens      (* "Invalid ASN.1 syntax at line {}, column {}: '{}'." *)
| InvalidSyntax            (* "Invalid ASN.1 syntax at line {}, column {}: '{}': {}." *)
| DuplicatedNumber (number : Z) (line : nat).
                           (* 'Duplicated ENUMERATED number {} at line {}.' *)

(** Exceptions.  [NotModelled] marks a path of the program this development
    does not cover; no theorem below reads it as a result of the program. *)
Inductive exn : Type :=
| ParseError (m : parse_error_message)
| InternalParserError (kind : pyval)
| ValueError
| TypeError
| IndexError
| KeyError
| AttributeError
| NotModelled (what : string).

Inductive log_record : Type :=
| LogWarning (msg : string)
| LogDebug (msg : string).

Definition res (A : Type) : Type := (exn + A)%type.

Definition raise {A} (e : exn) : res A := inl e.
Definition ret {A} (a : A) : res A := inr a.

Definition bind {A B} (m : res A) (f : A -> res B) : res B :=
  match m with
  | inl e => inl e
  | inr a => f a
  end.

Notation "x <- m ;; k" := (bind m (fun x => k))
  (at level 100, m at next level, right associativity).

Fixpoint mapM {A B} (f : A -> res B) (l : list A) : res (list B) :=
  match l with
  | [] => ret []
  | a :: l' => b <- f a ;; bs <- mapM f l' ;; ret (b :: bs)
  end.

(** *** Python primitives *)

(** [ParseResults.asList()] on the token list: nested results become lists,
    everything else is left as it is. *)
Fixpoint asList_val (v : pyval) : pyval :=
  match v with
  | PResults l => PList (map asList_val l)
  | _ => v
  end.

Definition asList (tokens : list pyval) : list pyval := map asList_val tokens.

(** [v.asList()] *)
Definition py_asList (v : pyval) : res (list pyval) :=
  match v with
  | PResults l => ret (asList l)
  | _ => raise AttributeError
  end.

Definition str_get (s : string) (i : nat) : res pyval :=
  match String.get i s with
  | Some c => ret (PStr (String c EmptyString))
  | None => raise IndexError
  end.

(** [v[i]] for a non-negative [i]. *)
Definition idx (v : pyval) (i : nat) : res pyval :=
  match v with
  | PTuple l | PList l | PResults l | PTokens _ l =>
      match l !! i with
      | Some x => ret x
      | None => raise IndexError
      end
  | PStr s => str_get s i
  | PDict _ => raise KeyError
  | PNone | PBool _ | PInt _ => raise TypeError
  end.

(** [tokens[i]] on the token list of a [ParseResults]. *)
Definition tok (tokens : list pyval) (i : nat) : res pyval :=
  idx (PResults tokens) i.

(** [len(v)] *)
Definition py_len (v : pyval) : res nat :=
  match v with
  | PTuple l | PList l | PResults l | PTokens _ l => ret (length l)
  | PStr s => ret (String.length s)
  | PDict d => ret (size d)
  | PNone | PBool _ | PInt _ => raise TypeError
  end.

(** Truth value of [v]. *)
Definition py_truth (v : pyval) : bool :=
  match v with
  | PNone => false
  | PBool b => b
  | PInt z => negb (z =? 0)%Z
  | PStr s => negb (String.eqb s EmptyString)
  | PTuple l | PList l | PResults l | PTokens _ l =>
      match l with [] => false | _ => true end
  | PDict d => negb (bool_decide (d = ∅))
  end.

(** [for x in v].  A dictionary gives its keys in the order of their
    insertion, which a [gmap] does not keep: only a dictionary with at most
    one key is iterated here. *)
Definition py_iter (v : pyval) : res (list pyval) :=
  match v with
  | PTuple l | PList l | PResults l | PTokens _ l => ret l
  | PStr s => ret (map (fun c => PStr (String c EmptyString)) (chars s))
  | PDict d =>
      match map_to_list d with
      | [] => ret []
      | [(k, _)] => ret [PStr k]
      | _ => raise (NotModelled "iteration of a dictionary")
      end
  | PNone | PBool _ | PInt _ => raise TypeError
  end.

(** [a, b = v] and [a, b, c = v] *)
Definition unpack2 (v : pyval) : res (pyval * pyval) :=
  l <- py_iter v ;;
  match l with
  | [a; b] => ret (a, b)
  | _ => raise ValueError
  end.

Definition unpack3 (v : pyval) : res (pyval * pyval * pyval) :=
  l <- py_iter v ;;
  match l with
  | [a; b; c] => ret (a, b, c)
  | _ => raise ValueError
  end.

(** [v == s] for a string [s]; class [Tokens] compares its tag. *)
Definition eq_str (v : pyval) (s : string) : bool :=
  match v with
  | PStr s' => String.eqb s' s
  | PTokens tag _ => String.eqb tag s
  | _ => false
  end.

(** [p] is a prefix of [s]; [p] occurs in [s]. *)
Fixpoint is_prefix (p s : list ascii) : bool :=
  match p, s with
  | [], _ => true
  | a :: p', b :: s' => Ascii.eqb a b && is_prefix p' s'
  | _ :: _, [] => false
  end.

Fixpoint is_infix (p s : list ascii) : bool :=
  is_prefix p s ||
  match s with
  | [] => false
  | _ :: s' => is_infix p s'
  end.

(** [c in v] for a string [c]: an element equal to [c] of a sequence, a key
    of a dictionary, a substring of a string.  A [ParseResults] looks among
    its results names, of which the grammar sets none. *)
Definition contains_str (c : string) (v : pyval) : res bool :=
  match v with
  | PTuple l | PList l | PTokens _ l => ret (existsb (fun x => eq_str x c) l)
  | PResults _ => ret false
  | PStr s => ret (is_infix (chars c) (chars s))
  | PDict d => ret (bool_decide (is_Some (d !! c)))
  | PNone | PBool _ | PInt _ => raise TypeError
  end.

(** [isinstance(v, list)], [isinstance(v, dict)], [isinstance(v, str)] *)
Definition is_list (v : pyval) : bool :=
  match v with PList _ => true | _ => false end.
Definition is_dict (v : pyval) : bool :=
  match v with PDict _ => true | _ => false end.
Definition is_str (v : pyval) : bool :=
  match v with PStr _ => true | _ => false end.

(** The white space [int()] skips around the digits of a string: the ASCII
    white space, and of the characters above 127 the two that are spaces.
    The separators [0x1c] to [0x1f] are white space for [\s] but not
    here. *)
Definition int_space (c : ascii) : bool :=
  let n := code c in
  ((9 <=? n) && (n <=? 13) || (n =? 32) || (n =? 133) || (n =? 160))%N.

(** [int(s)] for a string: optional surrounding whitespace, an optional
    sign, decimal digits with single underscores between them. *)
Fixpoint digits_value (acc : Z) (l : list ascii) : option Z :=
  match l with
  | [] => Some acc
  | c :: l' =>
      if is_digit c then
        digits_value (10 * acc + Z.of_N (code c - code "0")) l'
      else if Ascii.eqb c "_" then
        match l' with
        | d :: _ => if is_digit d then digits_value acc l' else None
        | [] => None
        end
      else None
  end.

Fixpoint drop_while (p : ascii -> bool) (l : list ascii) : list ascii :=
  match l with
  | c :: l' => if p c then drop_while p l' else l
  | [] => []
  end.

Definition strip (l : list ascii) : list ascii :=
  rev (drop_while int_space (rev (drop_while int_space l))).

Definition unsigned_of_chars (l : list ascii) : option Z :=
  match l with
  | c :: _ => if is_digit c then digits_value 0 l else None
  | [] => None
  end.

Definition int_of_chars (l : list ascii) : option Z :=
  match strip l with
  | "-"%char :: l' => Z.opp <$> unsigned_of_chars l'
  | "+"%char :: l' => unsigned_of_chars l'
  | l' => unsigned_of_chars l'
  end.

(** [int(v)] *)
Definition py_int (v : pyval) : res Z :=
  match v with
  | PInt z => ret z
  | PBool b => ret (if b then 1 else 0)%Z
  | PStr s =>
      match int_of_chars (chars s) with
      | Some z => ret z
      | None => raise ValueError
      end
  | _ => raise TypeError
  end.

(** [d[k]] and [d[k] = v] for a string [k], on a value that should be a
    dictionary.  A [ParseResults] takes a string for a results name: it has
    none to give, and setting one is not modelled. *)
Definition dict_get (v : pyval) (k : string) : res pyval :=
  match v with
  | PDict d =>
      match d !! k with
      | Some x => ret x
      | None => raise KeyError
      end
  | PResults _ => raise KeyError
  | PStr _ | PTuple _ | PList _ | PTokens _ _ => raise TypeError
  | PNone | PBool _ | PInt _ => raise TypeError
  end.

Definition dict_set (v : pyval) (k : string) (x : pyval) : res pyval :=
  match v with
  | PDict d => ret (PDict (<[k := x]> d))
  | PResults _ => raise (NotModelled "results name")
  | _ => raise TypeError
  end.

(** A dictionary key; the module only uses strings as keys.  Lists,
    dictionaries and [Tokens] are not hashable. *)
Definition as_key (v : pyval) : res string :=
  match v with
  | PStr s => ret s
  | PList _ | PDict _ | PTokens _ _ => raise TypeError
  | _ => raise (NotModelled "dictionary key that is not a string")
  end.

(** [lineno(loc, strg)] of pyparsing: [strg.count("\n", 0, loc) + 1]. *)
Definition lineno (loc : nat) (strg : list ascii) : nat :=
  length (filter (fun c => c = NL) (take loc strg)) + 1.

(** ** 5. The conversion functions ([convert_*])

    A parse action receives the token list of a [ParseResults] and returns a
    Python value ([PNone] when the function returns nothing) or raises. *)

(** [d.items()]: the items of a dictionary; those of a [ParseResults] are
    its results names, of which the grammar sets none; nothing else has
    [items]. *)
Definition as_dict (v : pyval) : res (gmap string pyval) :=
  match v with
  | PDict m => ret m
  | PResults _ => ret ∅
  | _ => raise AttributeError
  end.

(** [{k: v for d in dicts for k, v in d.items()}]: later dictionaries win. *)
Definition merge_dicts (dicts : list pyval) : res pyval :=
  ds <- mapM as_dict dicts ;;
  ret (PDict (foldl (fun acc m => m ∪ acc) ∅ ds)).

Definition convert_integer (tokens : list pyval) : res pyval :=
  match tok tokens 0 with
  | inl IndexError => ret (PResults tokens)
  | inl e => raise e
  | inr x =>
      match py_int x with
      | inr z => ret (PInt z)
      | inl ValueError => ret (PResults tokens)
      | inl e => raise e
      end
  end.

Definition convert_real_number (tokens : list pyval) : res pyval :=
  x <- tok tokens 0 ;;
  has_dot <- contains_str "." x ;;
  if negb has_dot then z <- py_int x ;; ret (PInt z)
  else ret (PResults tokens).

Definition convert_number (token : pyval) : res pyval :=
  token <- (if is_list token then idx token 0 else ret token) ;;
  match py_int token with
  | inr z => ret (PInt z)
  | inl ValueError | inl TypeError => ret token
  | inl e => raise e
  end.

Definition convert_size_item (item_tokens : pyval) : res pyval :=
  is_range <- contains_str ".." item_tokens ;;
  if is_range then
    a <- idx item_tokens 0 ;; lo <- convert_number a ;;
    b <- idx item_tokens 2 ;; hi <- convert_number b ;;
    ret (PTuple [lo; hi])
  else
    a <- idx item_tokens 0 ;; convert_number a.

Definition convert_size (tokens : pyval) : res pyval :=
  n <- py_len tokens ;;
  if (n =? 0)%nat then ret PNone else
  tokens <- idx tokens 0 ;;
  t0 <- idx tokens 0 ;;
  if eq_str t0 "SIZE" then
    t1 <- idx tokens 1 ;;
    items <- py_asList t1 ;;
    values <- mapM convert_size_item items ;;
    ret (PList values)
  else
    match t0 with
    | PDict d =>
        match d !! "size" with
        | Some v => ret v
        | None => ret PNone
        end
    | _ => ret PNone
    end.

(** *** [convert_enum_values] *)

Definition mem (z : Z) (l : list Z) : bool := existsb (Z.eqb z) l.

(** The nested [add_used_numbers(items)]. *)
Fixpoint add_used_numbers (string : list ascii) (location : nat)
    (items : list pyval) (used_numbers : list Z) : res (list Z) :=
  match items with
  | [] => ret used_numbers
  | item :: items' =>
      if negb (is_list item) then
        add_used_numbers string location items' used_numbers
      else
        x <- idx item 2 ;;
        item_number <- py_int x ;;
        if mem item_number used_numbers then
          raise (ParseError
                   (DuplicatedNumber item_number (lineno location string)))
        else
          add_used_numbers string location items'
            (used_numbers ++ [item_number])
  end.

(** [while number in used_numbers: number += 1]; the loop runs at most
    [len(used_numbers)] times. *)
Fixpoint skip_used (fuel : nat) (number : Z) (used_numbers : list Z) : Z :=
  match fuel with
  | O => number
  | S n =>
      if mem number used_numbers
      then skip_used n (number + 1) used_numbers
      else number
  end.

Record enum_state : Type := EnumState {
  number : Z;
  values : list pyval;
  used_numbers : list Z
}.

(** The loop over the root enumeration. *)
Fixpoint root_loop (root : list pyval) (st : enum_state) : res enum_state :=
  match root with
  | [] => ret st
  | token :: root' =>
      if is_list token then
        name <- idx token 0 ;;
        x <- idx token 2 ;;
        n <- py_int x ;;
        root_loop root'
          (EnumState (number st)
             (values st ++ [PTuple [name; PInt n]])
             (used_numbers st))
      else
        let number' :=
          skip_used (length (used_numbers st)) (number st) (used_numbers st) in
        root_loop root'
          (EnumState (number' + 1)
             (values st ++ [PTuple [token; PInt number']])
             (used_numbers st ++ [number']))
  end.

(** The loop over the additional enumeration. *)
Fixpoint additional_loop (string : list ascii) (location : nat)
    (additional : list pyval) (st : enum_state) : res enum_state :=
  match additional with
  | [] => ret st
  | token :: additional' =>
      if is_list token then
        x <- idx token 2 ;;
        n <- py_int x ;;
        name <- idx token 0 ;;
        additional_loop string location additional'
          (EnumState (n + 1)
             (values st ++ [PTuple [name; PInt n]])
             (used_numbers st))
      else if mem (number st) (used_numbers st) then
        raise (ParseError
                 (DuplicatedNumber (number st) (lineno location string)))
      else
        additional_loop string location additional'
          (EnumState (number st + 1)
             (values st ++ [PTuple [token; PInt (number st)]])
             (used_numbers st ++ [number st]))
  end.

Definition convert_enum_values (string : list ascii) (location : nat)
    (tokens : pyval) : res (list pyval) :=
  p <- unpack2 tokens ;;
  let '(root, extension) := p in
  root <- py_asList root ;;
  extension <- py_asList extension ;;
  (* Root enumeration. *)
  used <- add_used_numbers string location root [] ;;
  st <- root_loop root (EnumState 0 [] used) ;;
  (* Optional additional enumeration. *)
  match extension with
  | [] => ret (values st)
  | _ :: additional =>
      let st := EnumState (number st) (values st ++ [EXTENSION_MARKER])
                  (used_numbers st) in
      used <- add_used_numbers string location additional (used_numbers st) ;;
      st <- additional_loop string location additional
              (EnumState (number st) (values st) used) ;;
      ret (values st)
  end.

(** *** Tags, ranges, types *)

Definition convert_tag (tokens : pyval) : res pyval :=
  n <- py_len tokens ;;
  if (0 <? n)%nat then
    t0 <- idx tokens 0 ;;
    n0 <- py_len t0 ;;
    tag <- (if (n0 =? 1)%nat then
              x <- idx t0 0 ;; z <- py_int x ;;
              ret ({["number" := PInt z]} : gmap string pyval)
            else
              x <- idx t0 1 ;; num <- convert_number x ;;
              cls <- idx t0 0 ;;
              ret (<["class" := cls]> {["number" := num]})) ;;
    t1 <- idx tokens 1 ;;
    if py_truth t1 then
      kind <- idx t1 0 ;;
      ret (PDict (<["kind" := kind]> tag))
    else ret (PDict tag)
  else ret PNone.

Definition convert_value_range (tokens : list pyval) : res pyval :=
  let tokens := PList (asList tokens) in
  minimum <- idx tokens 0 ;;
  minimum <- (if is_list minimum then idx minimum 0 else ret minimum) ;;
  maximum <- idx tokens 1 ;;
  maximum <- (if is_list maximum then idx maximum 0 else ret maximum) ;;
  ret (PTuple [minimum; maximum]).

(** The body of the loop of [convert_inner_type_constraints]. *)
Definition convert_inner_type_constraints_item (item_tokens : pyval)
    : res pyval :=
  if eq_str item_tokens "..." then ret EXTENSION_MARKER else
  n <- py_len item_tokens ;;
  if (n =? 2)%nat then
    i1 <- idx item_tokens 1 ;;
    if is_list i1 then
      value <- idx i1 0 ;;
      value <- (if is_list value then idx value 0 else ret value) ;;
      i0 <- idx item_tokens 0 ;;
      ret (PTuple [i0; value])
    else
      i0 <- idx item_tokens 0 ;;
      ret (PTuple [i0; i1])
  else ret item_tokens.

Definition convert_inner_type_constraints (tokens : list pyval) : res pyval :=
  t2 <- idx (PList (asList tokens)) 2 ;;
  items <- py_iter t2 ;;
  components <- mapM convert_inner_type_constraints_item items ;;
  ret (PDict {["with-components" := PList components]}).

(** The body of the loop of [convert_permitted_alphabet]: the values one
    token adds. *)
Definition convert_permitted_alphabet_item (token : pyval)
    : res (list pyval) :=
  t0 <- idx token 0 ;;
  if is_list t0 then
    t00 <- idx t0 0 ;;
    cs <- py_iter t00 ;;
    ret (map (fun char => PTuple [char; char]) cs)
  else ret [t0].

Definition convert_permitted_alphabet (tokens : list pyval) : res pyval :=
  let tokens := asList tokens in
  values <- mapM convert_permitted_alphabet_item (drop 1 tokens) ;;
  ret (PDict {["from" := PList (concat values)]}).

Definition convert_constraint (tokens : list pyval) : res pyval :=
  let _ := asList tokens in ret PNone.

(** [converted_type.update(d)]; for an attribute it does not have a
    [ParseResults] gives the empty string, which cannot be called. *)
Definition dict_update (converted_type : pyval) (d : gmap string pyval)
    : res pyval :=
  match converted_type with
  | PDict m => ret (PDict (d ∪ m))
  | PResults _ => raise TypeError
  | _ => raise AttributeError
  end.

(** One round of the loop of [convert_type]. *)
Definition convert_type_step (acc : pyval * list pyval)
    (constraint_tokens : pyval) : res (pyval * list pyval) :=
  let '(converted_type, restricted_to) := acc in
  let constraint_tokens := asList_val constraint_tokens in
  if eq_str constraint_tokens "..." then
    ret (converted_type, restricted_to ++ [EXTENSION_MARKER])
  else
    n <- py_len constraint_tokens ;;
    if (n =? 1)%nat then
      c0 <- idx constraint_tokens 0 ;;
      match c0 with
      | PDict d =>
          if bool_decide (is_Some (d !! "size"))
             || bool_decide (is_Some (d !! "from"))
             || bool_decide (is_Some (d !! "with-components"))
          then
            converted_type <- dict_update converted_type d ;;
            ret (converted_type, restricted_to)
          else ret acc
      | _ =>
          x <- convert_number c0 ;;
          ret (converted_type, restricted_to ++ [x])
      end
    else ret acc.

Fixpoint foldM {A B} (f : A -> B -> res A) (l : list B) (a : A) : res A :=
  match l with
  | [] => ret a
  | b :: l' => a' <- f a b ;; foldM f l' a'
  end.

(** [convert_table(tokens)] *)
Definition convert_table (tokens : pyval) : res pyval :=
  tokens <- idx tokens 0 ;;
  match (t1 <- idx tokens 1 ;;
         t10 <- idx t1 0 ;;
         t100 <- idx t10 0 ;;
         if is_list t100 then idx t100 0 else ret t100) with
  | inl IndexError => ret PNone
  | inl e => raise e
  | inr defined_object_set =>
      match idx tokens 4 with
      | inl IndexError => ret defined_object_set
      | inl e => raise e
      | inr component_ids => ret (PList [defined_object_set; component_ids])
      end
  end.

Definition sized_types : list string :=
  ["BIT STRING"; "OCTET STRING"; "IA5String"; "VisibleString";
   "UTF8String"; "NumericString"; "PrintableString"].

Definition convert_type (tokens : pyval) : res pyval :=
  p <- unpack2 tokens ;;
  let '(converted_type, constraints) := p in
  cs <- py_iter constraints ;;
  p <- foldM convert_type_step cs (converted_type, []) ;;
  let '(converted_type, restricted_to) := p in
  let restricted_to :=
    if existsb (fun x => eq_str x "{") restricted_to then [] else restricted_to in
  converted_type <-
    (match restricted_to with
     | [] => ret converted_type
     | _ => dict_set converted_type "restricted-to" (PList restricted_to)
     end) ;;
  ty <- dict_get converted_type "type" ;;
  converted_type <-
    (if existsb (eq_str ty) sized_types then
       size <- convert_size constraints ;;
       if py_truth size then dict_set converted_type "size" size
       else ret converted_type
     else ret converted_type) ;;
  has_amp <- contains_str "&" ty ;;
  if has_amp then
    match tokens with
    | PResults l =>
        table <- convert_table (PList (drop 1 (asList l))) ;;
        dict_set converted_type "table" table
    | _ => raise AttributeError
    end
  else ret converted_type.

Definition type_dict (name : string) : pyval :=
  PDict {["type" := PStr name]}.

Definition convert_defined_type (tokens : list pyval) : res pyval :=
  t <- tok tokens 0 ;; ret (PDict {["type" := t]}).

Definition convert_integer_type (_ : list pyval) : res pyval :=
  ret (type_dict "INTEGER").

Definition convert_real_type (_ : list pyval) : res pyval :=
  ret (type_dict "REAL").

Definition convert_enumerated_type (string : list ascii) (location : nat)
    (tokens : list pyval) : res pyval :=
  t2 <- tok tokens 2 ;;
  vs <- convert_enum_values string location t2 ;;
  ret (PDict (<["values" := PList vs]> {["type" := PStr "ENUMERATED"]})).

Definition convert_keyword_type (tokens : list pyval) : res pyval :=
  t <- tok tokens 0 ;; ret (PDict {["type" := t]}).

Definition convert_object_identifier_type (_ : list pyval) : res pyval :=
  ret (type_dict "OBJECT IDENTIFIER").

Definition convert_bit_string_type (tokens : list pyval) : res pyval :=
  named_bit_list <- idx (PList (asList tokens)) 1 ;;
  if py_truth named_bit_list then
    bits <- py_iter named_bit_list ;;
    bits <- mapM (fun b => l <- py_iter b ;; ret (PTuple l)) bits ;;
    ret (PDict (<["named-bits" := PList bits]> {["type" := PStr "BIT STRING"]}))
  else ret (type_dict "BIT STRING").

Definition convert_octet_string_type (_ : list pyval) : res pyval :=
  ret (type_dict "OCTET STRING").

Definition convert_any_defined_by_type (tokens : list pyval) : res pyval :=
  t1 <- tok tokens 1 ;;
  ret (PDict (<["choices" := PDict ∅]>
                (<["value" := t1]> {["type" := PStr "ANY DEFINED BY"]}))).

Definition convert_null_type (_ : list pyval) : res pyval :=
  ret (type_dict "NULL").

Definition convert_boolean_type (_ : list pyval) : res pyval :=
  ret (type_dict "BOOLEAN").

(** *** Values *)

(** [re.sub(r"[...]", '', s)]: every character of the class is removed. *)
Definition re_remove (p : ascii -> bool) (s : list ascii) : list ascii :=
  re_sub (RClass p) (fun _ => []) s.

Definition bstring_noise (c : ascii) : bool := re_space c || chr_in "B'" c.
Definition hstring_noise (c : ascii) : bool := re_space c || chr_in "H'" c.

(** ['0b' + re.sub(r"[\sB']", '', tokens[0])] *)
Definition convert_bstring_str (s : string) : string :=
  "0b" +:+ str_of (re_remove bstring_noise (chars s)).

(** ['0x' + re.sub(r"[\sH']", '', tokens[0]).lower()] *)
Definition convert_hstring_str (s : string) : string :=
  "0x" +:+ str_of (lower (re_remove hstring_noise (chars s))).

Definition convert_bstring (tokens : list pyval) : res pyval :=
  t <- tok tokens 0 ;;
  match t with
  | PStr s => ret (PStr (convert_bstring_str s))
  | _ => raise TypeError
  end.

Definition convert_hstring (tokens : list pyval) : res pyval :=
  t <- tok tokens 0 ;;
  match t with
  | PStr s => ret (PStr (convert_hstring_str s))
  | _ => raise TypeError
  end.

Definition convert_bit_string_value (tokens : pyval) : res pyval :=
  value <- idx tokens 0 ;;
  if eq_str value "IdentifierList" then
    match value with
    | PTokens _ l => ret (PList l)
    | _ => ret value
    end
  else if is_str value then ret value
  else ret PNone.

Definition convert_oid_component (value_tokens : pyval) : res pyval :=
  n <- py_len value_tokens ;;
  if (n =? 2)%nat then
    a <- idx value_tokens 0 ;;
    b <- idx value_tokens 1 ;; z <- py_int b ;;
    ret (PTuple [a; PInt z])
  else
    a <- idx value_tokens 0 ;; convert_number a.

Definition is_int (v : pyval) : bool :=
  match v with PInt _ | PBool _ => true | _ => false end.

Definition convert_value (tokens : pyval) (type_ : pyval) : res pyval :=
  if eq_str type_ "INTEGER" then
    t <- idx tokens 0 ;; z <- py_int t ;; ret (PInt z)
  else if eq_str type_ "OBJECT IDENTIFIER" then
    l <- py_iter tokens ;;
    vs <- mapM convert_oid_component l ;;
    ret (PList vs)
  else if eq_str type_ "BOOLEAN" then
    t <- idx tokens 0 ;; ret (PBool (eq_str t "TRUE"))
  else
    t <- idx tokens 0 ;;
    if eq_str t "BitStringValue" then convert_bit_string_value t
    else if is_str t then convert_number t
    else if is_int t then ret t
    else ret PNone.

(** *** Assignments *)

(** One setting of a member of an object set that has several. *)
Definition object_set_member_item (member : gmap string pyval)
    (item_tokens : pyval) : res (gmap string pyval) :=
  name <- idx item_tokens 0 ;;
  i1 <- idx item_tokens 1 ;;
  value <- idx i1 0 ;;
  value <- (match value with
            | PTokens _ _ => idx value 0
            | _ => ret value
            end) ;;
  value <- convert_number value ;;
  name <- as_key name ;;
  ret (<[name := value]> member).

(** The body of the outer loop of
    [convert_parameterized_object_set_assignment]. *)
Definition object_set_member (member_tokens : pyval) : res pyval :=
  m0 <- idx member_tokens 0 ;;
  n <- py_len m0 ;;
  if (n =? 1)%nat then idx m0 0
  else
    items <- py_iter m0 ;;
    member <- foldM object_set_member_item items ∅ ;;
    ret (PDict member).

(** The loop is inside [try ... except IndexError: pass]: an [IndexError]
    ends it and leaves the members found so far. *)
Fixpoint object_set_members (l members : list pyval) : res (list pyval) :=
  match l with
  | [] => ret members
  | member_tokens :: l' =>
      match object_set_member member_tokens with
      | inr member => object_set_members l' (members ++ [member])
      | inl IndexError => ret members
      | inl e => raise e
      end
  end.

Definition convert_parameterized_object_set_assignment (tokens : list pyval)
    : res pyval :=
  members <-
    (match tok tokens 4 with
     | inl IndexError => ret []
     | inl e => raise e
     | inr t4 => l <- py_asList t4 ;; object_set_members l []
     end) ;;
  class_ <- tok tokens 1 ;;
  name <- tok tokens 0 ;;
  ret (PTuple [PStr "parameterized-object-set-assignment"; name;
               PDict (<["members" := PList members]> {["class" := class_]})]).

Definition convert_parameterized_object_assignment (tokens : list pyval)
    : res pyval :=
  type_ <- tok tokens 1 ;;
  name <- tok tokens 0 ;;
  ret (PTuple [PStr "parameterized-object-assignment"; name;
               PDict (<["value" := PNone]> {["type" := type_]})]).

(** [str.islower()] on code points below 256: no upper-case letter and at
    least one lower-case letter. *)
Definition cased_upper (c : ascii) : bool :=
  let n := code c in
  is_upper c || ((192 <=? n) && (n <=? 222) && negb (n =? 215))%N.

Definition cased_lower (c : ascii) : bool :=
  let n := code c in
  is_lower c
  || ((n =? 170) || (n =? 181) || (n =? 186)
      || (223 <=? n) && negb (n =? 247))%N.

Definition islower (v : pyval) : res bool :=
  match v with
  | PStr s =>
      ret (negb (existsb cased_upper (chars s))
           && existsb cased_lower (chars s))
  | PResults _ => raise TypeError
  | _ => raise AttributeError
  end.

(** The body of the loop of
    [convert_parameterized_object_class_assignment]. *)
Definition object_class_member (member : pyval) : res pyval :=
  m0 <- idx member 0 ;;
  c <- idx m0 1 ;;
  lower_case <- islower c ;;
  converted_member <-
    (if lower_case then
       m1 <- idx member 1 ;;
       converted_member <- idx m1 0 ;;
       match converted_member with
       | PTokens _ _ => idx converted_member 0
       | _ => ret converted_member
       end
     else ret (PDict {["type" := PStr "OpenType"]})) ;;
  name <- idx member 0 ;;
  dict_set converted_member "name" name.

Definition convert_parameterized_object_class_assignment
    (tokens : list pyval) : res pyval :=
  t3 <- tok tokens 3 ;;
  members <- py_iter t3 ;;
  members <- mapM object_class_member members ;;
  name <- tok tokens 0 ;;
  ret (PTuple [PStr "parameterized-object-class-assignment"; name;
               PDict {["members" := PList members]}]).

Definition convert_parameterized_type_assignment (tokens : list pyval)
    : res pyval :=
  let tokens := PList (asList tokens) in
  t3 <- idx tokens 3 ;;
  converted_type <- convert_type t3 ;;
  tag <- (t2 <- idx tokens 2 ;;
          match convert_tag t2 with
          | inl ValueError => ret PNone
          | r => r
          end) ;;
  converted_type <-
    (if py_truth tag then dict_set converted_type "tag" tag
     else ret converted_type) ;;
  name <- idx tokens 0 ;;
  ret (PTuple [PStr "parameterized-type-assignment"; name; converted_type]).

Definition convert_parameterized_value_assignment (tokens : list pyval)
    : res pyval :=
  t1 <- tok tokens 1 ;;
  t10 <- idx t1 0 ;;
  type_ <- idx t10 0 ;;
  type_ <- (match type_ with
            | PTokens _ _ => idx type_ 0
            | PDict _ => dict_get type_ "type"
            | _ => ret type_
            end) ;;
  t2 <- tok tokens 2 ;;
  value <- convert_value t2 type_ ;;
  name <- tok tokens 0 ;;
  ret (PTuple [PStr "parameterized-value-assignment"; name;
               PDict (<["value" := value]> {["type" := type_]})]).

Definition quoted (s : string) : string := "'" +:+ s +:+ "'".

Fixpoint imports_loop (tokens : list pyval) (imports : gmap string pyval)
    (log : list log_record) : list log_record * res (gmap string pyval) :=
  match tokens with
  | [] => (log, ret imports)
  | from_tokens :: tokens' =>
      match idx from_tokens 2 with
      | inl e => (log, raise e)
      | inr (PStr from_name) =>
          let log := log ++ [LogDebug ("Converting imports from "
                                        +:+ quoted from_name +:+ ".")] in
          match idx from_tokens 0 with
          | inl e => (log, raise e)
          | inr symbols =>
              imports_loop tokens' (<[from_name := symbols]> imports) log
          end
      | inr _ => (log, raise (NotModelled "module name that is not a string"))
      end
  end.

Definition convert_imports (tokens : list pyval)
    : list log_record * res pyval :=
  let tokens := asList tokens in
  let '(log, r) := imports_loop tokens ∅ [] in
  (log, imports <- r ;; ret (PDict {["imports" := PDict imports]})).

Record assignments : Type := Assignments {
  types : gmap string pyval;
  values_ : gmap string pyval;
  object_classes : gmap string pyval;
  object_sets : gmap string pyval
}.

Definition defined (name : string) (d : gmap string pyval) : bool :=
  bool_decide (is_Some (d !! name)).

Definition already_defined (what name : string) : log_record :=
  LogWarning (what +:+ " " +:+ quoted name +:+ " already defined.").

(** The body of the loop of [convert_assignment_list]. *)
Definition assignment_step (a : assignments) (log : list log_record)
    (kind name value : pyval) : list log_record * res assignments :=
  let store (what : string) (d : gmap string pyval)
      (upd : gmap string pyval -> assignments) :=
    match as_key name with
    | inl e => (log, raise e)
    | inr name =>
        (if defined name d then log ++ [already_defined what name] else log,
         ret (upd (<[name := value]> d)))
    end in
  if eq_str kind "parameterized-object-set-assignment" then
    store "Object set" (object_sets a)
      (fun d => Assignments (types a) (values_ a) (object_classes a) d)
  else if eq_str kind "parameterized-object-assignment" then
    store "Object" (values_ a)
      (fun d => Assignments (types a) d (object_classes a) (object_sets a))
  else if eq_str kind "parameterized-object-class-assignment" then
    store "Object class" (object_classes a)
      (fun d => Assignments (types a) (values_ a) d (object_sets a))
  else if eq_str kind "parameterized-type-assignment" then
    store "Type" (types a)
      (fun d => Assignments d (values_ a) (object_classes a) (object_sets a))
  else if eq_str kind "parameterized-value-assignment" then
    store "Value" (values_ a)
      (fun d => Assignments (types a) d (object_classes a) (object_sets a))
  else (log, raise (InternalParserError kind)).

Fixpoint assignment_loop (tokens : list pyval) (a : assignments)
    (log : list log_record) : list log_record * res assignments :=
  match tokens with
  | [] => (log, ret a)
  | t :: tokens' =>
      match unpack3 t with
      | inl e => (log, raise e)
      | inr (kind, name, value) =>
          match assignment_step a log kind name value with
          | (log, inl e) => (log, raise e)
          | (log, inr a) => assignment_loop tokens' a log
          end
      end
  end.

Definition assignments_dict (a : assignments) : pyval :=
  PDict (<["object-sets" := PDict (object_sets a)]>
        (<["object-classes" := PDict (object_classes a)]>
        (<["values" := PDict (values_ a)]>
        {["types" := PDict (types a)]}))).

Definition convert_assignment_list (tokens : list pyval)
    : list log_record * res pyval :=
  let '(log, r) := assignment_loop tokens (Assignments ∅ ∅ ∅ ∅) [] in
  (log, a <- r ;; ret (assignments_dict a)).

Definition convert_module_body (tokens : list pyval) : res pyval :=
  merge_dicts tokens.

Definition convert_module_definition (tokens : list pyval) : res pyval :=
  let tokens := PList (asList tokens) in
  t1 <- idx tokens 1 ;;
  module <- idx t1 0 ;;
  t0 <- idx tokens 0 ;;
  t03 <- idx t0 3 ;;
  let implied := match t03 with PList [] => false | _ => true end in
  module <- dict_set module "extensibility-implied" (PBool implied) ;;
  t02 <- idx t0 2 ;;
  module <- (if py_truth t02 then
               t020 <- idx t02 0 ;; dict_set module "tags" t020
             else ret module) ;;
  name <- idx t0 0 ;;
  name <- as_key name ;;
  ret (PDict {[name := module]}).

Definition convert_specification (tokens : list pyval) : res pyval :=
  merge_dicts tokens.

(** *** Structured types and size constraints *)

(** The loop body of [convert_size_constraint]. *)
Definition convert_size_constraint_item (item_tokens : pyval) : res pyval :=
  if eq_str item_tokens "..." then ret EXTENSION_MARKER
  else convert_size_item item_tokens.

Definition convert_size_constraint (tokens : list pyval) : res pyval :=
  tokens <- idx (PList (asList tokens)) 1 ;;
  items <- py_iter tokens ;;
  values <- mapM convert_size_constraint_item items ;;
  ret (PDict {["size" := PList values]}).

(** *** Members of SEQUENCE, SET and CHOICE *)

(** [member_tokens in [['...'], '...']] *)
Definition is_ellipsis (member_tokens : pyval) : bool :=
  match member_tokens with
  | PList [x] => eq_str x "..."
  | _ => eq_str member_tokens "..."
  end.

(** The body of the loop of [convert_members]; [group] is
    [convert_members(member_tokens[1])]. *)
Definition convert_member (member_tokens : pyval) (group : res pyval)
    : res pyval :=
  if is_ellipsis member_tokens then ret EXTENSION_MARKER else
  m0 <- idx member_tokens 0 ;;
  if eq_str m0 "COMPONENTS OF" then
    m1 <- idx member_tokens 1 ;;
    m10 <- idx m1 0 ;;
    ty <- dict_get m10 "type" ;;
    ret (PDict {["components-of" := ty]})
  else if eq_str m0 "[[" then group
  else
    n <- py_len member_tokens ;;
    p <- (if (n =? 2)%nat then
            p <- unpack2 member_tokens ;;
            qualifiers <- py_asList (snd p) ;;
            ret (fst p, qualifiers)
          else ret (member_tokens, [])) ;;
    let '(member_tokens, qualifiers) := p in
    t2 <- idx member_tokens 2 ;;
    member <- convert_type t2 ;;
    name <- idx member_tokens 0 ;;
    member <- dict_set member "name" name ;;
    member <-
      (if existsb (fun x => eq_str x "OPTIONAL") qualifiers
       then dict_set member "optional" (PBool true)
       else ret member) ;;
    member <-
      (if existsb (fun x => eq_str x "DEFAULT") qualifiers then
         q1 <- idx (PList qualifiers) 1 ;;
         n1 <- py_len q1 ;;
         value <- (if (n1 =? 0)%nat then ret (PList [])
                   else ty <- dict_get member "type" ;; convert_value q1 ty) ;;
         dict_set member "default" value
       else ret member) ;;
    t1 <- idx member_tokens 1 ;;
    tag <- convert_tag t1 ;;
    if py_truth tag then dict_set member "tag" tag else ret member.

(** [convert_members(tokens)]: the recursion goes into the second element of
    a member that starts with ['[['. *)
Fixpoint convert_members (tokens : pyval) : res pyval :=
  match tokens with
  | PTuple l | PList l | PResults l | PTokens _ l =>
      ms <- (fix members (l : list pyval) : res (list pyval) :=
               match l with
               | [] => ret []
               | member_tokens :: l' =>
                   m <- convert_member member_tokens
                          match member_tokens with
                          | PTuple (_ :: x :: _) | PList (_ :: x :: _)
                          | PResults (_ :: x :: _)
                          | PTokens _ (_ :: x :: _) => convert_members x
                          | _ => raise IndexError
                          end ;;
                   ms <- members l' ;;
                   ret (m :: ms)
               end) l ;;
      ret (PList ms)
  | PStr s =>
      (* the members are the characters of the string *)
      ms <- mapM (fun c => convert_member (PStr (String c EmptyString))
                             (raise IndexError)) (chars s) ;;
      ret (PList ms)
  | PDict _ => raise (NotModelled "members that are a dictionary")
  | PNone | PBool _ | PInt _ => raise TypeError
  end.

Definition members_type (name : string) (tokens : list pyval) : res pyval :=
  t2 <- tok tokens 2 ;;
  members <- convert_members t2 ;;
  ret (PDict (<["members" := members]> {["type" := PStr name]})).

Definition convert_sequence_type (tokens : list pyval) : res pyval :=
  members_type "SEQUENCE" tokens.

Definition convert_set_type (tokens : list pyval) : res pyval :=
  members_type "SET" tokens.

Definition convert_choice_type (tokens : list pyval) : res pyval :=
  members_type "CHOICE" tokens.

(** [convert_sequence_of_type] and [convert_set_of_type] have the same
    body. *)
Definition element_type (name : string) (tokens : list pyval) : res pyval :=
  t4 <- tok tokens 4 ;;
  element <- convert_type t4 ;;
  t1 <- tok tokens 1 ;;
  n <- py_len t1 ;;
  size <- (if (0 <? n)%nat then
             t10 <- idx t1 0 ;; s <- dict_get t10 "size" ;; ret (Some s)
           else ret None) ;;
  t3 <- tok tokens 3 ;;
  tag <- convert_tag t3 ;;
  element <- (if py_truth tag then dict_set element "tag" tag
              else ret element) ;;
  let converted_type : gmap string pyval :=
    <["element" := element]> {["type" := PStr name]} in
  ret (PDict match size with
             | Some s => <["size" := s]> converted_type
             | None => converted_type
             end).

Definition convert_sequence_of_type (tokens : list pyval) : res pyval :=
  element_type "SEQUENCE OF" tokens.

Definition convert_set_of_type (tokens : list pyval) : res pyval :=
  element_type "SET OF" tokens.

(** ** 6. The pyparsing combinators

    The classes of pyparsing that [create_grammar] uses, as a syntax of
    parser expressions with an interpreter.  A [Forward] is a reference into
    a table of productions, which is how the recursion of the grammar is
    tied. *)

(** A parse action: [fn(instring, loc, tokens)]. *)
Definition action : Type :=
  list ascii -> nat -> list pyval -> list log_record * res pyval.

Definition pure_action (f : list pyval -> res pyval) : action :=
  fun _ _ tokens => ([], f tokens).

Inductive pexpr (F : Type) : Type :=
| Keyword (s : string)
| Literal (s : string)
| Word (p : ascii -> bool)
| Regex (r : regex)
| QuotedString (q : ascii)
| NoMatch
| StringEnd
| ErrorStop
| And (l : list (pexpr F))
| MatchFirst (l : list (pexpr F))
| Optional (e : pexpr F)
| ZeroOrMore (e : pexpr F)
| OneOrMore (e : pexpr F)
| NotAny (e : pexpr F)
| Group (e : pexpr F)
| Suppress (e : pexpr F)
| Combine (e : pexpr F)
| Tag (tag : string) (e : pexpr F)
| Forward (f : F)
| WithAction (a : action) (e : pexpr F).

Arguments Keyword {F} s.
Arguments Literal {F} s.
Arguments Word {F} p.
Arguments Regex {F} r.
Arguments QuotedString {F} q.
Arguments NoMatch {F}.
Arguments StringEnd {F}.
Arguments ErrorStop {F}.
Arguments And {F} l.
Arguments MatchFirst {F} l.
Arguments Optional {F} e.
Arguments ZeroOrMore {F} e.
Arguments OneOrMore {F} e.
Arguments NotAny {F} e.
Arguments Group {F} e.
Arguments Suppress {F} e.
Arguments Combine {F} e.
Arguments Tag {F} tag e.
Arguments Forward {F} f.
Arguments WithAction {F} a e.

(** The result of [_parse]: the new location and the tokens, a
    [ParseException], a [ParseSyntaxException] (raised behind the error stop
    of the [-] operator and not caught by the alternatives), another
    exception raised by a parse action, or an [IndexError] of a parse
    action, which the combinators catch like a [ParseException]. *)
Inductive outcome : Type :=
| Matched (loc : nat) (tokens : list pyval)
| ParseException
| ParseSyntaxException
| ActionIndexError
| Raised (e : exn)
| OutOfFuel.

Definition presult : Type := (list log_record * outcome)%type.

Fixpoint starts_with (p s : list ascii) : bool :=
  match p, s with
  | [], _ => true
  | a :: p', b :: s' => Ascii.eqb b a && starts_with p' s'
  | _ :: _, [] => false
  end.

Fixpoint span (p : ascii -> bool) (s : list ascii) : list ascii :=
  match s with
  | c :: s' => if p c then c :: span p s' else []
  | [] => []
  end.

(** [Keyword.DEFAULT_KEYWORD_CHARS = alphanums + "_$"] *)
Definition ident_char (c : ascii) : bool := is_alnum c || chr_in "_$" c.

(** The token list left by [Combine]: the strings of the tokens, joined. *)
Fixpoint as_string (v : pyval) : option (list ascii) :=
  match v with
  | PStr s => Some (chars s)
  | PResults l =>
      (fix all (l : list pyval) : option (list ascii) :=
         match l with
         | [] => Some []
         | x :: l' =>
             match as_string x, all l' with
             | Some a, Some b => Some (a ++ b)
             | _, _ => None
             end
         end) l
  | _ => None
  end.

(** [ParseExpression.streamline]: an [And] of two expressions absorbs an
    operand that is itself an [And] without a parse action. *)
Definition collapse {F} (l : list (pexpr F)) : list (pexpr F) :=
  match l with
  | [e1; e2] =>
      let l1 := match e1 with And l1 => l1 ++ [e2] | _ => l end in
      match last l1 with
      | Some (And l2) => removelast l1 ++ l2
      | _ => l1
      end
  | _ => l
  end.

Fixpoint streamline {F} (e : pexpr F) : pexpr F :=
  match e with
  | And l => And (collapse (map streamline l))
  | MatchFirst l => MatchFirst (map streamline l)
  | Optional e1 => Optional (streamline e1)
  | ZeroOrMore e1 => ZeroOrMore (streamline e1)
  | OneOrMore e1 => OneOrMore (streamline e1)
  | NotAny e1 => NotAny (streamline e1)
  | Group e1 => Group (streamline e1)
  | Suppress e1 => Suppress (streamline e1)
  | Combine e1 => Combine (streamline e1)
  | Tag t e1 => Tag t (streamline e1)
  | WithAction a e1 => WithAction a (streamline e1)
  | _ => e
  end.

Section Engine.

Context {F : Type}.

(** The expression a [Forward] was given with [<<=], and the parse action
    set on the [Forward] itself. *)
Variable defn : F -> pexpr F.
Variable forward_action : F -> option action.

Variable instring : list ascii.

(** [preParse]: skip the whitespace in front of a token. *)
Definition preParse (skip : bool) (loc : nat) : nat :=
  if skip then loc + length (span pyp_white (drop loc instring)) else loc.

Definition parse_Keyword (s : string) (loc : nat) : outcome :=
  let m := chars s in
  let rest := drop loc instring in
  let after := drop (length m) rest in
  let free_after :=
    match after with c :: _ => negb (ident_char c) | [] => true end in
  let free_before :=
    match loc with
    | O => true
    | S l =>
        match instring !! l with
        | Some c => negb (ident_char c)
        | None => true
        end
    end in
  if starts_with m rest && free_after && free_before
  then Matched (loc + length m) [PStr s]
  else ParseException.

Definition parse_Literal (s : string) (loc : nat) : outcome :=
  let m := chars s in
  if starts_with m (drop loc instring)
  then Matched (loc + length m) [PStr s]
  else ParseException.

Definition parse_Word (p : ascii -> bool) (loc : nat) : outcome :=
  match span p (drop loc instring) with
  | [] => ParseException
  | w => Matched (loc + length w) [PStr (str_of w)]
  end.

Definition parse_Regex (r : regex) (loc : nat) : outcome :=
  let s := drop loc instring in
  match re_prefix r s with
  | Some rest =>
      let m := matched s rest in
      Matched (loc + length m) [PStr (str_of m)]
  | None => ParseException
  end.

(** A quoted string on one line, without escapes; the quotes are removed. *)
Definition parse_QuotedString (q : ascii) (loc : nat) : outcome :=
  match drop loc instring with
  | c :: s =>
      if Ascii.eqb c q then
        let body :=
          span (fun x => negb (Ascii.eqb x q || Ascii.eqb x NL || Ascii.eqb x CR)) s in
        match drop (length body) s with
        | c' :: _ =>
            if Ascii.eqb c' q
            then Matched (loc + length body + 2) [PStr (str_of body)]
            else ParseException
        | [] => ParseException
        end
      else ParseException
  | [] => ParseException
  end.

Definition parse_StringEnd (loc : nat) : outcome :=
  if (loc <? length instring)%nat then ParseException
  else if (loc =? length instring)%nat then Matched (S loc) []
  else Matched loc [].

(** The tokens after a parse action returned [v]. *)
Definition action_tokens (tokens : list pyval) (v : pyval) : list pyval :=
  match v with
  | PNone => tokens
  | PResults l | PList l => l
  | _ => [v]
  end.

Definition run_action (a : action) (start : nat) (tokens : list pyval)
    (loc : nat) (log : list log_record) : presult :=
  let '(log', r) := a instring start tokens in
  (log ++ log',
   match r with
   | inr v => Matched loc (action_tokens tokens v)
   | inl IndexError => ActionIndexError
   | inl e => Raised e
   end).

(** What [except (ParseException, IndexError)] catches. *)
Definition caught (o : outcome) : bool :=
  match o with
  | ParseException | ActionIndexError => true
  | _ => false
  end.

(** [And.parseImpl]: the expressions in turn; behind an error stop a
    failure becomes a [ParseSyntaxException]. *)
Fixpoint and_loop (go : pexpr F -> nat -> list log_record -> presult)
    (es : list (pexpr F)) (errorStop : bool) (loc : nat)
    (acc : list pyval) (log : list log_record) : presult :=
  match es with
  | [] => (log, Matched loc acc)
  | ErrorStop :: es' => and_loop go es' true loc acc log
  | e1 :: es' =>
      match go e1 loc log with
      | (log, Matched loc' tokens) =>
          and_loop go es' errorStop loc' (acc ++ tokens) log
      | (log, o) =>
          (log, if errorStop && caught o then ParseSyntaxException else o)
      end
  end.

(** [MatchFirst.parseImpl]: the first alternative that matches. *)
Fixpoint first_loop (go : pexpr F -> nat -> list log_record -> presult)
    (es : list (pexpr F)) (loc : nat) (log : list log_record) : presult :=
  match es with
  | [] => (log, ParseException)
  | e1 :: es' =>
      match go e1 loc log with
      | (log, o) => if caught o then first_loop go es' loc log else (log, o)
      end
  end.

Definition parser : Type :=
  bool -> bool -> pexpr F -> nat -> list log_record -> presult.

(** One level of [_parse].  [skip] is false for the copies [Combine] makes
    of its contents: they do not skip whitespace and, being made before the
    parse actions are set, carry none.  [doActions] is false inside the
    lookahead of [NotAny].  [rec] parses the expression of a [Forward] and
    the further rounds of a repetition. *)
Fixpoint parse_body (rec : parser) (skip doActions : bool) (e : pexpr F)
    (loc : nat) (log : list log_record) {struct e} : presult :=
  match e with
  | Keyword s => (log, parse_Keyword s (preParse skip loc))
  | Literal s => (log, parse_Literal s (preParse skip loc))
  | Word p => (log, parse_Word p (preParse skip loc))
  | Regex r => (log, parse_Regex r (preParse skip loc))
  | QuotedString q => (log, parse_QuotedString q (preParse skip loc))
  | NoMatch => (log, ParseException)
  | StringEnd => (log, parse_StringEnd (preParse skip loc))
  | ErrorStop => (log, Matched loc [])
  | And l => and_loop (parse_body rec skip doActions) l false loc [] log
  | MatchFirst l => first_loop (parse_body rec skip doActions) l loc log
  | Optional e1 =>
      match parse_body rec skip doActions e1 loc log with
      | (log, o) => if caught o then (log, Matched loc []) else (log, o)
      end
  | ZeroOrMore e1 =>
      match parse_body rec skip doActions e1 loc log with
      | (log, Matched loc' tokens) =>
          match rec skip doActions (ZeroOrMore e1) loc' log with
          | (log, Matched loc'' tokens') =>
              (log, Matched loc'' (tokens ++ tokens'))
          | r => r
          end
      | (log, o) => if caught o then (log, Matched loc []) else (log, o)
      end
  | OneOrMore e1 =>
      match parse_body rec skip doActions e1 loc log with
      | (log, Matched loc' tokens) =>
          match rec skip doActions (ZeroOrMore e1) loc' log with
          | (log, Matched loc'' tokens') =>
              (log, Matched loc'' (tokens ++ tokens'))
          | r => r
          end
      | r => r
      end
  | NotAny e1 =>
      match parse_body rec skip false e1 loc log with
      | (log, Matched _ _) => (log, ParseException)
      | (log, o) => if caught o then (log, Matched loc []) else (log, o)
      end
  | Group e1 =>
      match parse_body rec skip doActions e1 loc log with
      | (log, Matched loc' tokens) => (log, Matched loc' [PResults tokens])
      | r => r
      end
  | Suppress e1 =>
      match parse_body rec skip doActions e1 loc log with
      | (log, Matched loc' _) => (log, Matched loc' [])
      | r => r
      end
  | Combine e1 =>
      match parse_body rec false doActions e1 (preParse skip loc) log with
      | (log, Matched loc' tokens) =>
          match as_string (PResults tokens) with
          | Some s => (log, Matched loc' [PStr (str_of s)])
          | None =>
              (log, Raised (NotModelled "Combine of a token that is not a string"))
          end
      | r => r
      end
  | Tag tag e1 =>
      match parse_body rec skip doActions e1 loc log with
      | (log, Matched loc' tokens) =>
          (log, Matched loc' [PTokens tag (asList tokens)])
      | r => r
      end
  | Forward f =>
      match rec true doActions (streamline (defn f)) loc log with
      | (log, Matched loc' tokens) =>
          match forward_action f with
          | Some a =>
              if skip && doActions
              then run_action a (preParse true loc) tokens loc' log
              else (log, Matched loc' tokens)
          | None => (log, Matched loc' tokens)
          end
      | r => r
      end
  | WithAction a e1 =>
      match parse_body rec skip doActions e1 loc log with
      | (log, Matched loc' tokens) =>
          if skip && doActions
          then run_action a (preParse skip loc) tokens loc' log
          else (log, Matched loc' tokens)
      | r => r
      end
  end.

(** [_parse], with a bound on the depth of the calls through [Forward]
    expressions and repetitions. *)
Fixpoint parse (fuel : nat) : parser :=
  match fuel with
  | O => fun _ _ _ _ log => (log, OutOfFuel)
  | S n => parse_body (parse n)
  end.

(** [expr.parseString(instring)], on the tab-expanded [instring]. *)
Definition parseString_at (fuel : nat) (expr : pexpr F) : presult :=
  parse fuel true true (streamline expr) 0 [].

End Engine.

Definition parseString {F} (defn : F -> pexpr F)
    (forward_action : F -> option action) (fuel : nat) (expr : pexpr F)
    (instring : list ascii) : presult :=
  parseString_at defn forward_action (expandtabs instring) fuel expr.

(** [a + b], [a - b], [a | b], [delimitedList] *)
Definition p_add {F} (a b : pexpr F) : pexpr F := And [a; b].
Definition p_sub {F} (a b : pexpr F) : pexpr F := And [a; ErrorStop; b].
Definition p_or {F} (a b : pexpr F) : pexpr F := MatchFirst [a; b].

Declare Scope pyp_scope.
Delimit Scope pyp_scope with pyp.
Notation "a + b" := (p_add a b) : pyp_scope.
Notation "a - b" := (p_sub a b) : pyp_scope.
Notation "a <|> b" := (p_or a b) (at level 66, left associativity) : pyp_scope.

Definition delimitedList_by {F} (expr delim : pexpr F) : pexpr F :=
  (expr + ZeroOrMore (Suppress delim + expr))%pyp.

Definition delimitedList {F} (expr : pexpr F) : pexpr F :=
  delimitedList_by expr (Literal ",").

(** ** 7. [create_grammar] *)

Module Grammar.

(** The [Forward] declarations. *)
Inductive fwd : Type :=
| value | type_ | object_ | object_set | primitive_field_name | constraint
| element_set_spec | token_or_group_spec | value_reference | type_reference
| value_set | named_type | root_element_set_spec | defined_object_set
| syntax_list | object_from_object | object_set_from_objects | defined_value
| component_type_lists | extension_and_exception | optional_extension_marker
| additional_element_set_spec | reference | defined_object_class
| defined_type | module_reference | external_type_reference
| external_value_reference | simple_defined_type | defined_object
| referenced_value | builtin_value | named_value | sequence_value
| signed_number | name_and_number_form | number_form
| definitive_number_form | version_number | union_mark | named_number
| size_constraint.

Definition expr : Type := pexpr fwd.
Definition fwd_ref (f : fwd) : pexpr fwd := Forward f.
Coercion fwd_ref : fwd >-> pexpr.

Local Open Scope pyp_scope.

(** The parse actions that [create_grammar] sets at its end are attached
    here where the expression is defined; the expression object is the same
    at every use. *)
Definition act (f : list pyval -> res pyval) (e : expr) : expr :=
  WithAction (pure_action f) e.

(* Keywords. *)
Definition SEQUENCE : expr := Keyword "SEQUENCE".
Definition CHOICE : expr := Keyword "CHOICE".
Definition ENUMERATED : expr := Keyword "ENUMERATED".
Definition DEFINITIONS : expr := Keyword "DEFINITIONS".
Definition BEGIN : expr := Keyword "BEGIN".
Definition END : expr := Keyword "END".
Definition AUTOMATIC : expr := Keyword "AUTOMATIC".
Definition TAGS : expr := Keyword "TAGS".
Definition OPTIONAL : expr := Keyword "OPTIONAL".
Definition OF : expr := Keyword "OF".
Definition SIZE : expr := Keyword "SIZE".
Definition INTEGER : expr := Keyword "INTEGER".
Definition REAL : expr := act convert_real_type (Keyword "REAL").
Definition BIT_STRING : expr := Keyword "BIT STRING".
Definition OCTET_STRING : expr :=
  act convert_octet_string_type (Keyword "OCTET STRING").
Definition DEFAULT : expr := Keyword "DEFAULT".
Definition IMPORTS : expr := Keyword "IMPORTS".
Definition EXPORTS : expr := Keyword "EXPORTS".
Definition FROM : expr := Keyword "FROM".
Definition CONTAINING : expr := Keyword "CONTAINING".
Definition ENCODED_BY : expr := Keyword "ENCODED_BY".
Definition IMPLICIT : expr := Keyword "IMPLICIT".
Definition EXPLICIT : expr := Keyword "EXPLICIT".
Definition OBJECT_IDENTIFIER : expr := Keyword "OBJECT IDENTIFIER".
Definition UNIVERSAL : expr := Keyword "UNIVERSAL".
Definition APPLICATION : expr := Keyword "APPLICATION".
Definition PRIVATE : expr := Keyword "PRIVATE".
Definition SET : expr := Keyword "SET".
Definition ANY_DEFINED_BY : expr := Keyword "ANY DEFINED BY".
Definition EXTENSIBILITY_IMPLIED : expr := Keyword "EXTENSIBILITY IMPLIED".
Definition BOOLEAN : expr := act convert_boolean_type (Keyword "BOOLEAN").
Definition TRUE : expr := Keyword "TRUE".
Definition FALSE : expr := Keyword "FALSE".
Definition CLASS : expr := Keyword "CLASS".
Definition WITH_SYNTAX : expr := Keyword "WITH SYNTAX".
Definition UNIQUE : expr := Keyword "UNIQUE".
Definition NULL : expr := act convert_null_type (Keyword "NULL").
Definition WITH_COMPONENT : expr := Keyword "WITH COMPONENT".
Definition WITH_COMPONENTS : expr := Keyword "WITH COMPONENTS".
Definition COMPONENTS_OF : expr := Keyword "COMPONENTS OF".
Definition PRESENT : expr := Keyword "PRESENT".
Definition ABSENT : expr := Keyword "ABSENT".
Definition ALL : expr := Keyword "ALL".
Definition MIN : expr := Keyword "MIN".
Definition MAX : expr := Keyword "MAX".
Definition INCLUDES : expr := Keyword "INCLUDES".
Definition PATTERN : expr := Keyword "PATTERN".
Definition CONSTRAINED_BY : expr := Keyword "CONSTRAINED BY".
Definition UNION : expr := Keyword "UNION".
Definition INTERSECTION : expr := Keyword "INTERSECTION".
Definition PLUS_INFINITY : expr := Keyword "PLUS-INFINITY".
Definition MINUS_INFINITY : expr := Keyword "MINUS-INFINITY".
Definition BMPString : expr := Keyword "BMPString".
Definition GeneralString : expr := Keyword "GeneralString".
Definition GraphicString : expr := Keyword "GraphicString".
Definition IA5String : expr := Keyword "IA5String".
Definition ISO646String : expr := Keyword "ISO646String".
Definition NumericString : expr := Keyword "NumericString".
Definition PrintableString : expr := Keyword "PrintableString".
Definition TeletexString : expr := Keyword "TeletexString".
Definition UTCTime : expr := Keyword "UTCTime".
Definition GeneralizedTime : expr := Keyword "GeneralizedTime".
Definition T61String : expr := Keyword "T61String".
Definition UniversalString : expr := Keyword "UniversalString".
Definition UTF8String : expr := Keyword "UTF8String".
Definition VideotexString : expr := Keyword "VideotexString".
Definition VisibleString : expr := Keyword "VisibleString".
Definition CHARACTER_STRING : expr := Keyword "CHARACTER STRING".

(* Various literals. *)
Definition ident_rest (c : ascii) : bool := is_alnum c || Ascii.eqb c "-".
Definition upper_rest (c : ascii) : bool :=
  is_upper c || is_digit c || Ascii.eqb c "-".
Definition hex_upper (c : ascii) : bool := is_digit c || in_range "A" "F" c.

(** [Word(printables, excludeChars=...)]: the excluded characters are
    [,(){}[].:=;|] and the double quote. *)
Definition word_char (c : ascii) : bool :=
  printable c && negb (chr_in ",(){}[].:=;|" c || Ascii.eqb c DQ).
Definition word : expr := Word word_char.
(** [r'[a-z][a-zA-Z0-9-]*'] *)
Definition lower_ident_re : regex := RSeq (RClass is_lower) (RStar ident_rest).
(** [r'[A-Z][a-zA-Z0-9-]*'] *)
Definition upper_ident_re : regex := RSeq (RClass is_upper) (RStar ident_rest).
(** [r'[A-Z][A-Z0-9-]*'] *)
Definition upper_only_re : regex := RSeq (RClass is_upper) (RStar upper_rest).
Definition identifier : expr := Regex lower_ident_re.
Definition assign : expr := Literal "::=".
Definition left_parenthesis : expr := Literal "(".
Definition right_parenthesis : expr := Literal ")".
Definition left_brace : expr := Literal "{".
Definition right_brace : expr := Literal "}".
Definition left_bracket : expr := Literal "[".
Definition right_bracket : expr := Literal "]".
Definition left_version_brackets : expr := Literal "[[".
Definition right_version_brackets : expr := Literal "]]".
Definition colon : expr := Literal ":".
Definition semi_colon : expr := Literal ";".
Definition dot : expr := Literal ".".
Definition range_separator : expr := Literal "..".
Definition ellipsis : expr := Literal "...".
Definition pipe : expr := Literal "|".
Definition caret : expr := Literal "^".
Definition comma : expr := Literal ",".
Definition at_ : expr := Literal "@".
Definition exclamation_mark : expr := Literal "!".
(** [Word(nums + '-')] *)
Definition integer : expr :=
  act convert_integer (Word (fun c => is_digit c || Ascii.eqb c "-")).
(** [r'[+-]?\d+\.?\d*([eE][+-]?\d+)?'] *)
Definition real_number_re : regex :=
  RSeq (ROpt (RClass (chr_in "+-")))
    (RSeq (RPlus is_digit)
       (RSeq (ROpt (RChar "."))
          (RSeq (RStar is_digit)
             (ROpt (RSeq (RClass (chr_in "eE"))
                      (RSeq (ROpt (RClass (chr_in "+-"))) (RPlus is_digit))))))).
Definition real_number : expr := act convert_real_number (Regex real_number_re).
(** [r"'[01\s]*'B"] *)
Definition bstring_re : regex :=
  RSeq (RChar "'")
    (RSeq (RStar (fun c => chr_in "01" c || re_space c)) (RStr "'B")).
(** [r"'[0-9A-F\s]*'H"] *)
Definition hstring_re : regex :=
  RSeq (RChar "'")
    (RSeq (RStar (fun c => hex_upper c || re_space c)) (RStr "'H")).
Definition bstring : expr := act convert_bstring (Regex bstring_re).
Definition hstring : expr := act convert_hstring (Regex hstring_re).
Definition cstring : expr := QuotedString DQ.
(** The second assignment to [number] is the one in force. *)
Definition number : expr := Word word_char.
Definition ampersand : expr := Literal "&".
Definition less_than : expr := Literal "<".

(** [r'(END|SEQUENCE|ENUMERATED)(\s|$)'] *)
Definition reserved_words_re : regex :=
  RSeq (RAlt (RStr "END") (RAlt (RStr "SEQUENCE") (RStr "ENUMERATED")))
    (RAlt (RClass re_space) REnd).
Definition reserved_words : expr := Regex reserved_words_re.

Definition value_field_reference : expr := Combine (ampersand + value_reference).
Definition type_field_reference : expr := Combine (ampersand + type_reference).

(* ToDo: Remove size_paren as they are a workaround for SEQUENCE/SET OF. *)
Definition size_paren : expr :=
  Suppress (Optional left_parenthesis)
  + size_constraint
  + Suppress (Optional right_parenthesis).

Definition class_number : expr := number <|> defined_value.
Definition tag : expr :=
  Group (Optional (Suppress left_bracket
                   - Group (Optional (UNIVERSAL <|> APPLICATION <|> PRIVATE)
                            + class_number)
                   - Suppress right_bracket
                   + Group (Optional (IMPLICIT <|> EXPLICIT)))).

Definition any_defined_by_type : expr :=
  act convert_any_defined_by_type (ANY_DEFINED_BY + word).

Definition identifier_list : expr := delimitedList identifier.

(* X.683: 8. Parameterized assignments *)
Definition dummy_reference : expr := reference.
Definition dummy_governor : expr := dummy_reference.
Definition governor : expr := type_ <|> defined_object_class.
Definition param_governor : expr := governor <|> dummy_governor.
Definition parameter : expr :=
  Optional (param_governor + colon) + dummy_reference.
Definition parameter_list : expr :=
  Suppress (Optional (left_brace + delimitedList parameter + right_brace)).

(* X.683: 9. Referencing parameterized definitions *)
Definition actual_parameter : expr :=
  Group (type_ <|> value <|> value_set <|> defined_object_class
         <|> object_ <|> object_set).
Definition actual_parameter_list : expr :=
  Group (Suppress left_brace
         + delimitedList actual_parameter
         + Suppress right_brace).
Definition parameterized_object : expr := defined_object + actual_parameter_list.
Definition parameterized_object_set : expr :=
  defined_object_set + actual_parameter_list.
Definition parameterized_object_class : expr :=
  defined_object_class + actual_parameter_list.
Definition parameterized_value_set_type : expr :=
  simple_defined_type + actual_parameter_list.
Definition simple_defined_value : expr :=
  external_value_reference <|> value_reference.
Definition parameterized_value : expr :=
  simple_defined_value + actual_parameter_list.
Definition def_simple_defined_type : expr :=
  external_type_reference <|> type_reference.
Definition parameterized_type : expr :=
  simple_defined_type + actual_parameter_list.
Definition parameterized_reference : expr :=
  reference + Optional (left_brace + right_brace).

(* X.682: 11. Contents constraints *)
Definition contents_constraint : expr :=
  (CONTAINING + type_)
  <|> (ENCODED_BY + value)
  <|> (CONTAINING + type_ + ENCODED_BY + value).

(* X.682: 10. Table constraints, including component relation constraints *)
Definition level : expr := OneOrMore dot.
Definition component_id_list : expr := identifier.
Definition at_notation : expr :=
  Suppress at_
  - (component_id_list <|> Combine (level + component_id_list)).
Definition component_relation_constraint : expr :=
  left_brace
  + Group (Group defined_object_set)
  + right_brace
  + left_brace
  - Group (delimitedList at_notation)
  - right_brace.
Definition simple_table_constraint : expr := object_set.
Definition table_constraint : expr :=
  component_relation_constraint <|> simple_table_constraint.

(* X.682: 9. User-defined constants *)
Definition user_defined_constraint_parameter : expr :=
  (governor + colon + (value <|> value_set <|> object_ <|> object_set))
  <|> type_
  <|> defined_object_class.
Definition user_defined_constraint : expr :=
  CONSTRAINED_BY
  - left_brace
  - Optional (delimitedList user_defined_constraint_parameter)
  - right_brace.

(* X.682: 8. General constraint specification *)
Definition general_constraint : expr :=
  user_defined_constraint <|> table_constraint <|> contents_constraint.

(* X.681: 7. ASN.1 lexical items *)
Definition object_set_reference : expr := type_reference.
Definition value_set_field_reference : expr := NoMatch.
Definition object_field_reference : expr := NoMatch.
Definition object_set_field_reference : expr := NoMatch.
Definition object_class_reference : expr :=
  NotAny reserved_words + Regex upper_only_re.
Definition object_reference : expr := value_reference.

(* X.681: 8. Referencing definitions *)
Definition external_object_set_reference : expr := NoMatch.
Definition def_defined_object_set : expr :=
  external_object_set_reference <|> object_set_reference.
Definition def_defined_object : expr := NoMatch.
Definition def_defined_object_class : expr := object_class_reference.

(* X.681: 9. Information object class definition and assignment *)
Definition field_name : expr := primitive_field_name.
Definition def_primitive_field_name : expr :=
  type_field_reference
  <|> value_field_reference
  <|> value_set_field_reference
  <|> object_field_reference
  <|> object_set_field_reference.
Definition object_set_field_spec : expr := NoMatch.
Definition object_field_spec : expr := NoMatch.
Definition variable_type_value_set_field_spec : expr := NoMatch.
Definition fixed_type_value_set_field_spec : expr := NoMatch.
Definition variable_type_value_field_spec : expr := NoMatch.
Definition fixed_type_value_field_spec : expr :=
  value_field_reference
  + type_
  + Optional UNIQUE
  + Optional (OPTIONAL <|> (DEFAULT - value)).
Definition type_field_spec : expr :=
  type_field_reference + Optional (OPTIONAL <|> (DEFAULT - type_)).
Definition field_spec : expr :=
  Group (type_field_spec
         <|> fixed_type_value_field_spec
         <|> variable_type_value_field_spec
         <|> fixed_type_value_set_field_spec
         <|> variable_type_value_set_field_spec
         <|> object_field_spec
         <|> object_set_field_spec).
Definition with_syntax_spec : expr := WITH_SYNTAX - syntax_list.
Definition object_class_defn : expr :=
  CLASS
  - Suppress left_brace
  - Group (delimitedList field_spec)
  - Suppress right_brace
  - Optional with_syntax_spec.
Definition object_class : expr :=
  object_class_defn <|> parameterized_object_class.
Definition parameterized_object_class_assignment : expr :=
  act convert_parameterized_object_class_assignment
    (object_class_reference + parameter_list + assign + object_class).

(* X.681: 10. Syntax list *)
Definition literal : expr := word <|> comma.
Definition required_token : expr := literal <|> primitive_field_name.
Definition optional_group : expr :=
  left_bracket + OneOrMore token_or_group_spec + right_bracket.
Definition def_token_or_group_spec : expr := required_token <|> optional_group.
Definition def_syntax_list : expr :=
  left_brace + OneOrMore token_or_group_spec + right_brace.

(* X.681: 11. Information object definition and assignment *)
Definition setting : expr :=
  type_ <|> value <|> value_set <|> object_ <|> object_set
  <|> QuotedString DQ.
Definition field_setting : expr := Group (primitive_field_name + setting).
Definition default_syntax : expr :=
  Suppress left_brace + delimitedList field_setting + Suppress right_brace.
Definition defined_syntax : expr := NoMatch.
Definition object_defn : expr := Group (default_syntax <|> defined_syntax).
Definition def_object_ : expr :=
  defined_object <|> object_defn <|> object_from_object
  <|> parameterized_object.
Definition parameterized_object_assignment : expr :=
  act convert_parameterized_object_assignment
    (object_reference
     + parameter_list
     + defined_object_class
     + Suppress assign
     + object_).

(* X.681: 12. Information object set definition and assignment *)
Definition object_set_elements : expr :=
  object_ <|> defined_object_set <|> object_set_from_objects
  <|> parameterized_object_set.
Definition object_set_spec : expr :=
  (root_element_set_spec
   + Optional (comma + ellipsis
               + Optional (comma + additional_element_set_spec)))
  <|> (ellipsis + Optional (comma + additional_element_set_spec)).
Definition def_object_set : expr :=
  left_brace + Group object_set_spec + right_brace.
Definition parameterized_object_set_assignment : expr :=
  act convert_parameterized_object_set_assignment
    (object_set_reference
     + parameter_list
     + defined_object_class
     - assign
     - object_set).

(* X.681: 14. Notation for the object class field type *)
Definition fixed_type_field_val : expr := builtin_value <|> referenced_value.
Definition open_type_field_val : expr := type_ + colon + value.
Definition object_class_field_value : expr :=
  open_type_field_val <|> fixed_type_field_val.
Definition object_class_field_type : expr :=
  act convert_keyword_type (Combine (defined_object_class + dot + field_name)).

(* X.681: 15. Information from objects *)
Definition def_object_set_from_objects : expr := NoMatch.
Definition def_object_from_object : expr := NoMatch.

(* X.680: 49. The exception identifier *)
Definition exception_spec : expr := Optional (exclamation_mark + NoMatch).

(* X.680: 47. Subtype elements *)
Definition pattern_constraint : expr := PATTERN + value.
Definition value_constraint : expr := constraint.
Definition presence_constraint : expr := PRESENT <|> ABSENT <|> OPTIONAL.
Definition component_constraint : expr :=
  Optional value_constraint + Optional presence_constraint.
Definition named_constraint : expr := Group (identifier + component_constraint).
Definition type_constraints : expr := delimitedList named_constraint.
Definition full_specification : expr :=
  left_brace + Group type_constraints + right_brace.
Definition partial_specification : expr :=
  left_brace
  + Group (ellipsis + Suppress comma + type_constraints)
  + right_brace.
Definition single_type_constraint : expr := constraint.
Definition multiple_type_constraints : expr :=
  full_specification <|> partial_specification.
Definition inner_type_constraints : expr :=
  act convert_inner_type_constraints
    ((WITH_COMPONENT - single_type_constraint)
     <|> (WITH_COMPONENTS - multiple_type_constraints)).
Definition permitted_alphabet : expr :=
  act convert_permitted_alphabet (FROM - constraint).
Definition type_constraint : expr := type_.
Definition def_size_constraint : expr := SIZE - Group constraint.
Definition upper_end_value : expr := value <|> MAX.
Definition lower_end_value : expr := value <|> MIN.
Definition upper_endpoint : expr := Optional less_than + upper_end_value.
Definition lower_endpoint : expr := lower_end_value + Optional less_than.
Definition value_range : expr :=
  act convert_value_range
    (((Combine (integer + dot) + Suppress range_separator)
      <|> (integer + Suppress range_separator)
      <|> (lower_endpoint + Suppress range_separator))
     - upper_endpoint).
Definition contained_subtype : expr := Optional INCLUDES + type_.
Definition single_value : expr := value.
Definition subtype_elements : expr :=
  size_constraint
  <|> permitted_alphabet
  <|> value_range
  <|> inner_type_constraints
  <|> single_value
  <|> pattern_constraint
  <|> contained_subtype
  <|> type_constraint.

(* X.680: 46. Element set specification *)
Definition def_union_mark : expr := pipe <|> UNION.
Definition intersection_mark : expr := caret <|> INTERSECTION.
Definition elements : expr :=
  Group (subtype_elements
         <|> object_set_elements
         <|> (left_parenthesis + element_set_spec + right_parenthesis)).
Definition unions : expr :=
  delimitedList_by elements (union_mark <|> intersection_mark).
Definition def_element_set_spec : expr := unions.
Definition def_root_element_set_spec : expr := element_set_spec.
Definition def_additional_element_set_spec : expr := element_set_spec.
Definition element_set_specs : expr :=
  root_element_set_spec
  + Optional (Suppress comma - ellipsis
              + Optional (Suppress comma - additional_element_set_spec)).

(* X.680: 45. Constrained types *)
Definition subtype_constraint : expr := element_set_specs.
Definition constraint_spec : expr := general_constraint <|> subtype_constraint.
Definition def_constraint : expr :=
  Suppress left_parenthesis - constraint_spec - Suppress right_parenthesis.

(* X.680: 40. Definition of unrestricted character string types *)
Definition unrestricted_character_string_type : expr := CHARACTER_STRING.
Definition unrestricted_character_string_value : expr := NoMatch.

(* X.680: 37. Definition of restricted character string types *)
Definition group : expr := number.
Definition plane : expr := number.
Definition row : expr := number.
Definition cell : expr := number.
Definition quadruple : expr :=
  left_brace
  + group + comma
  + plane + comma
  + row + comma
  + cell
  + right_brace.
Definition table_column : expr := number.
Definition table_row : expr := number.
Definition tuple_ : expr :=
  left_brace + table_column + comma + table_row + right_brace.
Definition chars_defn : expr := cstring <|> quadruple <|> tuple_ <|> defined_value.
Definition charsyms : expr := delimitedList chars_defn.
Definition character_string_list : expr := left_brace + charsyms + right_brace.
Definition restricted_character_string_value : expr :=
  cstring <|> character_string_list <|> quadruple <|> tuple_.
Definition restricted_character_string_type : expr :=
  BMPString
  <|> GeneralString
  <|> GraphicString
  <|> IA5String
  <|> ISO646String
  <|> NumericString
  <|> PrintableString
  <|> TeletexString
  <|> UTCTime
  <|> GeneralizedTime
  <|> T61String
  <|> UniversalString
  <|> UTF8String
  <|> VideotexString
  <|> VisibleString.

(* X.680: 36. Notation for character string types *)
Definition character_string_value : expr :=
  restricted_character_string_value <|> unrestricted_character_string_value.
Definition character_string_type : expr :=
  act convert_keyword_type
    (restricted_character_string_type <|> unrestricted_character_string_type).

(* X.680: 32. Notation for relative object identifier type *)
Definition relative_oid_components : expr :=
  Group (number_form <|> name_and_number_form <|> defined_value).
Definition relative_oid_component_list : expr :=
  OneOrMore relative_oid_components.
Definition relative_oid_value : expr :=
  Suppress left_brace + relative_oid_component_list + Suppress right_brace.

(* X.680: 31. Notation for object identifier type *)
Definition def_name_and_number_form : expr :=
  identifier
  + Suppress left_parenthesis
  - number_form
  - Suppress right_parenthesis.
Definition def_number_form : expr := number <|> defined_value.
Definition name_form : expr := identifier.
Definition obj_id_components : expr :=
  Group (name_and_number_form <|> defined_value <|> number_form <|> name_form).
Definition obj_id_components_list : expr := OneOrMore obj_id_components.
Definition object_identifier_value : expr :=
  (Suppress left_brace + obj_id_components_list + Suppress right_brace)
  <|> (Suppress left_brace
       + defined_value
       + obj_id_components_list
       + Suppress right_brace).
Definition object_identifier_type : expr :=
  act convert_object_identifier_type
    (OBJECT_IDENTIFIER
     + Optional (left_parenthesis
                 + delimitedList_by word (Literal "|")
                 + right_parenthesis)).

(* X.680: 30. Notation for tagged types *)
Definition tagged_value : expr := NoMatch.

(* X.680: 28. Notation for the choice types *)
Definition alternative_type_list : expr := delimitedList named_type.
Definition extension_addition_alternatives_group : expr :=
  Group (left_version_brackets
         + Suppress version_number
         - Group alternative_type_list
         - right_version_brackets).
Definition extension_addition_alternative : expr :=
  extension_addition_alternatives_group <|> named_type.
Definition extension_addition_alternatives_list : expr :=
  delimitedList extension_addition_alternative.
Definition extension_addition_alternatives : expr :=
  Optional (Suppress comma + extension_addition_alternatives_list).
Definition root_alternative_type_list : expr := alternative_type_list.
Definition alternative_type_lists : expr :=
  root_alternative_type_list
  + Optional (Suppress comma
              + extension_and_exception
              + extension_addition_alternatives
              + optional_extension_marker).
Definition choice_type : expr :=
  act convert_choice_type
    (CHOICE - left_brace + Group alternative_type_lists - right_brace).
Definition choice_value : expr := identifier + colon + value.

(* X.680: 27. Notation for the set-of types *)
Definition set_of_type : expr :=
  act convert_set_of_type
    (SET
     + Group (Optional size_paren)
     + OF
     + Optional (Suppress identifier)
     - tag
     - type_).

(* X.680: 26. Notation for the set types *)
Definition set_type : expr :=
  act convert_set_type
    (SET
     + left_brace
     + Group (Optional (component_type_lists
                        <|> (extension_and_exception
                             + optional_extension_marker)))
     - right_brace).

(* X.680: 25. Notation for the sequence-of types *)
Definition sequence_of_value : expr := NoMatch.
Definition sequence_of_type : expr :=
  act convert_sequence_of_type
    (SEQUENCE
     + Group (Optional size_paren)
     + OF
     + Optional (Suppress identifier)
     - tag
     - type_).

(* X.680: 24. Notation for the sequence types *)
Definition component_value_list : expr := delimitedList named_value.
Definition def_sequence_value : expr :=
  left_brace + Optional component_value_list + right_brace.
Definition component_type : expr :=
  Group (named_type + Group (Optional (OPTIONAL <|> (DEFAULT + value)))
         <|> (COMPONENTS_OF - type_)).
Definition def_version_number : expr := Optional (number + Suppress colon).
Definition extension_addition_group : expr :=
  Group (left_version_brackets
         + Suppress version_number
         + Group (delimitedList component_type)
         + right_version_brackets).
Definition def_extension_and_exception : expr :=
  ellipsis + Optional exception_spec.
Definition extension_addition : expr :=
  component_type <|> extension_addition_group.
Definition extension_addition_list : expr := delimitedList extension_addition.
Definition extension_additions : expr :=
  Optional (Suppress comma + extension_addition_list).
Definition extension_end_marker : expr := Suppress comma + ellipsis.
Definition def_optional_extension_marker : expr :=
  Optional (Suppress comma + ellipsis).
Definition component_type_list : expr := delimitedList component_type.
Definition root_component_type_list : expr := component_type_list.
Definition def_component_type_lists : expr :=
  (root_component_type_list
   + Optional (Suppress comma
               + extension_and_exception
               + extension_additions
               + ((extension_end_marker
                   + Suppress comma
                   + root_component_type_list)
                  <|> optional_extension_marker)))
  <|> (extension_and_exception
       + extension_additions
       + ((extension_end_marker
           + Suppress comma
           + root_component_type_list)
          <|> optional_extension_marker)).
Definition sequence_type : expr :=
  act convert_sequence_type
    (SEQUENCE
     - left_brace
     + Group (Optional (component_type_lists
                        <|> (extension_and_exception
                             + optional_extension_marker)))
     - right_brace).

(* X.680: 23. Notation for the null type *)
Definition null_value : expr := NULL.
Definition null_type : expr := NULL.

(* X.680: 22. Notation for the octetstring type *)
Definition octet_string_type : expr := OCTET_STRING.

(* X.680: 21. Notation for the bitstring type *)
Definition bit_string_type : expr :=
  act convert_bit_string_type
    (BIT_STRING
     + Group (Optional
                (Suppress left_brace
                 + delimitedList (Group (word
                                         + Suppress left_parenthesis
                                         + word
                                         + Suppress right_parenthesis))
                 + Suppress right_brace))).
Definition bit_string_value : expr :=
  Tag "BitStringValue"
    (bstring
     <|> hstring
     <|> Tag "IdentifierList"
           (Suppress left_brace
            + Optional identifier_list
            + Suppress right_brace)
     <|> (CONTAINING - value)).

(* X.680: 20. Notation for the real type *)
Definition special_real_value : expr := PLUS_INFINITY <|> MINUS_INFINITY.
Definition numeric_real_value : expr := real_number <|> sequence_value.
Definition real_value : expr := numeric_real_value <|> special_real_value.
Definition real_type : expr := REAL.

(* X.680: 19. Notation for the enumerated type *)
Definition enumerated_value : expr := identifier.
Definition enumeration_item : expr := Group named_number <|> identifier.
Definition enumeration : expr := delimitedList enumeration_item.
Definition root_enumeration : expr := enumeration.
Definition additional_enumeration : expr := enumeration.
Definition enumerations : expr :=
  Group (Group root_enumeration
         + Group (Optional (Group (Suppress (comma
                                             - ellipsis
                                             + exception_spec))
                            + Optional (Suppress comma
                                        - additional_enumeration)))).
Definition enumerated_type : expr :=
  WithAction (fun s l tokens => ([], convert_enumerated_type s l tokens))
    (ENUMERATED - left_brace + enumerations - right_brace).

(* X.680: 18. Notation for the integer type *)
Definition integer_value : expr := signed_number <|> identifier.
Definition def_signed_number : expr := Combine (Optional (Literal "-") + number).
Definition def_named_number : expr :=
  identifier
  + left_parenthesis
  + (signed_number <|> defined_value)
  + right_parenthesis.
Definition named_number_list : expr := delimitedList named_number.
Definition integer_type : expr :=
  act convert_integer_type
    (INTEGER + Group (Optional (left_brace + named_number_list + right_brace))).

(* X.680: 17. Notation for boolean type *)
Definition boolean_type : expr := BOOLEAN.
Definition boolean_value : expr := TRUE <|> FALSE.

(* X.680: 16. Definition of types and values *)
Definition def_named_value : expr := identifier + value.
Definition def_referenced_value : expr := NoMatch.
Definition def_builtin_value : expr :=
  bit_string_value
  <|> boolean_value
  <|> character_string_value
  <|> choice_value
  <|> relative_oid_value
  <|> sequence_value
  <|> enumerated_value
  <|> real_value
  <|> integer_value
  <|> null_value
  <|> object_identifier_value
  <|> sequence_of_value
  <|> tagged_value.
Definition def_value : expr := Group object_class_field_value.
Definition def_named_type : expr := Group (identifier - tag - type_).
Definition referenced_type : expr := defined_type.
Definition builtin_type : expr :=
  choice_type
  <|> integer_type
  <|> null_type
  <|> real_type
  <|> bit_string_type
  <|> octet_string_type
  <|> enumerated_type
  <|> sequence_of_type
  <|> sequence_type
  <|> object_class_field_type
  <|> set_of_type
  <|> set_type
  <|> object_identifier_type
  <|> boolean_type
  <|> character_string_type.
Definition def_type_ : expr :=
  Group ((builtin_type <|> any_defined_by_type <|> referenced_type)
         + Group (ZeroOrMore constraint)).

(* X.680: 15. Assigning types and values *)
Definition def_type_reference : expr :=
  NotAny reserved_words + Regex upper_ident_re.
Definition def_value_reference : expr := Regex lower_ident_re.
Definition def_value_set : expr := NoMatch.
Definition parameterized_type_assignment : expr :=
  act convert_parameterized_type_assignment
    (type_reference
     + parameter_list
     - assign
     - tag
     - type_).
Definition parameterized_value_assignment : expr :=
  act convert_parameterized_value_assignment
    (value_reference
     + parameter_list
     - Group type_
     - Suppress assign
     - value).

(* X.680: 13. Referencing type and value definitions *)
Definition def_external_value_reference : expr :=
  module_reference + dot + value_reference.
Definition def_external_type_reference : expr :=
  module_reference + dot + type_reference.
Definition def_defined_type : expr :=
  external_type_reference
  <|> parameterized_type
  <|> parameterized_value_set_type
  <|> type_reference.
Definition def_defined_value : expr :=
  external_value_reference
  <|> parameterized_value
  <|> value_reference.

(* X.680: 12. Module definition *)
Definition def_module_reference : expr :=
  NotAny reserved_words + Regex upper_ident_re.
Definition assigned_identifier : expr :=
  Suppress (Optional (object_identifier_value
                      <|> (defined_value + NotAny (comma <|> FROM)))).
Definition global_module_reference : expr :=
  module_reference + assigned_identifier.
Definition def_reference : expr :=
  type_reference
  <|> value_reference
  <|> object_class_reference
  <|> object_reference
  <|> object_set_reference.
Definition symbol : expr := parameterized_reference <|> reference.
Definition symbol_list : expr := Group (delimitedList symbol).
Definition symbols_from_module : expr :=
  symbol_list + FROM + global_module_reference.
Definition symbols_imported : expr := OneOrMore (Group symbols_from_module).
Definition imports : expr :=
  WithAction (fun _ _ tokens => convert_imports tokens)
    (Optional (Suppress IMPORTS
               - symbols_imported
               - Suppress semi_colon)).
Definition symbols_exported : expr := OneOrMore symbol_list.
Definition exports : expr :=
  Suppress (Optional (EXPORTS - (ALL <|> symbols_exported) + semi_colon)).
Definition assignment : expr :=
  parameterized_object_set_assignment
  <|> parameterized_object_assignment
  <|> parameterized_object_class_assignment
  <|> parameterized_type_assignment
  <|> parameterized_value_assignment.
Definition assignment_list : expr :=
  WithAction (fun _ _ tokens => convert_assignment_list tokens)
    (ZeroOrMore assignment).
Definition module_body : expr :=
  act convert_module_body (exports + imports + assignment_list).
Definition definitive_name_and_number_form : expr :=
  identifier
  + Suppress left_parenthesis
  - definitive_number_form
  - Suppress right_parenthesis.
Definition def_definitive_number_form : expr := number.
Definition definitive_obj_id_component : expr :=
  Group (definitive_name_and_number_form
         <|> name_form
         <|> definitive_number_form).
Definition definitive_obj_id_components_list : expr :=
  OneOrMore definitive_obj_id_component.
Definition definitive_identifier : expr :=
  Group (Optional (Suppress left_brace
                   - definitive_obj_id_components_list
                   - Suppress right_brace)).
Definition module_identifier : expr := module_reference + definitive_identifier.
Definition tag_default : expr :=
  Group (Optional ((AUTOMATIC <|> EXPLICIT <|> IMPLICIT) + TAGS)).
Definition extension_default : expr := Group (Optional EXTENSIBILITY_IMPLIED).
Definition module_definition : expr :=
  act convert_module_definition
    (Group (module_identifier
            - Suppress DEFINITIONS
            + tag_default
            + extension_default
            - Suppress assign
            - Suppress BEGIN)
     + Group module_body
     - Suppress END).

(* The whole specification. *)
Definition specification : expr :=
  act convert_specification (OneOrMore module_definition + StringEnd).

(** The expression each [Forward] was given with [<<=]. *)
Definition defn (f : fwd) : expr :=
  match f with
  | value => def_value
  | type_ => def_type_
  | object_ => def_object_
  | object_set => def_object_set
  | primitive_field_name => def_primitive_field_name
  | constraint => def_constraint
  | element_set_spec => def_element_set_spec
  | token_or_group_spec => def_token_or_group_spec
  | value_reference => def_value_reference
  | type_reference => def_type_reference
  | value_set => def_value_set
  | named_type => def_named_type
  | root_element_set_spec => def_root_element_set_spec
  | defined_object_set => def_defined_object_set
  | syntax_list => def_syntax_list
  | object_from_object => def_object_from_object
  | object_set_from_objects => def_object_set_from_objects
  | defined_value => def_defined_value
  | component_type_lists => def_component_type_lists
  | extension_and_exception => def_extension_and_exception
  | optional_extension_marker => def_optional_extension_marker
  | additional_element_set_spec => def_additional_element_set_spec
  | reference => def_reference
  | defined_object_class => def_defined_object_class
  | defined_type => def_defined_type
  | module_reference => def_module_reference
  | external_type_reference => def_external_type_reference
  | external_value_reference => def_external_value_reference
  | simple_defined_type => def_simple_defined_type
  | defined_object => def_defined_object
  | referenced_value => def_referenced_value
  | builtin_value => def_builtin_value
  | named_value => def_named_value
  | sequence_value => def_sequence_value
  | signed_number => def_signed_number
  | name_and_number_form => def_name_and_number_form
  | number_form => def_number_form
  | definitive_number_form => def_definitive_number_form
  | version_number => def_version_number
  | union_mark => def_union_mark
  | named_number => def_named_number
  | size_constraint => def_size_constraint
  end.

(** The parse actions set on [Forward] objects. *)
Definition forward_action (f : fwd) : option action :=
  match f with
  | signed_number => Some (pure_action convert_integer)
  | size_constraint => Some (pure_action convert_size_constraint)
  | constraint => Some (pure_action convert_constraint)
  | defined_type => Some (pure_action convert_defined_type)
  | _ => None
  end.

(** [create_grammar()] returns [specification]. *)
Definition create_grammar : expr := specification.

(** [grammar.parseString(string)] *)
Definition parse (fuel : nat) (e : expr) (string : list ascii) : presult :=
  parseString defn forward_action fuel e string.

End Grammar.

(** ** 8. The textparser combinators

    [import textparser as tp]: tokens, the tokenizer of [tp.Parser] and the
    patterns the grammar of [Asn1Parser] is built from. *)

Module tp.

(** [Token(kind, value, offset)] *)
Record Token : Type := mkToken {
  kind : string;
  value : pyval;
  offset : nat
}.

(** A token specification: [(name, regex)] or [(name, kind, regex)]. *)
Record token_spec : Type := mkSpec {
  spec_name : string;
  spec_kind : option string;
  spec_re : regex
}.

Definition spec2 (name : string) (re : regex) : token_spec :=
  mkSpec name None re.
Definition spec3 (name kind : string) (re : regex) : token_spec :=
  mkSpec name (Some kind) re.

(** What [tokenize] and [Grammar.parse] raise. *)
Inductive tp_error : Type :=
| TokenizeError (off : nat)
| GrammarError
| TpNotModelled (what : string)
| TpOutOfFuel.

(** The alternation of the named groups: the first specification whose
    pattern matches at the current position. *)
Fixpoint first_spec (specs : list token_spec) (s : list ascii)
    : option (token_spec * list ascii) :=
  match specs with
  | [] => None
  | sp :: specs' =>
      match re_prefix (spec_re sp) s with
      | Some rest => Some (sp, rest)
      | None => first_spec specs' s
      end
  end.

Definition names (specs : list token_spec) (k : string) : string :=
  match
    find (fun sp => String.eqb (spec_name sp) k
                      && match spec_kind sp with Some _ => true | None => false end)
      specs
  with
  | Some sp => default k (spec_kind sp)
  | None => k
  end.

(** The loop of [Parser.tokenize] over [re.finditer]. *)
Fixpoint tokenize_loop (fuel : nat) (specs : list token_spec)
    (keywords : list string) (s : list ascii) (off : nat)
    : tp_error + list Token :=
  match s with
  | [] => inr []
  | _ :: _ =>
      match fuel with
      | O => inl TpOutOfFuel
      | S n =>
          match first_spec specs s with
          | None => inl (TpNotModelled "a position no token pattern matches")
          | Some (sp, rest) =>
              let text := matched s rest in
              let off' := off + length text in
              match text with
              | [] => inl (TpNotModelled "an empty token")
              | _ :: _ =>
                  if String.eqb (spec_name sp) "SKIP" then
                    tokenize_loop n specs keywords rest off'
                  else if negb (String.eqb (spec_name sp) "MISMATCH") then
                    let v := str_of text in
                    let k := if existsb (String.eqb v) keywords
                             then v else spec_name sp in
                    match tokenize_loop n specs keywords rest off' with
                    | inr ts => inr (mkToken (names specs k) (PStr v) off :: ts)
                    | inl e => inl e
                    end
                  else inl (TokenizeError off)
              end
          end
      end
  end.

Definition tokenize (specs : list token_spec) (keywords : list string)
    (text : list ascii) : tp_error + list Token :=
  tokenize_loop (length text) specs keywords text 0.

(** The patterns.  [String_] is a token kind given as a string. *)
Inductive pattern (F : Type) : Type :=
| String_ (kind : string)
| Sequence (patterns : list (pattern F))
| Choice (patterns : list (pattern F))
| Optional (p : pattern F)
| ZeroOrMore (p : pattern F)
| OneOrMore (p : pattern F)
| DelimitedList_ (p delim : pattern F)
| NoMatch
| Not (p : pattern F)
| Tag (name : string) (p : pattern F)
| Forward (f : F).

Arguments String_ {F} kind.
Arguments Sequence {F} patterns.
Arguments Choice {F} patterns.
Arguments Optional {F} p.
Arguments ZeroOrMore {F} p.
Arguments OneOrMore {F} p.
Arguments DelimitedList_ {F} p delim.
Arguments NoMatch {F}.
Arguments Not {F} p.
Arguments Tag {F} name p.
Arguments Forward {F} f.

(** [choice(...)] returns a [ChoiceDict] when every pattern starts with a
    token kind of its own and a [Choice] otherwise; both give the match of
    the first pattern that matches. *)
Definition choice {F} (patterns : list (pattern F)) : pattern F :=
  Choice patterns.

Definition DelimitedList {F} (p : pattern F) : pattern F :=
  DelimitedList_ p (String_ ",").

(** The parse tree with [token_tree=True]: a token, a list, or the pair a
    [Tag] makes. *)
Inductive tree : Type :=
| Tok (t : Token)
| List_ (l : list tree)
| Pair (name : string) (mo : tree).

Inductive match_result : Type :=
| Match (mo : tree)
| MISMATCH
| MatchIndexError
| MatchOutOfFuel.

Section Engine.

Context {F : Type}.
Variable defn : F -> pattern F.
Variable tokens : list Token.

Definition matcher : Type := pattern F -> nat -> nat * match_result.

(** [Sequence.match] *)
Fixpoint sequence_loop (go : matcher) (ps : list (pattern F)) (pos : nat)
    (matched : list tree) : nat * match_result :=
  match ps with
  | [] => (pos, Match (List_ matched))
  | p :: ps' =>
      match go p pos with
      | (pos', Match mo) => sequence_loop go ps' pos' (matched ++ [mo])
      | r => r
      end
  end.

(** [Choice.match]: every pattern is tried from the saved position. *)
Fixpoint choice_loop (go : matcher) (ps : list (pattern F)) (saved : nat)
    : nat * match_result :=
  match ps with
  | [] => (saved, MISMATCH)
  | p :: ps' =>
      match go p saved with
      | (_, MISMATCH) => choice_loop go ps' saved
      | r => r
      end
  end.

Definition list_of (mo : tree) : list tree :=
  match mo with
  | List_ l => l
  | _ => [mo]
  end.

Fixpoint match_body (rec : matcher) (p : pattern F) (pos : nat)
    {struct p} : nat * match_result :=
  match p with
  | String_ k =>
      match tokens !! pos with
      | Some t =>
          if String.eqb k (kind t) then (S pos, Match (Tok t))
          else (pos, MISMATCH)
      | None => (pos, MatchIndexError)
      end
  | Sequence ps => sequence_loop (match_body rec) ps pos []
  | Choice ps => choice_loop (match_body rec) ps pos
  | Optional p1 =>
      match match_body rec p1 pos with
      | (_, MISMATCH) => (pos, Match (List_ []))
      | (pos', Match mo) => (pos', Match (List_ [mo]))
      | r => r
      end
  | ZeroOrMore p1 =>
      match match_body rec p1 pos with
      | (_, MISMATCH) => (pos, Match (List_ []))
      | (pos', Match mo) =>
          match rec (ZeroOrMore p1) pos' with
          | (pos'', Match rest) => (pos'', Match (List_ (mo :: list_of rest)))
          | r => r
          end
      | r => r
      end
  | OneOrMore p1 =>
      match match_body rec p1 pos with
      | (_, MISMATCH) => (pos, MISMATCH)
      | (pos', Match mo) =>
          match rec (ZeroOrMore p1) pos' with
          | (pos'', Match rest) => (pos'', Match (List_ (mo :: list_of rest)))
          | r => r
          end
      | r => r
      end
  | DelimitedList_ p1 delim =>
      match match_body rec p1 pos with
      | (pos', Match mo) =>
          match match_body rec delim pos' with
          | (pos'', Match _) =>
              match rec (DelimitedList_ p1 delim) pos'' with
              | (pos3, Match rest) => (pos3, Match (List_ (mo :: list_of rest)))
              | (_, MISMATCH) => (pos', Match (List_ [mo]))
              | r => r
              end
          | (_, MISMATCH) => (pos', Match (List_ [mo]))
          | r => r
          end
      | r => r
      end
  | NoMatch => (pos, MISMATCH)
  | Not p1 =>
      match match_body rec p1 pos with
      | (_, MISMATCH) => (pos, Match (List_ []))
      | (_, Match _) => (pos, MISMATCH)
      | r => r
      end
  | Tag name p1 =>
      match match_body rec p1 pos with
      | (pos', Match mo) => (pos', Match (Pair name mo))
      | r => r
      end
  | Forward f => rec (defn f) pos
  end.

Fixpoint match_ (fuel : nat) : matcher :=
  match fuel with
  | O => fun _ pos => (pos, MatchOutOfFuel)
  | S n => match_body (match_ n)
  end.

(** [Grammar(root).parse(tokens, token_tree=True)].  When the root matched
    and stopped in front of the end-of-input token the tree is returned;
    when the root did not match, [GrammarError] is raised.  When the root
    matched but stopped earlier, the outcome depends on the farthest token
    reached by an abandoned alternative, which is not modelled. *)
Definition Grammar_parse (fuel : nat) (root : pattern F) : tp_error + tree :=
  match match_ fuel root 0 with
  | (pos, Match parsed) =>
      match tokens !! pos with
      | Some t =>
          if String.eqb (kind t) "__EOF__" then inr parsed
          else inl (TpNotModelled "a match that stops before the end of input")
      | None => inl (TpNotModelled "a match that stops before the end of input")
      end
  | (_, MISMATCH) => inl GrammarError
  | (_, MatchIndexError) => inl (TpNotModelled "a match beyond the last token")
  | (_, MatchOutOfFuel) => inl TpOutOfFuel
  end.

End Engine.

(** [Parser.parse(text, token_tree=True)]: [TokenizeError] and
    [GrammarError] both become [textparser.ParseError]. *)
Definition parse {F} (specs : list token_spec) (keywords : list string)
    (defn : F -> pattern F) (grammar : pattern F) (fuel : nat)
    (text : list ascii) : tp_error + tree :=
  match tokenize specs keywords text with
  | inl e => inl e
  | inr tokens =>
      let tokens := tokens ++ [mkToken "__EOF__" PNone (length text)] in
      Grammar_parse defn tokens fuel grammar
  end.

End tp.

(** ** 9. [class Asn1Parser(tp.Parser)] *)

Module Asn1Parser.

Import tp.

Definition keywords : list string :=
  ["ABSENT"; "ENCODED"; "INTEGER"; "RELATIVE-OID"; "ABSTRACT-SYNTAX"; "END";
   "INTERSECTION"; "SEQUENCE"; "ALL"; "ENUMERATED"; "ISO646String"; "SET";
   "APPLICATION"; "EXCEPT"; "MAX"; "SIZE"; "AUTOMATIC"; "EXPLICIT"; "MIN";
   "STRING"; "BEGIN"; "EXPORTS"; "MINUS-INFINITY"; "SYNTAX"; "BIT";
   "EXTENSIBILITY"; "NULL"; "T61String"; "BMPString"; "EXTERNAL";
   "NumericString"; "TAGS"; "BOOLEAN"; "FALSE"; "OBJECT"; "TeletexString";
   "BY"; "FROM"; "ObjectDescriptor"; "TRUE"; "CHARACTER"; "GeneralizedTime";
   "OCTET"; "TYPE-IDENTIFIER"; "CHOICE"; "GeneralString"; "OF"; "UNION";
   "CLASS"; "GraphicString"; "OPTIONAL"; "UNIQUE"; "COMPONENT"; "IA5String";
   "PATTERN"; "UNIVERSAL"; "COMPONENTS"; "IDENTIFIER"; "PDV";
   "UniversalString"; "CONSTRAINED"; "IMPLICIT"; "PLUS-INFINITY"; "UTCTime";
   "CONTAINING"; "IMPLIED"; "PRESENT"; "UTF8String"; "DEFAULT"; "IMPORTS";
   "PrintableString"; "VideotexString"; "DEFINITIONS"; "INCLUDES"; "PRIVATE";
   "VisibleString"; "EMBEDDED"; "INSTANCE"; "REAL"; "WITH"; "ANY"; "DEFINED"].

Definition skip_white (c : ascii) : bool := chr_in " " c || Ascii.eqb c CR
  || Ascii.eqb c NL || Ascii.eqb c TAB.
Definition not_quote (c : ascii) : bool := negb (Ascii.eqb c DQ).

Definition token_specs : list token_spec :=
  [ (* r'[ \r\n\t]+|--([\s\S]*?(--|\n))' *)
    spec2 "SKIP" (RAlt (RPlus skip_white) comment_re);
    (* r'-?\d+' *)
    spec2 "NUMBER" (RSeq (ROpt (RChar "-")) (RPlus is_digit));
    spec3 "LVBRACK" "[[" (RStr "[[");
    spec3 "RVBRACK" "]]" (RStr "]]");
    spec3 "LBRACE" "{" (RStr "{");
    spec3 "RBRACE" "}" (RStr "}");
    spec3 "LT" "<" (RStr "<");
    spec3 "GT" ">" (RStr ">");
    spec3 "COMMA" "," (RStr ",");
    spec3 "DOTX3" "..." (RStr "...");
    spec3 "DOTX2" ".." (RStr "..");
    spec3 "DOT" "." (RStr ".");
    spec3 "LPAREN" "(" (RStr "(");
    spec3 "RPAREN" ")" (RStr ")");
    spec3 "LBRACK" "[" (RStr "[");
    spec3 "RBRACK" "]" (RStr "]");
    spec3 "MINUS" "-" (RStr "-");
    spec3 "ASSIGN" "::=" (RStr "::=");
    spec3 "COLON" ":" (RStr ":");
    spec3 "EQ" "=" (RStr "=");
    (* a double quote, any characters but the double quote, a double quote *)
    spec2 "CSTRING" (RSeq (RChar DQ) (RSeq (RStar not_quote) (RChar DQ)));
    spec3 "QMARK" (String DQ EmptyString) (RChar DQ);
    spec2 "BSTRING" Grammar.bstring_re;
    spec2 "HSTRING" Grammar.hstring_re;
    spec3 "APSTR" "'" (RStr "'");
    spec3 "SCOLON" ";" (RStr ";");
    spec3 "AT" "@" (RStr "@");
    spec3 "PIPE" "|" (RStr "|");
    spec3 "EMARK" "!" (RStr "!");
    spec3 "HAT" "^" (RStr "^");
    spec3 "AMPND" "&" (RStr "&");
    spec2 "TREF" Grammar.upper_ident_re;
    spec2 "IDENT" Grammar.lower_ident_re;
    (* r'.' with re.DOTALL *)
    spec2 "MISMATCH" (RClass any_char) ].

(** The [tp.Forward()] declarations of [grammar]. *)
Inductive fwd : Type :=
| value | type_ | object_ | object_set | primitive_field_name | constraint
| element_set_spec | token_or_group_spec | value_set | named_type
| root_element_set_spec | defined_object_set | syntax_list
| object_from_object | object_set_from_objects | defined_value
| component_type_lists | extension_and_exception | optional_extension_marker
| additional_element_set_spec | reference | defined_object_class
| defined_type | external_type_reference | external_value_reference
| simple_defined_type | defined_object | referenced_value | builtin_value
| named_value | signed_number | name_and_number_form | number_form
| definitive_number_form | version_number | named_number | intersections
| unions.

Definition pat : Type := pattern fwd.
Definition fwd_ref (f : fwd) : pattern fwd := Forward f.
Coercion fwd_ref : fwd >-> pattern.
Definition kind_ref (k : string) : pattern fwd := String_ k.
Coercion kind_ref : string >-> pattern.

(** [Sequence(a, b, ...)] and [choice(a, b, ...)]; a string among the
    arguments is a token kind. *)
Local Notation "'Sequence' [ x ; .. ; y ]" :=
  (tp.Sequence (@cons pat x .. (@cons pat y nil) ..)).
Local Notation "'choice' [ x ; .. ; y ]" :=
  (tp.choice (@cons pat x .. (@cons pat y nil) ..)).

(* ToDo! *)
Definition def_value_set : pat := NoMatch.

(* X680: 11. ASN.1 lexical items *)
Definition identifier : pat := "IDENT".
Definition value_reference : pat := identifier.
Definition type_reference : pat := "TREF".
Definition module_reference : pat := type_reference.
Definition real_number : pat := Sequence ["NUMBER"; "."; Optional "NUMBER"].
Definition number : pat := "NUMBER".

Definition value_field_reference : pat := Sequence ["&"; value_reference].
Definition type_field_reference : pat := Sequence ["&"; type_reference].
Definition word : pat := type_reference.

(* X.683: 8. Parameterized assignments *)
Definition dummy_reference : pat := reference.
Definition dummy_governor : pat := dummy_reference.
Definition governor : pat := choice [type_; defined_object_class].
Definition param_governor : pat := choice [governor; dummy_governor].
Definition parameter : pat :=
  Sequence [Optional (Sequence [param_governor; ":"]);
            dummy_reference].
Definition parameter_list : pat :=
  Optional (Sequence ["{";
                      DelimitedList parameter;
                      "}"]).

(* X.683: 9. Referencing parameterized definitions *)
Definition actual_parameter : pat :=
  choice [type_;
          value;
          value_set;
          defined_object_class;
          object_;
          object_set].
Definition actual_parameter_list : pat :=
  Sequence ["{";
            DelimitedList actual_parameter;
            "}"].
Definition parameterized_object : pat :=
  Sequence [defined_object; actual_parameter_list].
Definition parameterized_object_set : pat :=
  Sequence [defined_object_set; actual_parameter_list].
Definition parameterized_object_class : pat :=
  Sequence [defined_object_class; actual_parameter_list].
Definition parameterized_value_set_type : pat :=
  Sequence [simple_defined_type; actual_parameter_list].
Definition simple_defined_value : pat :=
  choice [external_value_reference; value_reference].
Definition parameterized_value : pat :=
  Sequence [simple_defined_value; actual_parameter_list].
Definition def_simple_defined_type : pat :=
  choice [external_type_reference; type_reference].
Definition parameterized_type : pat :=
  Sequence [simple_defined_type; actual_parameter_list].
Definition parameterized_reference : pat :=
  Sequence [reference; Optional (Sequence ["{"; "}"])].

(* X.682: 11. Contents constraints *)
Definition contents_constraint : pat :=
  choice [Sequence ["CONTAINING";
                    type_;
                    Optional (Sequence ["ENCODED"; "BY"; value])];
          Sequence ["ENCODED"; "BY"; value]].

(* X.682: 10. Table constraints, including component relation constraints *)
Definition level : pat := OneOrMore ".".
Definition component_id_list : pat := identifier.
Definition at_notation : pat :=
  Sequence ["@";
            choice [component_id_list;
                    Sequence [level; component_id_list]]].
Definition component_relation_constraint : pat :=
  Sequence ["{";
            defined_object_set;
            "}";
            "{";
            DelimitedList at_notation;
            "}"].
Definition simple_table_constraint : pat := object_set.
Definition table_constraint : pat :=
  choice [component_relation_constraint; simple_table_constraint].

(* X.682: 9. User-defined constants *)
Definition user_defined_constraint_parameter : pat :=
  choice [Sequence [governor;
                    ":";
                    choice [value;
                            value_set;
                            object_;
                            object_set]];
          type_;
          defined_object_class].
Definition user_defined_constraint : pat :=
  Sequence ["CONSTRAINED"; "BY";
            "{";
            Optional (DelimitedList user_defined_constraint_parameter);
            "}"].

(* X.682: 8. General constraint specification *)
Definition general_constraint : pat :=
  choice [user_defined_constraint; table_constraint; contents_constraint].

(* X.681: 7. ASN.1 lexical items *)
Definition object_set_reference : pat := type_reference.
Definition value_set_field_reference : pat := NoMatch.
Definition object_field_reference : pat := NoMatch.
Definition object_set_field_reference : pat := NoMatch.
Definition object_class_reference : pat := type_reference.
Definition object_reference : pat := value_reference.

(* X.681: 8. Referencing definitions *)
Definition external_object_set_reference : pat := NoMatch.
Definition def_defined_object_set : pat :=
  choice [external_object_set_reference; object_set_reference].
Definition def_defined_object : pat := NoMatch.
Definition def_defined_object_class : pat := object_class_reference.

(* X.681: 9. Information object class definition and assignment *)
Definition field_name : pat := primitive_field_name.
Definition def_primitive_field_name : pat :=
  choice [type_field_reference;
          value_field_reference;
          value_set_field_reference;
          object_field_reference;
          object_set_field_reference].
Definition object_set_field_spec : pat := NoMatch.
Definition object_field_spec : pat := NoMatch.
Definition variable_type_value_set_field_spec : pat := NoMatch.
Definition fixed_type_value_set_field_spec : pat := NoMatch.
Definition variable_type_value_field_spec : pat := NoMatch.
Definition fixed_type_value_field_spec : pat :=
  Sequence [value_field_reference;
            type_;
            Optional "UNIQUE";
            Optional (choice ["OPTIONAL";
                              Sequence ["DEFAULT"; value]])].
Definition type_field_spec : pat :=
  Sequence [type_field_reference;
            Optional (choice ["OPTIONAL";
                              Sequence ["DEFAULT"; type_]])].
Definition field_spec : pat :=
  choice [type_field_spec;
          fixed_type_value_field_spec;
          variable_type_value_field_spec;
          fixed_type_value_set_field_spec;
          variable_type_value_set_field_spec;
          object_field_spec;
          object_set_field_spec].
Definition with_syntax_spec : pat :=
  Sequence ["WITH"; "SYNTAX"; syntax_list].
Definition object_class_defn : pat :=
  Sequence ["CLASS";
            "{";
            DelimitedList field_spec;
            "}";
            Optional with_syntax_spec].
Definition object_class : pat :=
  choice [object_class_defn;
          (* defined_object_class, *)
          parameterized_object_class].
Definition parameterized_object_class_assignment : pat :=
  Sequence [object_class_reference;
            parameter_list;
            "::=";
            object_class].

(* X.681: 10. Syntax list *)
Definition literal : pat := choice [word; ","].
Definition required_token : pat := choice [literal; primitive_field_name].
Definition optional_group : pat :=
  Sequence ["[";
            OneOrMore token_or_group_spec;
            "]"].
Definition def_token_or_group_spec : pat := choice [required_token; optional_group].
Definition def_syntax_list : pat :=
  Sequence ["{";
            OneOrMore token_or_group_spec;
            "}"].

(* X.681: 11. Information object definition and assignment *)
Definition setting : pat :=
  choice [type_; value; value_set; object_;
          object_set; "CSTRING"].
Definition field_setting : pat := Sequence [primitive_field_name; setting].
Definition default_syntax : pat :=
  Sequence ["{";
            DelimitedList field_setting;
            "}"].
Definition defined_syntax : pat := NoMatch.
Definition object_defn : pat := choice [default_syntax; defined_syntax].
Definition def_object_ : pat :=
  choice [defined_object;
          object_defn;
          object_from_object;
          parameterized_object].
Definition parameterized_object_assignment : pat :=
  Sequence [object_reference;
            parameter_list;
            defined_object_class;
            "::=";
            object_].

(* X.681: 12. Information object set definition and assignment *)
Definition object_set_elements : pat :=
  choice [object_;
          defined_object_set;
          object_set_from_objects;
          parameterized_object_set].
Definition object_set_spec : pat :=
  choice [
    Sequence [
      root_element_set_spec;
      Optional
        (Sequence [","; "...";
                   Optional
                     (Sequence [",";
                                additional_element_set_spec])])];
    Sequence ["...";
              Optional (Sequence [",";
                                  additional_element_set_spec])]].
Definition def_object_set : pat := Sequence ["{"; object_set_spec; "}"].
Definition parameterized_object_set_assignment : pat :=
  Sequence [object_set_reference;
            parameter_list;
            defined_object_class;
            "::=";
            object_set].

(* X.681: 14. Notation for the object class field type *)
Definition fixed_type_field_val : pat :=
  choice [builtin_value; referenced_value].
Definition open_type_field_val : pat := Sequence [type_; ":"; value].
Definition object_class_field_value : pat :=
  choice [open_type_field_val; fixed_type_field_val].
Definition object_class_field_type : pat :=
  Sequence [defined_object_class;
            ".";
            field_name].

(* X.681: 15. Information from objects *)
Definition def_object_set_from_objects : pat := NoMatch.
Definition def_object_from_object : pat := NoMatch.

(* X.680: 49. The exception identifier *)
Definition exception_identification : pat :=
  choice [signed_number;
          defined_value;
          Sequence [type_; ":"; value]].
Definition exception_spec : pat :=
  Optional (Sequence ["!"; exception_identification]).

(* X.680: 47. Subtype elements *)
Definition pattern_constraint : pat :=
  Tag "PatternConstraint" (Sequence ["PATTERN"; value]).
Definition presence_constraint : pat :=
  Optional (choice ["PRESENT"; "ABSENT"; "OPTIONAL"]).
Definition value_constraint : pat := Optional constraint.
Definition component_constraint : pat :=
  Sequence [value_constraint; presence_constraint].
Definition named_constraint : pat := Sequence [identifier; component_constraint].
Definition type_constraints : pat := DelimitedList named_constraint.
Definition partial_specification : pat :=
  Sequence ["{"; "..."; ","; type_constraints; "}"].
Definition full_specification : pat :=
  Sequence ["{"; type_constraints; "}"].
Definition multiple_type_constraints : pat :=
  choice [full_specification; partial_specification].
Definition single_type_constraint : pat := constraint.
Definition inner_type_constraints : pat :=
  Tag "InnerTypeConstraint"
    (choice [Sequence ["WITH"; "COMPONENT"; single_type_constraint];
             Sequence ["WITH"; "COMPONENTS";
                       multiple_type_constraints]]).
Definition permitted_alphabet : pat :=
  Tag "PermittedAlphabet" (Sequence ["FROM"; constraint]).
Definition type_constraint : pat := Tag "TypeConstraint" type_.
Definition size_constraint : pat :=
  Tag "SizeConstraint" (Sequence ["SIZE"; constraint]).
Definition lower_end_value : pat := choice [value; "MIN"].
Definition upper_end_value : pat := choice [value; "MAX"].
Definition lower_endpoint : pat := Sequence [lower_end_value; Optional "<"].
Definition upper_endpoint : pat := Sequence [Optional "<"; upper_end_value].
Definition value_range : pat :=
  Tag "ValueRange" (Sequence [lower_endpoint; ".."; upper_endpoint]).
Definition includes : pat := Optional "INCLUDES".
Definition contained_subtype : pat :=
  Tag "ContainedSubtype" (Sequence [includes; type_]).
Definition single_value : pat := Tag "SingleValue" value.
Definition subtype_elements : pat :=
  choice [size_constraint;
          permitted_alphabet;
          value_range;
          inner_type_constraints;
          single_value;
          pattern_constraint;
          contained_subtype;
          type_constraint].

(* X.680: 46. Element set specification *)
Definition elements : pat :=
  choice [subtype_elements;
          object_set_elements;
          Sequence ["("; element_set_spec; ")"]].
Definition intersection_mark : pat := choice ["^"; "INTERSECTION"].
Definition union_mark : pat := choice ["|"; "UNION"].
Definition exclusions : pat := Sequence ["EXCEPT"; elements].
Definition intersection_elements : pat :=
  Sequence [elements; Optional exclusions].
Definition def_intersections : pat :=
  choice [intersection_elements;
          Sequence [intersections;
                    intersection_mark;
                    intersection_elements]].
Definition def_unions : pat :=
  DelimitedList_ elements (choice [union_mark; intersection_mark]).
Definition def_element_set_spec : pat :=
  choice [unions; Sequence ["ALL"; exclusions]].
Definition def_additional_element_set_spec : pat := element_set_spec.
Definition def_root_element_set_spec : pat := element_set_spec.
Definition element_set_specs : pat :=
  Sequence [
    root_element_set_spec;
    Optional (Sequence [","; "...";
                        Optional
                          (Sequence [",";
                                     additional_element_set_spec])])].

(* X.680: 45. Constrained types *)
Definition subtype_constraint : pat := element_set_specs.
Definition constraint_spec : pat := choice [subtype_constraint; general_constraint].
Definition def_constraint : pat :=
  Sequence ["("; constraint_spec; exception_spec; ")"].
Definition type_with_constraint : pat :=
  Tag "TypeWithConstraint"
    (Sequence [choice ["SET"; "SEQUENCE"];
               choice [constraint; size_constraint];
               "OF";
               choice [type_; named_type]]).

(* X.680: 40. Definition of unrestricted character string types *)
Definition unrestricted_character_string_type : pat :=
  Sequence ["CHARACTER"; "STRING"].
Definition unrestricted_character_string_value : pat := NoMatch.

(* X.680: 37. Definition of restricted character string types *)
Definition group : pat := number.
Definition plane : pat := number.
Definition row : pat := number.
Definition cell : pat := number.
Definition quadruple : pat :=
  Sequence ["{";
            group; ",";
            plane; ",";
            row; ",";
            cell;
            "}"].
Definition table_column : pat := number.
Definition table_row : pat := number.
Definition tuple_ : pat :=
  Sequence ["{"; table_column; ","; table_row; "}"].
Definition chars_defn : pat :=
  choice ["CSTRING"; quadruple; tuple_; defined_value].
Definition charsyms : pat := DelimitedList chars_defn.
Definition character_string_list : pat := Sequence ["{"; charsyms; "}"].
Definition restricted_character_string_value : pat :=
  choice ["CSTRING";
          character_string_list;
          quadruple;
          tuple_].
Definition restricted_character_string_type : pat :=
  choice ["BMPString";
          "GeneralString";
          "GraphicString";
          "IA5String";
          "ISO646String";
          "NumericString";
          "PrintableString";
          "TeletexString";
          "UTCTime";
          "GeneralizedTime";
          "T61String";
          "UniversalString";
          "UTF8String";
          "VideotexString";
          "VisibleString"].

(* X.680: 36. Notation for character string types *)
Definition character_string_value : pat :=
  choice [restricted_character_string_value;
          unrestricted_character_string_value].
Definition character_string_type : pat :=
  Tag "CharacterStringType"
    (choice [restricted_character_string_type;
             unrestricted_character_string_type]).

(* X.680: 32. Notation for relative object identifier type *)
Definition relative_oid_components : pat :=
  choice [number_form;
          name_and_number_form;
          defined_value].
Definition relative_oid_component_list : pat :=
  OneOrMore relative_oid_components.
Definition relative_oid_value : pat :=
  Sequence ["{";
            relative_oid_component_list;
            "}"].

(* X.680: 31. Notation for object identifier type *)
Definition def_name_and_number_form : pat :=
  Sequence [identifier;
            "(";
            number_form;
            ")"].
Definition def_number_form : pat := choice [number; defined_value].
Definition name_form : pat := identifier.
Definition obj_id_components : pat :=
  choice [name_and_number_form;
          defined_value;
          number_form;
          name_form].
Definition obj_id_components_list : pat := OneOrMore obj_id_components.
Definition object_identifier_value : pat :=
  choice [
    Sequence ["{"; obj_id_components_list; "}"];
    Sequence ["{"; defined_value; obj_id_components_list; "}"]].
Definition object_identifier_type : pat :=
  Tag "ObjectIdentifierType" (Sequence ["OBJECT"; "IDENTIFIER"]).

(* X.680: 28. Notation for the choice types *)
Definition alternative_type_list : pat := DelimitedList named_type.
Definition extension_addition_alternatives_group : pat :=
  Sequence ["[[";
            version_number;
            alternative_type_list;
            "]]"].
Definition extension_addition_alternative : pat :=
  choice [extension_addition_alternatives_group;
          named_type].
Definition extension_addition_alternatives_list : pat :=
  DelimitedList extension_addition_alternative.
Definition extension_addition_alternatives : pat :=
  Optional (Sequence [","; extension_addition_alternatives_list]).
Definition root_alternative_type_list : pat := alternative_type_list.
Definition alternative_type_lists : pat :=
  Sequence [
    root_alternative_type_list;
    Optional (Sequence [",";
                        extension_and_exception;
                        extension_addition_alternatives;
                        optional_extension_marker])].
Definition choice_type : pat :=
  Tag "ChoiceType"
    (Sequence ["CHOICE";
               "{";
               alternative_type_lists;
               "}"]).
Definition choice_value : pat := Sequence [identifier; ":"; value].

(* X.680: 27. Notation for the set-of types *)
Definition set_of_type : pat :=
  Sequence ["SET"; "OF"; choice [type_; named_type]].

(* X.680: 26. Notation for the set types *)
Definition set_type : pat :=
  Tag "SetType"
    (Sequence [
       "SET";
       "{";
       Optional (choice [component_type_lists;
                         Sequence [extension_and_exception;
                                   optional_extension_marker]]);
       "}"]).

(* X.680: 25. Notation for the sequence-of types *)
Definition sequence_of_value : pat := NoMatch.
Definition sequence_of_type : pat :=
  Tag "SequenceOfType"
    (Sequence ["SEQUENCE"; "OF";
               choice [type_; named_type]]).

(* X.680: 24. Notation for the sequence types *)
Definition component_value_list : pat := DelimitedList named_value.
Definition sequence_value : pat :=
  Sequence ["{";
            Optional component_value_list;
            "}"].
Definition component_type : pat :=
  choice [
    Sequence [named_type;
              Optional (choice ["OPTIONAL";
                                Sequence ["DEFAULT"; value]])];
    Sequence ["COMPONENTS"; "OF"; type_]].
Definition def_version_number : pat := Optional (Sequence [number; ":"]).
Definition extension_addition_group : pat :=
  Sequence ["[[";
            version_number;
            DelimitedList component_type;
            "]]"].
Definition def_extension_and_exception : pat :=
  Sequence ["..."; Optional exception_spec].
Definition extension_addition : pat :=
  choice [component_type; extension_addition_group].
Definition extension_addition_list : pat := DelimitedList extension_addition.
Definition extension_additions : pat :=
  Optional (Sequence [","; extension_addition_list]).
Definition extension_end_marker : pat := Sequence [","; "..."].
Definition def_optional_extension_marker : pat :=
  Optional (Sequence [","; "..."]).
Definition component_type_list : pat := DelimitedList component_type.
Definition root_component_type_list : pat := component_type_list.
Definition def_component_type_lists : pat :=
  choice [
    Sequence [root_component_type_list;
              Optional (Sequence [",";
                                  extension_and_exception;
                                  extension_additions;
                                  choice [Sequence [extension_end_marker;
                                                    ",";
                                                    root_component_type_list];
                                          optional_extension_marker]])];
    Sequence [extension_and_exception;
              extension_additions;
              choice [Sequence [extension_end_marker;
                                ",";
                                root_component_type_list];
                      optional_extension_marker]]].
Definition sequence_type : pat :=
  Tag "SequenceType"
    (Sequence ["SEQUENCE";
               "{";
               Optional (choice [component_type_lists;
                                 Sequence [extension_and_exception;
                                           optional_extension_marker]]);
               "}"]).

(* X.680: 23. Notation for the null type *)
Definition null_value : pat := "NULL".
Definition null_type : pat := Tag "NullType" "NULL".

(* X.680: 22. Notation for the octetstring type *)
Definition octet_string_type : pat :=
  Tag "OctetStringType" (Sequence ["OCTET"; "STRING"]).

(* X.680: 21. Notation for the bitstring type *)
Definition bit_string_value : pat :=
  choice ["BSTRING";
          "HSTRING";
          Sequence ["{";
                    Optional (DelimitedList identifier);
                    "}"]].
Definition named_bit : pat :=
  Sequence ["IDENT"; "("; choice [number; defined_value]; ")"].
Definition bit_string_type : pat :=
  Tag "BitStringType"
    (Sequence ["BIT"; "STRING";
               Optional (Sequence ["{";
                                   DelimitedList named_bit;
                                   "}"])]).

Definition tag : pat :=
  Sequence ["[";
            Optional (choice ["UNIVERSAL"; "APPLICATION";
                              "PRIVATE"]);
            number;
            "]"].
Definition tagged_type : pat :=
  Tag "TaggedType"
    (Sequence [tag;
               Optional (choice ["IMPLICIT"; "EXPLICIT"]);
               type_]).

(* X.680: 20. Notation for the real type *)
Definition special_real_value : pat :=
  choice ["PLUS-INFINITY"; "MINUS-INFINITY"].
Definition numeric_real_value : pat := choice [real_number; sequence_value].
Definition real_value : pat := choice [numeric_real_value; special_real_value].
Definition real_type : pat := Tag "RealType" "REAL".

(* X.680: 19. Notation for the enumerated type *)
Definition enumerated_value : pat := identifier.
Definition enumeration_item : pat := choice [named_number; identifier].
Definition enumeration : pat := DelimitedList enumeration_item.
Definition root_enumeration : pat := enumeration.
Definition additional_enumeration : pat := enumeration.
Definition enumerations : pat :=
  Sequence [
    root_enumeration;
    Optional (Sequence [","; "..."; exception_spec;
                        Optional
                          (Sequence [","; additional_enumeration])])].
Definition enumerated_type : pat :=
  Tag "EnumeratedType"
    (Sequence ["ENUMERATED"; "{"; enumerations; "}"]).

(* X.680: 18. Notation for the integer type *)
Definition integer_value : pat := choice [signed_number; identifier].
Definition def_signed_number : pat := number.
Definition def_named_number : pat :=
  Sequence [identifier;
            "(";
            choice [signed_number; defined_value];
            ")"].
Definition integer_type : pat :=
  Tag "IntegerType"
    (Sequence ["INTEGER";
               Optional (Sequence ["{";
                                   DelimitedList named_number;
                                   "}"])]).

(* X.680: 17. Notation for the boolean type *)
Definition boolean_value : pat := choice ["TRUE"; "FALSE"].
Definition boolean_type : pat := Tag "BooleanType" "BOOLEAN".

Definition any_defined_by_type : pat :=
  Sequence ["ANY"; "DEFINED"; "BY"; value_reference].

(* X.680: 16. Definition of types and values *)
Definition def_named_value : pat := Sequence [identifier; value].
Definition def_referenced_value : pat := NoMatch.
Definition def_builtin_value : pat :=
  choice [bit_string_value;
          boolean_value;
          character_string_value;
          choice_value;
          relative_oid_value;
          sequence_value;
          enumerated_value;
          real_value;
          integer_value;
          null_value;
          object_identifier_value;
          sequence_of_value].
Definition def_value : pat := choice [object_class_field_value].
Definition builtin_type : pat :=
  choice [choice_type;
          integer_type;
          null_type;
          bit_string_type;
          octet_string_type;
          enumerated_type;
          "IA5String";
          boolean_type;
          real_type;
          character_string_type;
          object_class_field_type;
          sequence_type;
          set_type;
          sequence_of_type;
          set_of_type;
          object_identifier_type;
          tagged_type;
          any_defined_by_type;
          "ANY";
          "EXTERNAL"].
Definition def_named_type : pat := Sequence ["IDENT"; type_].
Definition referenced_type : pat := Tag "ReferencedType" type_reference.
Definition def_type_ : pat :=
  choice [Sequence [choice [builtin_type; referenced_type];
                    ZeroOrMore constraint];
          type_with_constraint].

(* X.680: 15. Assigning types and values *)
Definition parameterized_value_assignment : pat :=
  Tag "ParameterizedValueAssignment"
    (Sequence [value_reference;
               type_;
               "::=";
               value]).
Definition parameterized_type_assignment : pat :=
  Tag "ParameterizedTypeAssignment"
    (Sequence [type_reference;
               parameter_list;
               "::=";
               type_]).

(* X.680: 13. Referencing type and value definitions *)
Definition def_external_value_reference : pat :=
  Sequence [module_reference;
            ".";
            value_reference].
Definition def_external_type_reference : pat :=
  Sequence [module_reference;
            ".";
            type_reference].
Definition def_defined_type : pat :=
  choice [external_type_reference;
          parameterized_type;
          parameterized_value_set_type;
          type_reference].
Definition def_defined_value : pat :=
  choice [external_value_reference;
          parameterized_value;
          value_reference].

(* X.680: 12. Module definition *)
Definition assignment : pat :=
  choice [parameterized_object_set_assignment;
          parameterized_object_assignment;
          parameterized_object_class_assignment;
          parameterized_type_assignment;
          parameterized_value_assignment].
Definition assignment_list : pat := ZeroOrMore assignment.
Definition def_reference : pat :=
  choice [type_reference;
          value_reference;
          object_class_reference;
          object_reference;
          object_set_reference].
Definition symbol : pat := choice [parameterized_reference; reference].
Definition symbol_list : pat := DelimitedList symbol.
Definition assigned_identifier : pat :=
  Optional (choice [
    object_identifier_value;
    Sequence [defined_value; Not (choice [","; "FROM"])]]).
Definition global_module_reference : pat :=
  Sequence [module_reference; assigned_identifier].
Definition symbols_from_module : pat :=
  Sequence [symbol_list;
            "FROM";
            global_module_reference].
Definition imports : pat :=
  Optional (Sequence ["IMPORTS";
                      ZeroOrMore symbols_from_module;
                      ";"]).
Definition symbols_exported : pat := Optional symbol_list.
Definition exports : pat :=
  Optional (Sequence ["EXPORTS";
                      choice ["ALL"; symbols_exported];
                      ";"]).
Definition module_body : pat := Sequence [exports; imports; assignment_list].
Definition extension_default : pat :=
  Optional (Sequence ["EXTENSIBILITY"; "IMPLIED"]).
Definition tag_default : pat :=
  Optional
    (Sequence [choice ["EXPLICIT"; "IMPLICIT"; "AUTOMATIC"];
               "TAGS"]).
Definition definitive_name_and_number_form : pat :=
  Sequence [identifier;
            "(";
            definitive_number_form;
            ")"].
Definition def_definitive_number_form : pat := number.
Definition definitive_obj_id_component : pat :=
  choice [definitive_name_and_number_form;
          name_form;
          definitive_number_form].
Definition definitive_obj_id_components_list : pat :=
  OneOrMore definitive_obj_id_component.
Definition definitive_identifier : pat :=
  Optional (Sequence [
    "{";
    definitive_obj_id_components_list;
    "}"]).
Definition module_identifier : pat :=
  Sequence [module_reference; definitive_identifier].
Definition module_definition : pat :=
  Sequence [module_identifier;
            "DEFINITIONS";
            tag_default;
            extension_default;
            "::=";
            "BEGIN";
            module_body;
            "END"].

(** [grammar()] returns [tp.OneOrMore(module_definition)]. *)
Definition grammar : pat := OneOrMore module_definition.

(** The pattern each [tp.Forward] was given with [<<=]. *)
Definition defn (f : fwd) : pat :=
  match f with
  | value => def_value
  | type_ => def_type_
  | object_ => def_object_
  | object_set => def_object_set
  | primitive_field_name => def_primitive_field_name
  | constraint => def_constraint
  | element_set_spec => def_element_set_spec
  | token_or_group_spec => def_token_or_group_spec
  | value_set => def_value_set
  | named_type => def_named_type
  | root_element_set_spec => def_root_element_set_spec
  | defined_object_set => def_defined_object_set
  | syntax_list => def_syntax_list
  | object_from_object => def_object_from_object
  | object_set_from_objects => def_object_set_from_objects
  | defined_value => def_defined_value
  | component_type_lists => def_component_type_lists
  | extension_and_exception => def_extension_and_exception
  | optional_extension_marker => def_optional_extension_marker
  | additional_element_set_spec => def_additional_element_set_spec
  | reference => def_reference
  | defined_object_class => def_defined_object_class
  | defined_type => def_defined_type
  | external_type_reference => def_external_type_reference
  | external_value_reference => def_external_value_reference
  | simple_defined_type => def_simple_defined_type
  | defined_object => def_defined_object
  | referenced_value => def_referenced_value
  | builtin_value => def_builtin_value
  | named_value => def_named_value
  | signed_number => def_signed_number
  | name_and_number_form => def_name_and_number_form
  | number_form => def_number_form
  | definitive_number_form => def_definitive_number_form
  | version_number => def_version_number
  | named_number => def_named_number
  | intersections => def_intersections
  | unions => def_unions
  end.

(** [Asn1Parser().parse(string, token_tree=True)] *)
Definition parse (fuel : nat) (string : list ascii) : tp_error + tree :=
  tp.parse token_specs keywords defn grammar fuel string.

End Asn1Parser.

(** ** 10. [class Transformer] *)

Module Transformer.

Import tp.

(** What [transform_integer_type] writes to the standard output. *)
Inductive stdout_item : Type :=
| Print_empty                       (* print() *)
| Pprint_name (type_name : string)  (* pprint(type_name) *)
| Pprint_tree (constraint : tree).  (* pprint(constraint) *)

(** [x[i]] on a parse tree that should be a list. *)
Definition item (x : tree) (i : nat) : res tree :=
  match x with
  | List_ l =>
      match l !! i with
      | Some y => ret y
      | None => raise IndexError
      end
  | _ => raise (NotModelled "indexing a token or a tagged match")
  end.

(** [x[0].value] *)
Definition first_value (x : tree) : res string :=
  y <- item x 0 ;;
  match y with
  | Tok t => as_key (value t)
  | _ => raise AttributeError
  end.

(** [tag, assignment = x] *)
Definition unpack_pair (x : tree) : res (tree + string) * tree :=
  match x with
  | Pair name mo => (ret (inr name), mo)
  | List_ [a; b] => (ret (inl a), b)
  | _ => (raise ValueError, x)
  end.

Definition alist_set (k : string) (v : tree) (d : list (string * tree))
    : list (string * tree) :=
  if existsb (fun kv => String.eqb (fst kv) k) d
  then map (fun kv => if String.eqb (fst kv) k then (k, v) else kv) d
  else d ++ [(k, v)].

Record lookup_module : Type := LookupModule {
  lm_imports : tree;
  lm_types : list (string * tree);
  lm_values : list (string * tree)
}.

(** The loop over [assignment_list] in [setup_lookup_modules]. *)
Fixpoint lookup_assignments (assignment_list : list tree)
    (types values : list (string * tree))
    : res (list (string * tree) * list (string * tree)) :=
  match assignment_list with
  | [] => ret (types, values)
  | x :: rest =>
      match unpack_pair x with
      | (inl e, _) => raise e
      | (inr (inr tag), assignment) =>
          if String.eqb tag "ParameterizedTypeAssignment" then
            name <- first_value assignment ;;
            t <- item assignment 3 ;;
            lookup_assignments rest (alist_set name t types) values
          else if String.eqb tag "ParameterizedValueAssignment" then
            name <- first_value assignment ;;
            v <- item assignment 3 ;;
            lookup_assignments rest types (alist_set name v values)
          else lookup_assignments rest types values
      | (inr (inl _), _) => lookup_assignments rest types values
      end
  end.

Definition module_name_of (module_definition : tree) : res string :=
  m0 <- item module_definition 0 ;; first_value m0.

Fixpoint setup_lookup_modules (parse_tree : list tree)
    (lookup : gmap string lookup_module) : res (gmap string lookup_module) :=
  match parse_tree with
  | [] => ret lookup
  | module_definition :: rest =>
      m6 <- item module_definition 6 ;;
      match m6 with
      | List_ [_; imports; List_ assignment_list] =>
          tv <- lookup_assignments assignment_list [] [] ;;
          module_name <- module_name_of module_definition ;;
          setup_lookup_modules rest
            (<[module_name := LookupModule imports (fst tv) (snd tv)]> lookup)
      | List_ [_; _; _] => raise (NotModelled "assignment list that is not a list")
      | List_ _ => raise ValueError
      | _ => raise (NotModelled "module body that is not a list")
      end
  end.

(** [type_[0][0]] when it is a string. *)
Definition type_tag (type_ : tree) : res (option string) :=
  match type_ with
  | List_ (Pair name _ :: _) => ret (Some name)
  | List_ (Tok t :: _) => ret (Some (kind t))
  | List_ (List_ (Tok _ :: _) :: _) => ret None
  | List_ [] => raise IndexError
  | Pair name _ => ret (Some (String.substring 0 1 name))
  | _ => raise (NotModelled "type tag")
  end.

Definition transform_integer_type (type_name : string) (type_ : tree)
    : list stdout_item * res unit :=
  let out := [Print_empty; Pprint_name type_name] in
  match item type_ 1 with
  | inl e => (out, raise e)
  | inr (List_ constraints) => (out ++ map Pprint_tree constraints, ret tt)
  | inr _ => (out, raise (NotModelled "constraints that are not a list"))
  end.

(** The dispatch of [transform_type]: every method but
    [transform_integer_type] is [pass], and a tag that is not in the table
    raises a [KeyError] that is caught. *)
Definition transform_type (type_name : string) (type_ : tree)
    : list stdout_item * res unit :=
  match type_tag type_ with
  | inl e => ([], raise e)
  | inr (Some tag) =>
      if String.eqb tag "IntegerType"
      then transform_integer_type type_name type_
      else ([], ret tt)
  | inr None => ([], ret tt)
  end.

Fixpoint transform_types (types : list (string * tree))
    (out : list stdout_item) : list stdout_item * res unit :=
  match types with
  | [] => (out, ret tt)
  | (type_name, type_) :: rest =>
      match transform_type type_name type_ with
      | (o, inl e) => (out ++ o, raise e)
      | (o, inr _) => transform_types rest (out ++ o)
      end
  end.

Fixpoint transform_modules (lookup : gmap string lookup_module)
    (parse_tree : list tree) (out : list stdout_item)
    : list stdout_item * res unit :=
  match parse_tree with
  | [] => (out, ret tt)
  | module_definition :: rest =>
      match module_name_of module_definition with
      | inl e => (out, raise e)
      | inr module_name =>
          match lookup !! module_name with
          | None => (out, raise KeyError)
          | Some m =>
              match transform_types (lm_types m) out with
              | (out, inl e) => (out, raise e)
              | (out, inr _) => transform_modules lookup rest out
              end
          end
      end
  end.

(** [Transformer().transform(parse_tree)]: [self._modules] is never filled,
    the result is the empty dictionary. *)
Definition transform (parse_tree : tree) : list stdout_item * res pyval :=
  match parse_tree with
  | List_ modules =>
      match setup_lookup_modules modules ∅ with
      | inl e => ([], raise e)
      | inr lookup =>
          match transform_modules lookup modules [] with
          | (out, inl e) => (out, raise e)
          | (out, inr _) => (out, ret (PDict ∅))
          end
      end
  | _ => ([], raise (NotModelled "parse tree that is not a list"))
  end.

End Transformer.

(** ** 11. [parse_string] *)

(** How a call ends: with a value, with an exception, or, in this model,
    without an answer because the bound on the depth of the parsers was
    reached. *)
Inductive completion : Type :=
| Returns (v : pyval)
| Raises (e : exn)
| FuelExhausted.

Record run : Type := Run {
  stdout : list Transformer.stdout_item;
  log : list log_record;
  result : completion
}.

(** The first [try] block: the tokenizer-based parser and the transformer. *)
Definition token_stage (fuel : nat) (string : string)
    : list Transformer.stdout_item * completion :=
  match Asn1Parser.parse fuel (chars string) with
  | inl (tp.TokenizeError _) | inl tp.GrammarError =>
      ([], Raises (ParseError InvalidSyntaxTokens))
  | inl (tp.TpNotModelled what) => ([], Raises (NotModelled what))
  | inl tp.TpOutOfFuel => ([], FuelExhausted)
  | inr parse_tree =>
      match Transformer.transform parse_tree with
      | (out, inl e) => (out, Raises e)
      | (out, inr modules) => (out, Returns modules)
      end
  end.

(** The second [try] block and the [return]: the combinator grammar on the
    string without its comments. *)
Definition combinator_stage (fuel : nat) (string : string)
    : list log_record * completion :=
  let grammar := Grammar.create_grammar in
  let string := ignore_comments string in
  match Grammar.parse fuel grammar (chars string) with
  | (log, Matched _ tokens) =>
      (log, match idx (PList (asList tokens)) 0 with
            | inr v => Returns v
            | inl e => Raises e
            end)
  | (log, ParseException) | (log, ParseSyntaxException) =>
      (log, Raises (ParseError InvalidSyntax))
  | (log, ActionIndexError) =>
      (log, Raises (NotModelled "IndexError of a parse action at top level"))
  | (log, Raised e) => (log, Raises e)
  | (log, OutOfFuel) => (log, FuelExhausted)
  end.

Definition parse_string (fuel : nat) (string : string) : run :=
  match token_stage fuel string with
  | (out, Returns _) =>
      let '(log, r) := combinator_stage fuel string in
      Run out log r
  | (out, r) => Run out [] r
  end.

(** ** 12. Specifications

    The notions the properties below are stated with.  None of them is used
    by the program. *)

(** *** The recursion bound *)

(** An answer is any outcome but the one that says the bound was reached. *)
Definition answers (r : presult) : Prop := snd r <> OutOfFuel.

(** [g] gives the answers of [f] wherever [f] has one. *)
Definition extends1 {F} (f g : pexpr F -> nat -> list log_record -> presult)
    (e : pexpr F) : Prop :=
  forall loc log, answers (f e loc log) -> g e loc log = f e loc log.

Definition extends {F} (rec rec' : @parser F) : Prop :=
  forall skip doActions e,
    extends1 (rec skip doActions) (rec' skip doActions) e.

Definition tanswers (r : nat * tp.match_result) : Prop :=
  snd r <> tp.MatchOutOfFuel.

Definition textends1 {F} (f g : @tp.matcher F) (p : tp.pattern F) : Prop :=
  forall pos, tanswers (f p pos) -> g p pos = f p pos.

Definition textends {F} (f g : @tp.matcher F) : Prop :=
  forall p, textends1 f g p.

(** [parse_string string] evaluates to the run [r]: every sufficiently large
    recursion bound gives [r]. *)
Definition parse_string_gives (string : string) (r : run) : Prop :=
  exists n, forall fuel, (n <= fuel)%nat -> parse_string fuel string = r.

(** [parse_string string] ends with [c], whatever it printed or logged. *)
Definition parse_string_result (string : string) (c : completion) : Prop :=
  exists n, forall fuel, (n <= fuel)%nat ->
    result (parse_string fuel string) = c.

(** Induction on expressions and patterns, with the induction hypothesis for
    every element of a list of sub-expressions. *)

Section pexpr_induction.

Context {F : Type} (P : pexpr F -> Prop).

Hypothesis leaf : forall e,
  match e with
  | And _ | MatchFirst _ | Optional _ | ZeroOrMore _ | OneOrMore _ | NotAny _
  | Group _ | Suppress _ | Combine _ | Tag _ _ | WithAction _ _ => True
  | _ => P e
  end.
Hypothesis HAnd : forall l, Forall P l -> P (And l).
Hypothesis HMatchFirst : forall l, Forall P l -> P (MatchFirst l).
Hypothesis HOptional : forall e, P e -> P (Optional e).
Hypothesis HZeroOrMore : forall e, P e -> P (ZeroOrMore e).
Hypothesis HOneOrMore : forall e, P e -> P (OneOrMore e).
Hypothesis HNotAny : forall e, P e -> P (NotAny e).
Hypothesis HGroup : forall e, P e -> P (Group e).
Hypothesis HSuppress : forall e, P e -> P (Suppress e).
Hypothesis HCombine : forall e, P e -> P (Combine e).
Hypothesis HTag : forall t e, P e -> P (Tag t e).
Hypothesis HWithAction : forall a e, P e -> P (WithAction a e).

Fixpoint pexpr_induction (e : pexpr F) : P e :=
  let all := fix all (l : list (pexpr F)) : Forall P l :=
    match l with
    | [] => @List.Forall_nil _ P
    | x :: l1 => @List.Forall_cons _ P x l1 (pexpr_induction x) (all l1)
    end in
  match e with
  | Keyword s => leaf (Keyword s)
  | Literal s => leaf (Literal s)
  | Word p => leaf (Word p)
  | Regex r => leaf (Regex r)
  | QuotedString q => leaf (QuotedString q)
  | NoMatch => leaf NoMatch
  | StringEnd => leaf StringEnd
  | ErrorStop => leaf ErrorStop
  | Forward f => leaf (Forward f)
  | And l => HAnd l (all l)
  | MatchFirst l => HMatchFirst l (all l)
  | Optional e1 => HOptional e1 (pexpr_induction e1)
  | ZeroOrMore e1 => HZeroOrMore e1 (pexpr_induction e1)
  | OneOrMore e1 => HOneOrMore e1 (pexpr_induction e1)
  | NotAny e1 => HNotAny e1 (pexpr_induction e1)
  | Group e1 => HGroup e1 (pexpr_induction e1)
  | Suppress e1 => HSuppress e1 (pexpr_induction e1)
  | Combine e1 => HCombine e1 (pexpr_induction e1)
  | Tag t e1 => HTag t e1 (pexpr_induction e1)
  | WithAction a e1 => HWithAction a e1 (pexpr_induction e1)
  end.

End pexpr_induction.

Section pattern_induction.

Context {F : Type} (P : tp.pattern F -> Prop).

Hypothesis leaf : forall p,
  match p with
  | tp.String_ _ | tp.NoMatch | tp.Forward _ => P p
  | _ => True
  end.
Hypothesis HSequence : forall l, Forall P l -> P (tp.Sequence l).
Hypothesis HChoice : forall l, Forall P l -> P (tp.Choice l).
Hypothesis HOptional : forall p, P p -> P (tp.Optional p).
Hypothesis HZeroOrMore : forall p, P p -> P (tp.ZeroOrMore p).
Hypothesis HOneOrMore : forall p, P p -> P (tp.OneOrMore p).
Hypothesis HDelimitedList : forall p d, P p -> P d -> P (tp.DelimitedList_ p d).
Hypothesis HNot : forall p, P p -> P (tp.Not p).
Hypothesis HTag : forall n p, P p -> P (tp.Tag n p).

Fixpoint pattern_induction (p : tp.pattern F) : P p :=
  let all := fix all (l : list (tp.pattern F)) : Forall P l :=
    match l with
    | [] => @List.Forall_nil _ P
    | x :: l1 => @List.Forall_cons _ P x l1 (pattern_induction x) (all l1)
    end in
  match p with
  | tp.String_ k => leaf (tp.String_ k)
  | tp.NoMatch => leaf tp.NoMatch
  | tp.Forward f => leaf (tp.Forward f)
  | tp.Sequence l => HSequence l (all l)
  | tp.Choice l => HChoice l (all l)
  | tp.Optional p1 => HOptional p1 (pattern_induction p1)
  | tp.ZeroOrMore p1 => HZeroOrMore p1 (pattern_induction p1)
  | tp.OneOrMore p1 => HOneOrMore p1 (pattern_induction p1)
  | tp.DelimitedList_ p1 d => HDelimitedList p1 d (pattern_induction p1) (pattern_induction d)
  | tp.Not p1 => HNot p1 (pattern_induction p1)
  | tp.Tag n p1 => HTag n p1 (pattern_induction p1)
  end.

End pattern_induction.

(** *** Results *)

(** A dictionary display [{k1: v1, ...}]. *)
Definition py_dict (items : list (string * pyval)) : pyval :=
  PDict (fold_left (fun d kv => <[kv.1 := kv.2]> d) items ∅).

(** The dictionary of a module without imports. *)
Definition module_dict (types values : list (string * pyval)) : pyval :=
  py_dict [("extensibility-implied", PBool false);
           ("imports", py_dict []);
           ("types", py_dict types);
           ("values", py_dict values);
           ("object-classes", py_dict []);
           ("object-sets", py_dict [])].



(** *** The inputs of the examples *)

Definition S1 : string := "M DEFINITIONS ::= BEGIN A ::= INTEGER END".




Definition keyword_module_input : string := "SET DEFINITIONS ::= BEGIN END".

Definition empty_imports_input : string :=
  "M DEFINITIONS ::= BEGIN IMPORTS ; END".

Definition any_type_input : string := "M DEFINITIONS ::= BEGIN A ::= ANY END".




(** An INTEGER type restricted to one entry. *)
Definition restricted_to (entry : pyval) : pyval :=
  py_dict [("type", PStr "INTEGER"); ("restricted-to", PList [entry])].

Definition S5 : string :=
  "M DEFINITIONS ::= BEGIN v INTEGER ::= 17 b BIT STRING ::= 'DE AD'H END".

Definition hstring_input : string :=
  "M DEFINITIONS ::= BEGIN b BIT STRING ::= 'DE AD'H END".

Definition lowercase_hstring_input : string :=
  "M DEFINITIONS ::= BEGIN b BIT STRING ::= 'de ad'H END".


(** *** Comments *)

(** A terminator of a comment starts here: two hyphens or a newline. *)
Definition terminator_at (s : list ascii) : bool :=
  starts_with (chars "--") s || starts_with [NL] s.

(** A comment runs from two hyphens to the next two hyphens or the end of the
    line, whichever comes first: no terminator starts inside its body. *)
Inductive comment : list ascii -> Prop :=
| comment_intro body term :
    term = chars "--" \/ term = [NL] ->
    (forall i, (i < length body)%nat ->
               terminator_at (drop i (body ++ term)) = false) ->
    comment (chars "--" ++ body ++ term).

(** What is to stand in the place of a comment: a space for each of its
    characters, the newline excepted. *)
Fixpoint spaced (c : list ascii) : list ascii :=
  match c with
  | [] => []
  | a :: c' => (if Ascii.eqb a "010" then a else " "%char) :: spaced c'
  end.

(** The specification of comment stripping: a comment is replaced by
    spaces, a character at which no comment starts is kept. *)
Inductive stripped : list ascii -> list ascii -> Prop :=
| stripped_nil : stripped [] []
| stripped_comment c rest out :
    comment c -> stripped rest out -> stripped (c ++ rest) (spaced c ++ out)
| stripped_char x s out :
    (forall c rest, x :: s = c ++ rest -> ~ comment c) ->
    stripped s out -> stripped (x :: s) (x :: out).

(** A comment as C9 has it also ends where the text ends: two hyphens and
    the rest of the text, in which no terminator starts. *)
Definition open_comment (c : list ascii) : Prop :=
  exists body,
    c = chars "--" ++ body /\
    forall i, terminator_at (drop i body) = false.

Definition after_terminator (s : list ascii) : option (list ascii) :=
  re_match (RAlt (RStr "--") (RChar NL)) s Some.

(** *** Bit string literals *)

Definition hstring_char (c : ascii) : bool := Grammar.hex_upper c || re_space c.

Definition bstring_char (c : ascii) : bool := chr_in "01" c || re_space c.

(** *** Enumerations *)

(** An item of an enumeration: a bare identifier or [identifier(number)]. *)
Inductive enum_item : Type :=
| Bare (name : string)
| Numbered (name : string) (n : Z).

(** The tokens [enumeration_item] leaves for an item. *)
Definition item_tokens (i : enum_item) : pyval :=
  match i with
  | Bare name => PStr name
  | Numbered name n => PResults [PStr name; PStr "("; PInt n; PStr ")"]
  end.

(** The tokens of [enumerations]: the root enumeration and, after an
    extension marker, the additional one. *)
Definition enum_tokens (root : list enum_item)
    (extension : option (list enum_item)) : pyval :=
  PResults [PResults (map item_tokens root);
            PResults match extension with
                     | None => []
                     | Some additional =>
                         PResults [] :: map item_tokens additional
                     end].

Definition item_list (i : enum_item) : pyval := asList_val (item_tokens i).

Definition pair (name : string) (n : Z) : pyval := PTuple [PStr name; PInt n].

Definition explicit (i : enum_item) : list Z :=
  match i with
  | Bare _ => []
  | Numbered _ n => [n]
  end.

(** The explicit numbers of a list of items, in order. *)
Definition explicit_numbers (items : list enum_item) : list Z :=
  concat (map explicit items).

(** The numbers of a list of values. *)
Definition value_number (v : pyval) : list Z :=
  match v with
  | PTuple [_; PInt n] => [n]
  | _ => []
  end.

Definition numbers (values : list pyval) : list Z :=
  concat (map value_number values).

(** [k] is the smallest non-negative integer that is not in [used]. *)
Definition smallest_unused (used : list Z) (k : Z) : Prop :=
  (0 <= k)%Z /\ (k ∉ used) /\ forall m, (0 <= m < k)%Z -> m ∈ used.

(** The root enumeration, numbered: a named item keeps its number, an
    unnamed item takes the smallest non-negative integer that is neither an
    explicit number of the root enumeration ([reserved]) nor the number of an
    earlier item ([before]).  The counter ends one above the last number
    that was assigned this way. *)
Inductive root_numbered (reserved : list Z) :
    list pyval -> Z -> list enum_item -> list pyval -> Z -> Prop :=
| root_numbered_nil before counter :
    root_numbered reserved before counter [] [] counter
| root_numbered_named before counter name n items values counter' :
    root_numbered reserved (before ++ [pair name n]) counter
      items values counter' ->
    root_numbered reserved before counter
      (Numbered name n :: items) (pair name n :: values) counter'
| root_numbered_bare before counter name k items values counter' :
    smallest_unused (reserved ++ numbers before) k ->
    root_numbered reserved (before ++ [pair name k]) (k + 1)
      items values counter' ->
    root_numbered reserved before counter
      (Bare name :: items) (pair name k :: values) counter'.



(** *** Assignment lists *)

(** The kinds of assignment [convert_assignment_list] knows. *)
Inductive assignment_kind : Type :=
| TypeAssignment
| ValueAssignment
| ObjectClassAssignment
| ObjectAssignment
| ObjectSetAssignment.

Definition kind_tag (k : assignment_kind) : string :=
  match k with
  | TypeAssignment => "parameterized-type-assignment"
  | ValueAssignment => "parameterized-value-assignment"
  | ObjectClassAssignment => "parameterized-object-class-assignment"
  | ObjectAssignment => "parameterized-object-assignment"
  | ObjectSetAssignment => "parameterized-object-set-assignment"
  end.

(** The word the warning uses for a kind. *)
Definition kind_label (k : assignment_kind) : string :=
  match k with
  | TypeAssignment => "Type"
  | ValueAssignment => "Value"
  | ObjectClassAssignment => "Object class"
  | ObjectAssignment => "Object"
  | ObjectSetAssignment => "Object set"
  end.

(** The key of the returned dictionary under which a kind is stored;
    objects are stored with the values. *)
Definition kind_key (k : assignment_kind) : string :=
  match k with
  | TypeAssignment => "types"
  | ValueAssignment | ObjectAssignment => "values"
  | ObjectClassAssignment => "object-classes"
  | ObjectSetAssignment => "object-sets"
  end.

Record assignment : Type := Assignment {
  a_kind : assignment_kind;
  a_name : string;
  a_value : pyval
}.

(** The triple the [convert_parameterized_*_assignment] actions build. *)
Definition assignment_tokens (x : assignment) : pyval :=
  PTuple [PStr (kind_tag (a_kind x)); PStr (a_name x); a_value x].

(** The dictionary of [a] that holds the assignments of kind [k]. *)
Definition kind_dict (k : assignment_kind) (a : assignments)
    : gmap string pyval :=
  match k with
  | TypeAssignment => types a
  | ValueAssignment | ObjectAssignment => values_ a
  | ObjectClassAssignment => object_classes a
  | ObjectSetAssignment => object_sets a
  end.

Definition kind_update (k : assignment_kind) (a : assignments)
    (d : gmap string pyval) : assignments :=
  match k with
  | TypeAssignment =>
      Assignments d (values_ a) (object_classes a) (object_sets a)
  | ValueAssignment | ObjectAssignment =>
      Assignments (types a) d (object_classes a) (object_sets a)
  | ObjectClassAssignment =>
      Assignments (types a) (values_ a) d (object_sets a)
  | ObjectSetAssignment =>
      Assignments (types a) (values_ a) (object_classes a) d
  end.

(** [x] writes the entry [name] of the dictionary of kind [k]. *)
Definition writes (k : assignment_kind) (name : string) (x : assignment)
    : Prop :=
  kind_key (a_kind x) = kind_key k /\ a_name x = name.

(** *** The two grammars *)

(** The combinator grammar alone, on a text as it is:
    [create_grammar().parseString(text).asList()[0]].  Comments are not
    removed from the text.  An error of pyparsing is reported as
    [parse_string] reports it. *)
Definition combinator_grammar_alone (fuel : nat) (text : string)
    : completion :=
  match Grammar.parse fuel Grammar.create_grammar (chars text) with
  | (_, Matched _ tokens) =>
      match asList tokens with
      | modules :: _ => Returns modules
      | [] => Raises IndexError
      end
  | (_, ParseException) | (_, ParseSyntaxException) =>
      Raises (ParseError InvalidSyntax)
  | (_, ActionIndexError) =>
      Raises (NotModelled "IndexError of a parse action at top level")
  | (_, Raised e) => Raises e
  | (_, OutOfFuel) => FuelExhausted
  end.

(** The tokenizer-based grammar alone, on a text:
    [Transformer().transform(Asn1Parser().parse(text, token_tree=True))].
    An error of textparser is reported as [parse_string] reports it. *)
Definition tokenizer_grammar_alone (fuel : nat) (text : string)
    : completion :=
  match Asn1Parser.parse fuel (chars text) with
  | inr parse_tree =>
      match snd (Transformer.transform parse_tree) with
      | inr modules => Returns modules
      | inl e => Raises e
      end
  | inl tp.TpOutOfFuel => FuelExhausted
  | inl (tp.TpNotModelled what) => Raises (NotModelled what)
  | inl _ => Raises (ParseError InvalidSyntaxTokens)
  end.

(** How a grammar alone ends on a text, whatever the bound. *)
Definition combinator_grammar_ends (text : string) (c : completion) : Prop :=
  exists n, forall fuel, (n <= fuel)%nat ->
    combinator_grammar_alone fuel text = c.

Definition tokenizer_grammar_ends (text : string) (c : completion) : Prop :=
  exists n, forall fuel, (n <= fuel)%nat ->
    tokenizer_grammar_alone fuel text = c.

(** An answer of the model that stands for an answer of the program. *)
Definition modelled (c : completion) : bool :=
  match c with
  | FuelExhausted | Raises (NotModelled _) => false
  | _ => true
  end.

(** A module with a comment. *)
Definition comment_input : string :=
  "M DEFINITIONS ::= BEGIN -- a comment -- A ::= INTEGER END".

(** *** The reserved words of the lookahead *)

(** The words of the pattern [reserved_words]. *)
Definition guarded_words : list string := ["END"; "SEQUENCE"; "ENUMERATED"].

(** What [(\s|$)] needs behind the word. *)
Definition word_end (rest : list ascii) : bool :=
  match rest with
  | [] => true
  | c :: _ => re_space c
  end.

(** *** Views for the further properties *)

(** The name of an item. *)
Definition item_name (i : enum_item) : string :=
  match i with
  | Bare name | Numbered name _ => name
  end.

(** What an entry of the returned list stands for: a name with its number,
    or the extension marker; [None] if it is neither. *)
Definition value_name (v : pyval) : option (option string) :=
  match v with
  | PTuple [PStr name; PInt _] => Some (Some name)
  | PNone => Some None
  | _ => None
  end.

(** The names [convert_enum_values] is to give: those of the root items,
    then nothing for the extension marker, then those of the additional
    items. *)
Definition enum_names (root : list enum_item)
    (extension : option (list enum_item)) : list (option string) :=
  map (fun i => Some (item_name i)) root ++
  match extension with
  | None => []
  | Some additional => None :: map (fun i => Some (item_name i)) additional
  end.

(** The dictionary and the name an assignment writes. *)
Definition target (x : assignment) : string * string :=
  (kind_key (a_kind x), a_name x).

Definition assignment_kinds : list assignment_kind :=
  [TypeAssignment; ValueAssignment; ObjectClassAssignment; ObjectAssignment;
   ObjectSetAssignment].

(** No comment occurs in [x]. *)
Definition comment_free (x : list ascii) : Prop :=
  forall pre c rest, x = pre ++ c ++ rest -> ~ comment c.

(** Two adjacent hyphens occur in [s]. *)
Fixpoint hyphen_pair (s : list ascii) : bool :=
  match s with
  | a :: (b :: _) as s' =>
      Ascii.eqb a "-" && Ascii.eqb b "-" || hyphen_pair s'
  | _ => false
  end.

(** The values that have [items()]: dictionaries and [ParseResults]. *)
Definition has_items (v : pyval) : bool :=
  match v with
  | PDict _ | PResults _ => true
  | _ => false
  end.

Definition two_modules_input : string :=
  "M DEFINITIONS ::= BEGIN A ::= INTEGER END M DEFINITIONS ::= BEGIN B ::= BOOLEAN END".

(** A clause [symbols FROM module] of an import list. *)
Record import_clause : Type := ImportClause {
  ic_symbols : list string;
  ic_module : string
}.

(** The tokens [Group(symbols_from_module)] leaves for a clause. *)
Definition clause_tokens (c : import_clause) : pyval :=
  PResults [PResults (map PStr (ic_symbols c)); PStr "FROM";
            PStr (ic_module c)].

Definition clause_symbols (c : import_clause) : pyval :=
  PList (map PStr (ic_symbols c)).

Definition clause_record (c : import_clause) : log_record :=
  LogDebug ("Converting imports from " +:+ quoted (ic_module c) +:+ ".").

(** An element of a constraint that restricts the values of a type: a
    single integer, a value range as [convert_value_range] leaves it, or an
    extension marker. *)
Inductive restriction : Type :=
| SingleValue (n : Z)
| ValueRange (minimum maximum : pyval)
| ExtensionMark.

(** The tokens [element_set_specs] leaves for it. *)
Definition restriction_tokens (c : restriction) : pyval :=
  match c with
  | SingleValue n => PResults [PResults [PInt n] ]
  | ValueRange minimum maximum => PResults [PTuple [minimum; maximum]]
  | ExtensionMark => PStr "..."
  end.

(** Its entry in a list of values. *)
Definition restriction_value (c : restriction) : pyval :=
  match c with
  | SingleValue n => PInt n
  | ValueRange minimum maximum => PTuple [minimum; maximum]
  | ExtensionMark => EXTENSION_MARKER
  end.

(** A word that can be a type reference: an upper-case letter, then
    letters, digits and hyphens. *)
Definition upper_word (w : list ascii) : bool :=
  match w with
  | c :: l => is_upper c && forallb Grammar.ident_rest l
  | [] => false
  end.

(** The word does not go on into [rest]. *)
Definition word_stop (rest : list ascii) : bool :=
  match rest with
  | [] => true
  | a :: _ => negb (Grammar.ident_rest a)
  end.

(** The kind of the token of an upper-case word: the word itself if it is a
    keyword. *)
Definition upper_word_kind (w : list ascii) : string :=
  if bool_decide (str_of w ∈ Asn1Parser.keywords) then str_of w else "TREF".

(** What follows a named component. *)
Inductive qualifier : Type :=
| NoQualifier
| IsOptional
| HasDefault (value : pyval).

Definition qualifier_tokens (q : qualifier) : list pyval :=
  match q with
  | NoQualifier => []
  | IsOptional => [PStr "OPTIONAL"]
  | HasDefault value => [PStr "DEFAULT"; value]
  end.

(** The components of a SEQUENCE or SET as [component_type_lists] leaves
    them: an extension marker, [COMPONENTS OF] a type, a group in version
    brackets, or a named component. *)
Inductive component : Type :=
| CExtension
| CComponentsOf (type_ : pyval)
| CGroup (members : list component)
| CNamed (name : string) (tag type_ : pyval) (q : qualifier).

Fixpoint component_tokens (c : component) : pyval :=
  match c with
  | CExtension => PStr "..."
  | CComponentsOf type_ => PResults [PStr "COMPONENTS OF"; type_]
  | CGroup members =>
      PResults [PStr "[["; PResults (map component_tokens members); PStr "]]"]
  | CNamed name tag type_ q =>
      PResults [PResults [PStr name; tag; type_];
                PResults (qualifier_tokens q)]
  end.

(** What [convert_members] makes of a component. *)
Inductive member_of : component -> pyval -> Prop :=
| member_of_extension : member_of CExtension EXTENSION_MARKER
| member_of_components type_ ty :
    (t0 <- idx type_ 0 ;; dict_get t0 "type") = ret ty ->
    member_of (CComponentsOf type_) (PDict {["components-of" := ty]})
| member_of_group members vs :
    Forall2 member_of members vs -> member_of (CGroup members) (PList vs)
| member_of_named name tag type_ q converted d :
    convert_type type_ = ret (PDict converted) ->
    d !! "name" = Some (PStr name) ->
    (q = IsOptional -> d !! "optional" = Some (PBool true)) ->
    (forall value, q = HasDefault value -> is_Some (d !! "default")) ->
    (forall t, convert_tag tag = ret t -> py_truth t = true ->
               d !! "tag" = Some t) ->
    (forall k, k <> "name" -> k <> "optional" -> k <> "default" ->
               k <> "tag" -> d !! k = converted !! k) ->
    member_of (CNamed name tag type_ q) (PDict d).

Section component_induction.

Context (P : component -> Prop).
Hypothesis HExtension : P CExtension.
Hypothesis HComponentsOf : forall type_, P (CComponentsOf type_).
Hypothesis HGroup : forall members, Forall P members -> P (CGroup members).
Hypothesis HNamed : forall name tag type_ q, P (CNamed name tag type_ q).

Fixpoint component_induction (c : component) : P c :=
  match c with
  | CExtension => HExtension
  | CComponentsOf type_ => HComponentsOf type_
  | CGroup members =>
      HGroup members
        ((fix all (l : list component) : Forall P l :=
            match l with
            | [] => @List.Forall_nil _ P
            | x :: l1 =>
                @List.Forall_cons _ P x l1 (component_induction x) (all l1)
            end) members)
  | CNamed name tag type_ q => HNamed name tag type_ q
  end.

End component_induction.

(** [convert_members(member_tokens[1])] *)
Definition group_of (member_tokens : pyval) : res pyval :=
  match member_tokens with
  | PTuple (_ :: x :: _) | PList (_ :: x :: _)
  | PResults (_ :: x :: _) | PTokens _ (_ :: x :: _) => convert_members x
  | _ => raise IndexError
  end.

(** * Properties *)

(** ** 13. The recursion bound *)

Section ParseFuel.

Context {F : Type}.
Variable defn : F -> pexpr F.
Variable forward_action : F -> option action.
Variable instring : list ascii.

Abbreviation parser := (@parser F).
Abbreviation parse_body := (parse_body defn forward_action instring).
Abbreviation parse := (parse defn forward_action instring).

Lemma and_loop_extends
    (f g : pexpr F -> nat -> list log_record -> presult) es :
  Forall (extends1 f g) es ->
  forall errorStop loc acc log,
    answers (and_loop f es errorStop loc acc log) ->
    and_loop g es errorStop loc acc log = and_loop f es errorStop loc acc log.
Proof.
  induction 1 as [|e es He Hes IH]; intros errorStop loc acc log Hans; [done|].
  assert (Hstep : forall (b : bool),
    answers (match f e loc log with
             | (log, Matched loc' tokens) => and_loop f es b loc' (acc ++ tokens) log
             | (log, o) => (log, if b && caught o then ParseSyntaxException else o)
             end) ->
    match g e loc log with
    | (log, Matched loc' tokens) => and_loop g es b loc' (acc ++ tokens) log
    | (log, o) => (log, if b && caught o then ParseSyntaxException else o)
    end =
    match f e loc log with
    | (log, Matched loc' tokens) => and_loop f es b loc' (acc ++ tokens) log
    | (log, o) => (log, if b && caught o then ParseSyntaxException else o)
    end).
  { intros b Hb. rewrite (He loc log).
    - destruct (f e loc log) as [lg [] ]; try done. by apply IH.
    - unfold answers in *. destruct (f e loc log) as [lg [] ]; simpl in *; try done.
      by rewrite andb_false_r in Hb. }
  destruct e; simpl in *; try (by apply Hstep). by apply IH.
Qed.

Lemma first_loop_extends
    (f g : pexpr F -> nat -> list log_record -> presult) es :
  Forall (extends1 f g) es ->
  forall loc log,
    answers (first_loop f es loc log) ->
    first_loop g es loc log = first_loop f es loc log.
Proof.
  induction 1 as [|e es He Hes IH]; intros loc log Hans; [done|].
  simpl in *. rewrite (He loc log).
  - destruct (f e loc log) as [lg o]. destruct (caught o); [by apply IH|done].
  - unfold answers in *. destruct (f e loc log) as [lg [] ]; simpl in *; done.
Qed.

Lemma parse_body_extends rec rec' :
  extends rec rec' -> extends (parse_body rec) (parse_body rec').
Proof.
  intros Hrec skip doActions e. revert skip doActions.
  apply (pexpr_induction (fun e => forall skip doActions,
           extends1 (parse_body rec skip doActions)
             (parse_body rec' skip doActions) e)); clear e.
  - intros e. destruct e; try done; intros skip doActions loc log Hans;
      try done; simpl in *.
    unfold answers in *.
    rewrite (Hrec true doActions _ loc log); [done|].
    destruct (rec true doActions (streamline (defn f)) loc log) as [lg [] ];
      simpl in *; done.
  - intros l H skip doActions loc log Hans.
    simpl in *. apply and_loop_extends; [|done].
    eapply Forall_impl; [exact H|]. intros e He. apply He.
  - intros l H skip doActions loc log Hans.
    simpl in *. apply first_loop_extends; [|done].
    eapply Forall_impl; [exact H|]. intros e He. apply He.
  - intros e IHe skip doActions loc log Hans.
    simpl in *. unfold answers in *. rewrite IHe; [done|].
    destruct (parse_body rec skip doActions e loc log) as [lg [] ]; simpl in *; done.
  - intros e IHe skip doActions loc log Hans.
    simpl in *. unfold answers in *. rewrite IHe.
    + destruct (parse_body rec skip doActions e loc log) as [lg [] ]; simpl in *; try done.
      rewrite (Hrec skip doActions _ loc0 lg); [done|].
      destruct (rec skip doActions (ZeroOrMore e) loc0 lg) as [lg' [] ]; simpl in *; done.
    + destruct (parse_body rec skip doActions e loc log) as [lg [] ]; simpl in *; done.
  - intros e IHe skip doActions loc log Hans.
    simpl in *. unfold answers in *. rewrite IHe.
    + destruct (parse_body rec skip doActions e loc log) as [lg [] ]; simpl in *; try done.
      rewrite (Hrec skip doActions _ loc0 lg); [done|].
      destruct (rec skip doActions (ZeroOrMore e) loc0 lg) as [lg' [] ]; simpl in *; done.
    + destruct (parse_body rec skip doActions e loc log) as [lg [] ]; simpl in *; done.
  - intros e IHe skip doActions loc log Hans.
    simpl in *. unfold answers in *. rewrite IHe; [done|].
    destruct (parse_body rec skip false e loc log) as [lg [] ]; simpl in *; done.
  - intros e IHe skip doActions loc log Hans.
    simpl in *. unfold answers in *. rewrite IHe; [done|].
    destruct (parse_body rec skip doActions e loc log) as [lg [] ]; simpl in *; done.
  - intros e IHe skip doActions loc log Hans.
    simpl in *. unfold answers in *. rewrite IHe; [done|].
    destruct (parse_body rec skip doActions e loc log) as [lg [] ]; simpl in *; done.
  - intros e IHe skip doActions loc log Hans.
    simpl in *. unfold answers in *. rewrite IHe; [done|].
    destruct (parse_body rec false doActions e _ log) as [lg [] ]; simpl in *; done.
  - intros t e IHe skip doActions loc log Hans.
    simpl in *. unfold answers in *. rewrite IHe; [done|].
    destruct (parse_body rec skip doActions e loc log) as [lg [] ]; simpl in *; done.
  - intros a e IHe skip doActions loc log Hans.
    simpl in *. unfold answers in *. rewrite IHe; [done|].
    destruct (parse_body rec skip doActions e loc log) as [lg [] ]; simpl in *; done.
Qed.

Lemma parse_S n : extends (parse n) (parse (S n)).
Proof.
  induction n as [|n IH].
  - intros skip doActions e loc log Hans. by destruct Hans.
  - change (parse (S (S n))) with (parse_body (parse (S n))).
    change (parse (S n)) with (parse_body (parse n)) at 1.
    by apply parse_body_extends.
Qed.

Lemma parse_mono n m :
  (n <= m)%nat -> extends (parse n) (parse m).
Proof.
  induction 1 as [|m Hle IH].
  - by intros skip doActions e loc log _.
  - intros skip doActions e loc log Hans.
    rewrite <- (IH skip doActions e loc log Hans).
    apply parse_S. unfold answers. by rewrite IH.
Qed.

End ParseFuel.

Section MatchFuel.

Context {F : Type}.
Variable defn : F -> tp.pattern F.
Variable tokens : list tp.Token.

Abbreviation match_body := (tp.match_body defn tokens).
Abbreviation match_ := (tp.match_ defn tokens).

Lemma sequence_loop_extends (f g : @tp.matcher F) ps :
  Forall (textends1 f g) ps ->
  forall pos acc,
    tanswers (tp.sequence_loop f ps pos acc) ->
    tp.sequence_loop g ps pos acc = tp.sequence_loop f ps pos acc.
Proof.
  induction 1 as [|p ps Hp Hps IH]; intros pos acc Hans; [done|].
  simpl in *. rewrite (Hp pos).
  - destruct (f p pos) as [pos' [] ]; try done. by apply IH.
  - unfold tanswers in *. destruct (f p pos) as [pos' [] ]; simpl in *; done.
Qed.

Lemma choice_loop_extends (f g : @tp.matcher F) ps :
  Forall (textends1 f g) ps ->
  forall saved,
    tanswers (tp.choice_loop f ps saved) ->
    tp.choice_loop g ps saved = tp.choice_loop f ps saved.
Proof.
  induction 1 as [|p ps Hp Hps IH]; intros saved Hans; [done|].
  simpl in *. rewrite (Hp saved).
  - destruct (f p saved) as [pos' [] ]; try done. by apply IH.
  - unfold tanswers in *. destruct (f p saved) as [pos' [] ]; simpl in *; done.
Qed.

Lemma match_body_extends rec rec' :
  textends rec rec' -> textends (match_body rec) (match_body rec').
Proof.
  intros Hrec p.
  apply (pattern_induction (fun p =>
           textends1 (match_body rec) (match_body rec') p)); clear p.
  - intros p. destruct p; try done; intros pos Hans; try done. simpl in *.
    by apply Hrec.
  - intros l H pos Hans. simpl in *. by apply sequence_loop_extends.
  - intros l H pos Hans. simpl in *. by apply choice_loop_extends.
  - intros p IH pos Hans. simpl in *. unfold tanswers in *. rewrite IH; [done|].
    destruct (match_body rec p pos) as [pos' [] ]; simpl in *; done.
  - intros p IH pos Hans. simpl in *. unfold tanswers in *. rewrite IH.
    + destruct (match_body rec p pos) as [pos' [] ]; simpl in *; try done.
      rewrite (Hrec _ pos'); [done|].
      destruct (rec (tp.ZeroOrMore p) pos') as [pos'' [] ]; simpl in *; done.
    + destruct (match_body rec p pos) as [pos' [] ]; simpl in *; done.
  - intros p IH pos Hans. simpl in *. unfold tanswers in *. rewrite IH.
    + destruct (match_body rec p pos) as [pos' [] ]; simpl in *; try done.
      rewrite (Hrec _ pos'); [done|].
      destruct (rec (tp.ZeroOrMore p) pos') as [pos'' [] ]; simpl in *; done.
    + destruct (match_body rec p pos) as [pos' [] ]; simpl in *; done.
  - intros p d IHp IHd pos Hans. simpl in *. unfold tanswers in *. rewrite IHp.
    + destruct (match_body rec p pos) as [pos' [] ]; simpl in *; try done.
      rewrite IHd.
      * destruct (match_body rec d pos') as [pos'' [] ]; simpl in *; try done.
        rewrite (Hrec _ pos''); [done|].
        destruct (rec (tp.DelimitedList_ p d) pos'') as [pos3 [] ]; simpl in *; done.
      * destruct (match_body rec d pos') as [pos'' [] ]; simpl in *; done.
    + destruct (match_body rec p pos) as [pos' [] ]; simpl in *; done.
  - intros p IH pos Hans. simpl in *. unfold tanswers in *. rewrite IH; [done|].
    destruct (match_body rec p pos) as [pos' [] ]; simpl in *; done.
  - intros n p IH pos Hans. simpl in *. unfold tanswers in *. rewrite IH; [done|].
    destruct (match_body rec p pos) as [pos' [] ]; simpl in *; done.
Qed.

Lemma match_S n : textends (match_ n) (match_ (S n)).
Proof.
  induction n as [|n IH].
  - intros p pos Hans. by destruct Hans.
  - change (match_ (S (S n))) with (match_body (match_ (S n))).
    change (match_ (S n)) with (match_body (match_ n)) at 1.
    by apply match_body_extends.
Qed.

Lemma match_mono n m : (n <= m)%nat -> textends (match_ n) (match_ m).
Proof.
  induction 1 as [|m Hle IH].
  - by intros p pos _.
  - intros p pos Hans. rewrite <- (IH p pos Hans).
    apply match_S. unfold tanswers. by rewrite IH.
Qed.

End MatchFuel.

(** More fuel does not change an answer of [parse_string]. *)
Lemma token_stage_mono n m string :
  (n <= m)%nat ->
  snd (token_stage n string) <> FuelExhausted ->
  token_stage m string = token_stage n string.
Proof.
  intros Hle. unfold token_stage, Asn1Parser.parse, tp.parse.
  destruct (tp.tokenize _ _ _) as [e|tokens]; [done|].
  unfold tp.Grammar_parse.
  set (toks := tokens ++ _).
  destruct (tp.match_ Asn1Parser.defn toks n Asn1Parser.grammar 0)
    as [pos r] eqn:E.
  intros Hans.
  assert (Hr : r <> tp.MatchOutOfFuel) by (intros ->; by apply Hans).
  rewrite (match_mono Asn1Parser.defn toks n m Hle Asn1Parser.grammar 0);
    rewrite E; done.
Qed.

Lemma combinator_stage_mono n m string :
  (n <= m)%nat ->
  snd (combinator_stage n string) <> FuelExhausted ->
  combinator_stage m string = combinator_stage n string.
Proof.
  intros Hle. unfold combinator_stage, Grammar.parse, parseString, parseString_at.
  set (s := expandtabs _). set (g := streamline _).
  destruct (parse Grammar.defn Grammar.forward_action s n true true g 0 [])
    as [lg o] eqn:E.
  intros Hans.
  assert (Ho : o <> OutOfFuel) by (intros ->; by apply Hans).
  rewrite (parse_mono Grammar.defn Grammar.forward_action s n m Hle
             true true g 0 []); rewrite E; done.
Qed.

Lemma parse_string_mono n m string :
  (n <= m)%nat ->
  result (parse_string n string) <> FuelExhausted ->
  parse_string m string = parse_string n string.
Proof.
  intros Hle. unfold parse_string. intros Hans.
  rewrite (token_stage_mono n m string Hle).
  - destruct (token_stage n string) as [out [] ]; try done.
    rewrite (combinator_stage_mono n m string Hle); [done|].
    destruct (combinator_stage n string) as [lg r]. simpl in *. done.
  - destruct (token_stage n string) as [out [] ]; simpl in *; done.
Qed.

Lemma parse_string_gives_intro n string r :
  parse_string n string = r -> result r <> FuelExhausted ->
  parse_string_gives string r.
Proof.
  intros <- Hans. exists n. intros fuel Hle. by apply parse_string_mono.
Qed.



Lemma parse_string_result_intro n string c :
  result (parse_string n string) = c -> c <> FuelExhausted ->
  parse_string_result string c.
Proof.
  intros <- Hans. exists n. intros fuel Hle.
  by rewrite (parse_string_mono n fuel).
Qed.

Lemma parse_string_result_functional string c1 c2 :
  parse_string_result string c1 -> parse_string_result string c2 -> c1 = c2.
Proof.
  intros (n1 & H1) (n2 & H2).
  rewrite <- (H1 (n1 `max` n2)%nat), <- (H2 (n1 `max` n2)%nat); [done|lia..].
Qed.

(** A run of [parse_string], evaluated with the bound [n]. *)
Ltac by_running n :=
  first [apply (parse_string_result_intro n)
        |apply (parse_string_gives_intro n)];
  [vm_compute; reflexivity|done].

Lemma parse_string_gives_result string r :
  parse_string_gives string r -> parse_string_result string (result r).
Proof. intros (n & Hn). exists n. intros fuel Hle. by rewrite Hn. Qed.

(** ** 14. Comments (C9) *)

Lemma starts_with_spec p s :
  starts_with p s = true <-> exists r, s = p ++ r.
Proof.
  revert s. induction p as [|a p IH]; intros s; simpl.
  - split; [eauto|done].
  - destruct s as [|b s]; [split; [done|intros [r [=] ] ]|].
    rewrite andb_true_iff, IH, Ascii.eqb_eq. split.
    + intros [-> [r ->] ]. eauto.
    + intros [r [= -> ->] ]. eauto.
Qed.

Lemma after_terminator_eq s :
  after_terminator s =
  if starts_with (chars "--") s then Some (drop 2 s)
  else if starts_with [NL] s then Some (drop 1 s) else None.
Proof.
  destruct s as [|a [|b s] ]; [done| |]; cbn.
  - destruct (Ascii.eqb a "-"), (Ascii.eqb a NL); done.
  - destruct (Ascii.eqb a "-"), (Ascii.eqb b "-"), (Ascii.eqb a NL); done.
Qed.

Lemma after_terminator_Some s rest :
  after_terminator s = Some rest ->
  exists term, (term = chars "--" \/ term = [NL]) /\ s = term ++ rest.
Proof.
  rewrite after_terminator_eq.
  destruct (starts_with (chars "--") s) eqn:E1.
  - apply starts_with_spec in E1 as [r ->]. intros [= <-]. eauto.
  - destruct (starts_with [NL] s) eqn:E2; [|done].
    apply starts_with_spec in E2 as [r ->]. intros [= <-]. eauto.
Qed.

Lemma after_terminator_None s :
  after_terminator s = None <-> terminator_at s = false.
Proof.
  rewrite after_terminator_eq. unfold terminator_at.
  destruct (starts_with (chars "--") s), (starts_with [NL] s); done.
Qed.

Lemma comment_prefix_eq s :
  re_prefix comment_re s =
  if starts_with (chars "--") s
  then star_lazy any_char (drop 2 s) after_terminator else None.
Proof.
  destruct s as [|a [|b s] ]; [done| |]; cbn.
  - by destruct (Ascii.eqb a "-").
  - by destruct (Ascii.eqb a "-"), (Ascii.eqb b "-").
Qed.

Lemma star_lazy_Some s rest :
  star_lazy any_char s after_terminator = Some rest ->
  exists body term,
    s = body ++ term ++ rest /\ (term = chars "--" \/ term = [NL]) /\
    forall i, (i < length body)%nat -> terminator_at (drop i s) = false.
Proof.
  induction s as [|a s IH]; [done|]. cbn [star_lazy].
  - destruct (after_terminator (a :: s)) eqn:E.
    + intros [= ->]. apply after_terminator_Some in E as (term & Hterm & E).
      exists [], term. repeat split; [done..|]. simpl; lia.
    + intros (body & term & -> & Hterm & Hbody)%IH.
      exists (a :: body), term. repeat split; [done..|].
      intros [|i] Hi; simpl in *.
      * by apply after_terminator_None.
      * apply Hbody. lia.
Qed.

Lemma star_lazy_None s :
  star_lazy any_char s after_terminator = None ->
  forall i, terminator_at (drop i s) = false.
Proof.
  induction s as [|a s IH]; [intros _ i; by rewrite drop_nil|].
  cbn [star_lazy].
  - destruct (after_terminator (a :: s)) eqn:E; [done|].
    intros H [|i]; simpl.
    + by apply after_terminator_None.
    + by apply IH.
Qed.

(** Whether a terminator starts inside the body does not depend on what
    follows the terminator of the comment. *)
Lemma terminator_at_inside body term rest i :
  term = chars "--" \/ term = [NL] ->
  (i < length body)%nat ->
  terminator_at (drop i (body ++ term ++ rest)) =
  terminator_at (drop i (body ++ term)).
Proof.
  intros Hterm Hi.
  rewrite !drop_app_le by lia.
  destruct (drop i body) as [|b [|b' bs] ] eqn:E.
  - apply (f_equal length) in E. rewrite length_drop in E. simpl in E. lia.
  - destruct Hterm as [->| ->]; done.
  - done.
Qed.

Lemma comment_prefix_Some s rest :
  re_prefix comment_re s = Some rest ->
  exists c, comment c /\ s = c ++ rest.
Proof.
  rewrite comment_prefix_eq.
  destruct (starts_with (chars "--") s) eqn:E; [|done].
  apply starts_with_spec in E as [s2 ->].
  replace (drop 2 (chars "--" ++ s2)) with s2 by done.
  intros (body & term & -> & Hterm & Hbody)%star_lazy_Some.
  exists (chars "--" ++ body ++ term). split.
  - constructor; [done|]. intros i Hi.
    rewrite <- (terminator_at_inside body term rest) by done. by apply Hbody.
  - cbn. by rewrite <- app_assoc.
Qed.

Lemma comment_prefix_None s :
  re_prefix comment_re s = None ->
  forall c rest, s = c ++ rest -> ~ comment c.
Proof.
  rewrite comment_prefix_eq. intros H c rest -> Hc.
  destruct Hc as [body term Hterm Hbody].
  replace (starts_with _ _) with true in H by done.
  replace (drop 2 _) with (body ++ term ++ rest) in H
    by (by rewrite <- !app_assoc).
  pose proof (star_lazy_None _ H (length body)) as Hno.
  rewrite drop_app_length in Hno.
  destruct Hterm as [->| ->]; done.
Qed.

Lemma comment_length c : comment c -> (3 <= length c)%nat.
Proof.
  intros [body term Hterm _]. rewrite !length_app.
  destruct Hterm as [->| ->]; simpl; lia.
Qed.

Lemma blank_spaced c : blank c = spaced c.
Proof.
  induction c as [|a c IH]; [done|]. cbn [blank map spaced].
  unfold blank in IH. rewrite IH. f_equal.
  unfold not_newline, NL, SP. by destruct (Ascii.eqb_spec a "010") as [->|].
Qed.

Lemma ignore_comments_stripped_fuel n s :
  (length s <= n)%nat -> stripped s (re_sub_fuel n comment_re blank s).
Proof.
  revert s. induction n as [|n IH]; intros s Hn.
  - destruct s; [constructor|simpl in Hn; lia].
  - destruct s as [|x s]; [constructor|]. simpl in Hn.
    cbn [re_sub_fuel].
    destruct (re_prefix comment_re (x :: s)) as [rest|] eqn:E.
    + destruct (comment_prefix_Some _ _ E) as (c & Hc & Hs).
      pose proof (comment_length c Hc) as Hlen.
      assert (Hl : length (x :: s) = (length c + length rest)%nat)
        by (by rewrite Hs, length_app).
      replace (length rest <? length (x :: s))%nat with true
        by (symmetry; apply Nat.ltb_lt; lia).
      replace (matched (x :: s) rest) with c.
      * rewrite Hs, blank_spaced. constructor; [done|].
        apply IH. simpl in Hl. lia.
      * unfold matched. rewrite Hl, Hs.
        replace (length c + length rest - length rest)%nat with (length c) by lia.
        by rewrite take_app_length.
    + constructor; [by apply comment_prefix_None|]. apply IH. lia.
Qed.

Lemma ignore_comments_stripped s : stripped s (ignore_comments_chars s).
Proof. by apply ignore_comments_stripped_fuel. Qed.

Lemma blank_length c : length (blank c) = length c.
Proof. apply length_map. Qed.

Lemma blank_newline c i : blank c !! i = Some NL <-> c !! i = Some NL.
Proof.
  unfold blank. rewrite list_lookup_fmap.
  destruct (c !! i) as [a|]; simpl; [|done].
  unfold not_newline. destruct (Ascii.eqb_spec a NL) as [->|Hne]; simpl; [done|].
  split; [done|]. intros [= ->]. done.
Qed.

Lemma stripped_length s out : stripped s out -> length out = length s.
Proof.
  induction 1; simpl; [done| |lia].
  rewrite <- blank_spaced. rewrite !length_app, blank_length. lia.
Qed.

Lemma stripped_newlines s out :
  stripped s out -> forall i, out !! i = Some NL <-> s !! i = Some NL.
Proof.
  induction 1 as [|c rest out Hc Hs IH|x s out Hx Hs IH]; intros i; [done| |].
  - rewrite <- blank_spaced. destruct (decide (i < length c)%nat).
    + rewrite !lookup_app_l by (rewrite ?blank_length; lia). apply blank_newline.
    + rewrite !lookup_app_r by (rewrite ?blank_length; lia).
      rewrite blank_length. apply IH.
  - destruct i; simpl; [done|apply IH].
Qed.

Lemma chars_str_of l : chars (str_of l) = l.
Proof. apply list_ascii_of_string_of_list_ascii. Qed.

(** A text starts with at most one comment, so [stripped] has one
    output. *)
Lemma terminator_at_term term rest :
  term = chars "--" \/ term = [NL] -> terminator_at (term ++ rest) = true.
Proof. by intros [->| ->]. Qed.

Lemma comment_body_shorter body1 term1 rest1 body2 term2 rest2 :
  term1 = chars "--" \/ term1 = [NL] ->
  term2 = chars "--" \/ term2 = [NL] ->
  (forall i, (i < length body2)%nat ->
             terminator_at (drop i (body2 ++ term2)) = false) ->
  body1 ++ term1 ++ rest1 = body2 ++ term2 ++ rest2 ->
  (length body2 <= length body1)%nat.
Proof.
  intros Hterm1 Hterm2 Hbody2 Heq.
  destruct (decide (length body2 <= length body1)%nat) as [|Hlt]; [done|].
  specialize (Hbody2 (length body1) ltac:(lia)).
  rewrite <- (terminator_at_inside _ _ rest2) in Hbody2 by (done || lia).
  rewrite <- Heq, drop_app_length in Hbody2.
  by rewrite terminator_at_term in Hbody2.
Qed.

Lemma comment_unique c1 rest1 c2 rest2 :
  comment c1 -> comment c2 -> c1 ++ rest1 = c2 ++ rest2 ->
  c1 = c2 /\ rest1 = rest2.
Proof.
  intros [body1 term1 Hterm1 Hbody1] [body2 term2 Hterm2 Hbody2] Heq.
  rewrite <- !app_assoc in Heq. apply app_inv_head in Heq.
  assert (Hlen : length body1 = length body2).
  { apply Nat.le_antisymm.
    - by apply (comment_body_shorter body2 term2 rest2 body1 term1 rest1).
    - by apply (comment_body_shorter body1 term1 rest1 body2 term2 rest2). }
  apply app_inj_1 in Heq as [-> Heq]; [|done].
  destruct Hterm1 as [->| ->], Hterm2 as [->| ->]; try done.
  all: by injection Heq as ->.
Qed.

Lemma stripped_functional s out1 out2 :
  stripped s out1 -> stripped s out2 -> out1 = out2.
Proof.
  intros H1. revert out2.
  induction H1 as [|c rest out Hc Hs IH|x s out Hx Hs IH]; intros out2 H2.
  - inversion H2 as [|c2 rest2 out' Hc2 Hs2 Heq|]; [done|].
    apply comment_length in Hc2. apply (f_equal length) in Heq.
    rewrite length_app in Heq. simpl in Heq. lia.
  - remember (c ++ rest) as s eqn:Es.
    destruct H2 as [|c2 rest2 out' Hc2 Hs2|x s2 out' Hx Hs2].
    + apply comment_length in Hc. apply (f_equal length) in Es.
      rewrite length_app in Es. simpl in Es. lia.
    + destruct (comment_unique _ _ _ _ Hc2 Hc Es) as [-> ->].
      f_equal. by apply IH.
    + by destruct (Hx c rest Es).
  - remember (x :: s) as s' eqn:Es.
    destruct H2 as [|c2 rest2 out' Hc2 Hs2|x2 s2 out' Hx2 Hs2].
    + done.
    + by destruct (Hx c2 rest2 eq_refl).
    + injection Es as -> ->. f_equal. by apply IH.
Qed.

(** C9 as stated fails for a comment that ends with the text.  In [a --b]
    the comment [--b] runs from its two hyphens to the end of the line, but
    no [--] and no newline closes it: [ignore_comments] leaves it as it is,
    where C9 wants its three characters replaced by spaces. *)
Lemma last_line_comment_kept :
  open_comment (chars "--b") /\
  ignore_comments "a --b" = "a --b" /\
  ignore_comments "a --b" <> str_of (chars "a " ++ spaced (chars "--b")).
Proof.
  split; [|by split].
  exists (chars "b"). split; [done|]. by intros [|[|i] ].
Qed.

(** C9, as the code has it: a comment is two hyphens, then the text up to
    and including the next two hyphens or newline, whichever comes first;
    two hyphens that nothing closes before the text ends start no comment.
    [ignore_comments] replaces each character of a comment but the newline
    by a space and leaves every character outside a comment unchanged:
    its output is the one string [stripped] allows.  So for every input the
    output has the length of the input, and a newline is at an offset of the
    output exactly when one is at that offset of the input: lines and
    columns are preserved. *)
Theorem ignore_comments_preserves_positions (s : string) :
  stripped (chars s) (chars (ignore_comments s)) /\
  (forall out, stripped (chars s) out -> out = chars (ignore_comments s)) /\
  length (chars (ignore_comments s)) = length (chars s) /\
  forall i, chars (ignore_comments s) !! i = Some NL <->
            chars s !! i = Some NL.
Proof.
  unfold ignore_comments. rewrite chars_str_of.
  pose proof (ignore_comments_stripped (chars s)) as H.
  split; [done|]. split; [|split].
  - intros out Hout. by apply (stripped_functional (chars s)).
  - by apply stripped_length.
  - by apply stripped_newlines.
Qed.


(** ** 15. Bit string literals (C7) *)

Lemma star_greedy_Some {A} p s (k : list ascii -> option A) r :
  star_greedy p s k = Some r ->
  exists body s', s = body ++ s' /\ Forall (fun c => p c = true) body /\ k s' = Some r.
Proof.
  induction s as [|c s IH]; simpl.
  - intros H. by exists [], [].
  - destruct (p c) eqn:Ep.
    + destruct (star_greedy p s k) eqn:E.
      * intros [= ->]. destruct (IH eq_refl) as (body & s' & -> & Hb & Hk).
        exists (c :: body), s'. repeat split; [|done]. by constructor.
      * intros H. by exists [], (c :: s).
    + intros H. by exists [], (c :: s).
Qed.

Lemma matched_app tok rest : matched (tok ++ rest) rest = tok.
Proof.
  unfold matched. rewrite length_app.
  replace (length tok + length rest - length rest)%nat with (length tok) by lia.
  by rewrite take_app_length.
Qed.

(** What the pattern of an hstring matches: a quote, hexadecimal digits in
    upper case and whitespace, a quote and [H]. *)
Lemma hstring_re_matches s rest :
  re_prefix Grammar.hstring_re s = Some rest ->
  exists body, s = "'"%char :: body ++ chars "'H" ++ rest /\
               Forall (fun c => hstring_char c = true) body.
Proof.
  unfold re_prefix, Grammar.hstring_re. cbn [re_match].
  destruct s as [|q s]; [done|].
  destruct (Ascii.eqb_spec q "'") as [->|]; [|done].
  intros (body & s' & -> & Hbody & Hk)%star_greedy_Some.
  exists body. split; [|done]. f_equal. f_equal.
  change (re_match (RStr "'H") s' Some = Some rest) in Hk.
  destruct s' as [|a [|b s'] ]; [done| |]; cbn in Hk.
  - by destruct (Ascii.eqb a "'").
  - destruct (Ascii.eqb_spec a "'") as [->|]; [|done].
    destruct (Ascii.eqb_spec b "H") as [->|]; [|done].
    by injection Hk as ->.
Qed.

Lemma bstring_re_matches s rest :
  re_prefix Grammar.bstring_re s = Some rest ->
  exists body, s = "'"%char :: body ++ chars "'B" ++ rest /\
               Forall (fun c => bstring_char c = true) body.
Proof.
  unfold re_prefix, Grammar.bstring_re. cbn [re_match].
  destruct s as [|q s]; [done|].
  destruct (Ascii.eqb_spec q "'") as [->|]; [|done].
  intros (body & s' & -> & Hbody & Hk)%star_greedy_Some.
  exists body. split; [|done]. f_equal. f_equal.
  change (re_match (RStr "'B") s' Some = Some rest) in Hk.
  destruct s' as [|a [|b s'] ]; [done| |]; cbn in Hk.
  - by destruct (Ascii.eqb a "'").
  - destruct (Ascii.eqb_spec a "'") as [->|]; [|done].
    destruct (Ascii.eqb_spec b "B") as [->|]; [|done].
    by injection Hk as ->.
Qed.

Lemma re_remove_filter p s :
  re_remove p s = List.filter (fun c => negb (p c)) s.
Proof.
  unfold re_remove, re_sub.
  assert (H : forall n, (length s <= n)%nat ->
            re_sub_fuel n (RClass p) (fun _ => []) s =
            List.filter (fun c => negb (p c)) s); [|by apply H].
  intros n. revert s. induction n as [|n IH]; intros s Hn.
  - destruct s; [done|simpl in Hn; lia].
  - destruct s as [|c s]; [done|]. simpl in Hn.
    cbn [re_sub_fuel re_prefix re_match List.filter].
    destruct (p c); cbn [negb].
    + replace (length s <? length (c :: s))%nat with true
        by (symmetry; apply Nat.ltb_lt; simpl; lia).
      cbn [app]. apply IH. lia.
    + f_equal. apply IH. lia.
Qed.

Lemma filter_ext_Forall {A} (f g : A -> bool) l :
  Forall (fun x => f x = g x) l -> List.filter f l = List.filter g l.
Proof.
  induction 1 as [|x l Hx Hl IH]; [done|]. simpl. by rewrite Hx, IH.
Qed.

Ltac each_char c :=
  destruct c as [ [] [] [] [] [] [] [] [] ]; vm_compute; try done.

Lemma hstring_noise_hex c :
  hstring_char c || chr_in "'H" c = true ->
  negb (hstring_noise c) = Grammar.hex_upper c.
Proof. each_char c. Qed.

Lemma bstring_noise_bit c :
  bstring_char c || chr_in "'B" c = true ->
  negb (bstring_noise c) = chr_in "01" c.
Proof. each_char c. Qed.

Lemma str_of_chars s : str_of (chars s) = s.
Proof. apply string_of_list_ascii_of_string. Qed.

Lemma convert_hstring_token body :
  Forall (fun c => hstring_char c = true) body ->
  let token := "'"%char :: body ++ chars "'H" in
  convert_hstring_str (str_of token) =
  "0x" +:+ str_of (lower (List.filter Grammar.hex_upper token)).
Proof.
  intros Hbody token. unfold convert_hstring_str.
  rewrite chars_str_of, re_remove_filter. do 3 f_equal.
  apply filter_ext_Forall. subst token.
  constructor; [done|]. apply Forall_app. split.
  - eapply Forall_impl; [exact Hbody|]. intros c Hc.
    apply hstring_noise_hex. by rewrite Hc.
  - by repeat constructor.
Qed.

Lemma convert_bstring_token body :
  Forall (fun c => bstring_char c = true) body ->
  let token := "'"%char :: body ++ chars "'B" in
  convert_bstring_str (str_of token) =
  "0b" +:+ str_of (List.filter (chr_in "01") token).
Proof.
  intros Hbody token. unfold convert_bstring_str.
  rewrite chars_str_of, re_remove_filter. do 2 f_equal.
  apply filter_ext_Forall. subst token.
  constructor; [done|]. apply Forall_app. split.
  - eapply Forall_impl; [exact Hbody|]. intros c Hc.
    apply bstring_noise_bit. by rewrite Hc.
  - by repeat constructor.
Qed.

Lemma length_append s1 s2 :
  String.length (s1 +:+ s2) = (String.length s1 + String.length s2)%nat.
Proof. induction s1 as [|c s1 IH]; simpl; [done|by rewrite IH]. Qed.

Lemma length_str_of l : String.length (str_of l) = length l.
Proof. induction l as [|c l IH]; simpl; [done|by rewrite IH]. Qed.

(** C7: for every token the pattern of an hstring matches, [convert_hstring]
    gives [0x] followed by the hexadecimal digits of the token, in lower
    case and without the whitespace; for every token the pattern of a
    bstring matches, [convert_bstring] gives [0b] followed by the binary
    digits of the token without the whitespace, as many as the token has.
    The value ['DE AD'H] becomes ["0xdead"], also in S5. *)
Theorem bit_string_literals_canonical :
  (forall s rest,
     re_prefix Grammar.hstring_re s = Some rest ->
     convert_hstring [PStr (str_of (matched s rest))] =
     ret (PStr ("0x" +:+
                str_of (lower (List.filter Grammar.hex_upper
                                 (matched s rest))))))
  /\ (forall s rest,
        re_prefix Grammar.bstring_re s = Some rest ->
        convert_bstring [PStr (str_of (matched s rest))] =
        ret (PStr ("0b" +:+
                   str_of (List.filter (chr_in "01") (matched s rest))))
        /\ String.length (convert_bstring_str (str_of (matched s rest))) =
           (2 + length (List.filter (chr_in "01") (matched s rest)))%nat)
  /\ convert_hstring [PStr "'DE AD'H"] = ret (PStr "0xdead")
  /\ parse_string_result S5
       (Returns
          (py_dict
             [("M", module_dict []
                      [("v", py_dict [("type", PStr "INTEGER");
                                      ("value", PInt 17)]);
                       ("b", py_dict [("type", PStr "BIT STRING");
                                      ("value", PStr "0xdead")])])])).
Proof.
  split; [|split; [|split; [done|] ] ].
  - intros s rest (body & -> & Hbody)%hstring_re_matches.
    rewrite (app_assoc body), app_comm_cons, matched_app.
    unfold convert_hstring. cbn [tok idx lookup list_lookup bind ret].
    by rewrite convert_hstring_token.
  - intros s rest (body & -> & Hbody)%bstring_re_matches.
    rewrite (app_assoc body), app_comm_cons, matched_app.
    unfold convert_bstring. cbn [tok idx lookup list_lookup bind ret].
    rewrite convert_bstring_token by done.
    split; [done|]. by rewrite length_append, length_str_of.
  - apply (parse_string_result_intro 10); [|done]. vm_compute. reflexivity.
Qed.

Lemma bit_string_literals_canonical_witness :
  convert_hstring [PStr "'DE AD'H"] = ret (PStr "0xdead") /\
  convert_bstring [PStr "'01 10'B"] = ret (PStr "0b0110").
Proof.
  split.
  - apply (proj1 bit_string_literals_canonical
             (chars "'DE AD'H END") (chars " END")).
    reflexivity.
  - apply (proj1 (proj2 bit_string_literals_canonical)
             (chars "'01 10'B END") (chars " END")).
    reflexivity.
Defined.


(** ** 16. Value ranges (C6) and hstrings (C10) *)



(** C10: the pattern of an hstring matches a quote, then only hexadecimal
    digits in upper case and whitespace, then a quote and [H].  A value
    written ['de ad'H] makes [parse_string] raise [ParseError]; written
    ['DE AD'H] it is accepted and becomes ["0xdead"]. *)
Theorem hstring_upper_case_only :
  (forall s rest,
     re_prefix Grammar.hstring_re s = Some rest ->
     exists body, s = "'"%char :: body ++ chars "'H" ++ rest /\
                  Forall (fun c => hstring_char c = true) body) /\
  re_prefix Grammar.hstring_re (chars "'de ad'H") = None /\
  parse_string_result lowercase_hstring_input
    (Raises (ParseError InvalidSyntaxTokens)) /\
  parse_string_result hstring_input
    (Returns
       (py_dict
          [("M", module_dict []
                   [("b", py_dict [("type", PStr "BIT STRING");
                                   ("value", PStr "0xdead")])])])).
Proof.
  split; [apply hstring_re_matches|]. split; [by vm_compute|].
  split; [by_running 4|].
  by_running 7.
Qed.

Lemma hstring_upper_case_only_witness :
  exists body,
    chars "'DE AD'H END" = "'"%char :: body ++ chars "'H" ++ chars " END" /\
    Forall (fun c => hstring_char c = true) body.
Proof.
  apply (proj1 hstring_upper_case_only (chars "'DE AD'H END") (chars " END")).
  reflexivity.
Defined.


(** ** 17. Enumerations (C1, C2) *)

Lemma mem_elem_of z l : mem z l = true <-> z ∈ l.
Proof.
  unfold mem. rewrite existsb_exists. split.
  - intros (x & Hin & ->%Z.eqb_eq). by apply list_elem_of_In.
  - intros Hin. exists z. split; [by apply list_elem_of_In|apply Z.eqb_refl].
Qed.

Lemma mem_not_elem_of z l : mem z l = false <-> z ∉ l.
Proof. rewrite <- mem_elem_of. by destruct (mem z l). Qed.

(** The loop [while number in used_numbers: number += 1] stops within
    [len(used_numbers)] rounds. *)
Lemma skip_used_spec used fuel start number :
  (start <= number)%Z ->
  (forall m, (start <= m < number)%Z -> m ∈ used) ->
  (number - start + Z.of_nat fuel = Z.of_nat (length used))%Z ->
  let k := skip_used fuel number used in
  (number <= k)%Z /\ (k ∉ used) /\ forall m, (start <= m < k)%Z -> m ∈ used.
Proof.
  revert number. induction fuel as [|fuel IH]; intros number Hle Hbelow Hfuel.
  - simpl. split; [lia|]. split; [|done].
    intros Hin.
    assert (Hsub : seqZ start (number - start + 1) ⊆+ used).
    { apply NoDup_submseteq; [apply NoDup_seqZ|].
      intros m [? ?]%elem_of_seqZ.
      destruct (decide (m = number)) as [->|]; [done|]. apply Hbelow. lia. }
    apply submseteq_length in Hsub. rewrite length_seqZ in Hsub. lia.
  - simpl. destruct (mem number used) eqn:E.
    + apply mem_elem_of in E.
      destruct (IH (number + 1)%Z) as (? & ? & ?); [lia| |lia|].
      * intros m Hm. destruct (decide (m = number)) as [->|]; [done|].
        apply Hbelow. lia.
      * split; [lia|done].
    + apply mem_not_elem_of in E. split; [lia|]. done.
Qed.

Lemma skip_used_smallest used number :
  (0 <= number)%Z ->
  (forall m, (0 <= m < number)%Z -> m ∈ used) ->
  let k := skip_used (length used) number used in
  (number <= k)%Z /\ smallest_unused used k.
Proof.
  intros Hn Hbelow.
  (* the rounds already made are those below [number] *)
  assert (Hlen : (number <= Z.of_nat (length used))%Z).
  { assert (Hsub : seqZ 0 number ⊆+ used).
    { apply NoDup_submseteq; [apply NoDup_seqZ|].
      intros m [? ?]%elem_of_seqZ. apply Hbelow. lia. }
    apply submseteq_length in Hsub. rewrite length_seqZ in Hsub. lia. }
  cbn zeta.
  (* more fuel than needed does not change the result *)
  assert (Hmore : forall fuel extra n,
    (0 <= n)%Z -> (forall m, (0 <= m < n)%Z -> m ∈ used) ->
    (n + Z.of_nat fuel = Z.of_nat (length used))%Z ->
    skip_used (fuel + extra) n used = skip_used fuel n used).
  { induction fuel as [|fuel IH]; intros extra n H0 Hb Hf.
    - destruct (skip_used_spec used 0 0 n) as (_ & Hnot & _); [lia|done|lia|].
      simpl in Hnot. destruct extra; [done|]. simpl.
      apply mem_not_elem_of in Hnot. by rewrite Hnot.
    - simpl. destruct (mem n used) eqn:E; [|done].
      apply IH; [lia| |lia].
      intros m Hm. destruct (decide (m = n)) as [->|]; [by apply mem_elem_of|].
      apply Hb. lia. }
  pose (fuel := Z.to_nat (Z.of_nat (length used) - number)).
  assert (Hfuel : (number + Z.of_nat fuel = Z.of_nat (length used))%Z)
    by (unfold fuel; lia).
  replace (skip_used (length used) number used)
    with (skip_used (fuel + Z.to_nat number) number used)
    by (f_equal; lia).
  rewrite Hmore by (try done; lia).
  destruct (skip_used_spec used fuel 0 number) as (? & ? & ?);
    [lia|done|lia|].
  split; [done|]. split; [lia|done].
Qed.

Lemma numbers_app vs ws : numbers (vs ++ ws) = numbers vs ++ numbers ws.
Proof. unfold numbers. by rewrite map_app, concat_app. Qed.

Lemma explicit_numbers_cons i items :
  explicit_numbers (i :: items) = explicit i ++ explicit_numbers items.
Proof. done. Qed.

Section Enumerations.

Variables (string : list ascii) (location : nat).

(** [add_used_numbers] appends the explicit numbers when none of them is
    used twice... *)
Lemma add_used_numbers_NoDup items used :
  NoDup (used ++ explicit_numbers items) ->
  add_used_numbers string location (map item_list items) used =
  ret (used ++ explicit_numbers items).
Proof.
  revert used. induction items as [|[name|name n] items IH]; intros used Hnd.
  - simpl. by rewrite app_nil_r.
  - simpl. by apply IH.
  - rewrite explicit_numbers_cons in *. simpl explicit in *.
    rewrite app_assoc in *. cbn.
    assert (Hn : n ∉ used).
    { apply NoDup_app in Hnd as (Hnd & _ & _).
      apply NoDup_app in Hnd as (_ & Hnd & _).
      intros Hin. apply (Hnd n Hin). by left. }
    apply mem_not_elem_of in Hn. rewrite Hn. by apply IH.
Qed.

(** ... and raises at the first number that is. *)
Lemma add_used_numbers_dup items used :
  NoDup used -> ~ NoDup (used ++ explicit_numbers items) ->
  exists n,
    add_used_numbers string location (map item_list items) used =
    raise (ParseError (DuplicatedNumber n (lineno location string))) /\
    n ∈ explicit_numbers items.
Proof.
  revert used. induction items as [|[name|name n] items IH]; intros used Hu Hd.
  - exfalso. apply Hd. simpl. by rewrite app_nil_r.
  - simpl. by apply IH.
  - rewrite explicit_numbers_cons in *. simpl explicit in *.
    cbn. destruct (mem n used) eqn:E.
    + exists n. split; [done|]. by left.
    + apply mem_not_elem_of in E.
      destruct (IH (used ++ [n])) as (m & Hm & Hin).
      * apply NoDup_app. split; [done|]. split; [|apply NoDup_singleton].
        intros x Hx ->%list_elem_of_singleton. done.
      * by rewrite <- app_assoc.
      * exists m. split; [done|]. by right.
Qed.
End Enumerations.

Lemma asList_item_tokens items :
  asList (map item_tokens items) = map item_list items.
Proof. unfold asList. by rewrite map_map. Qed.

Lemma smallest_unused_equiv used used' k :
  (forall m, m ∈ used <-> m ∈ used') ->
  smallest_unused used k -> smallest_unused used' k.
Proof.
  intros Heq (? & Hnot & Hbelow). split; [done|]. split.
  - by rewrite <- Heq.
  - intros m Hm. apply Heq. by apply Hbelow.
Qed.

(** The loop over the root enumeration never raises, and numbers the items
    as [root_numbered] says; [used_numbers] grows and stays free of
    repetitions. *)
Lemma root_loop_numbered reserved items : forall st,
  (forall m, m ∈ explicit_numbers items -> m ∈ reserved) ->
  (forall m, m ∈ used_numbers st <-> m ∈ reserved ++ numbers (values st)) ->
  (0 <= number st)%Z ->
  (forall m, (0 <= m < number st)%Z -> m ∈ used_numbers st) ->
  NoDup (used_numbers st) ->
  exists vs counter used',
    root_loop (map item_list items) st =
      ret (EnumState counter (values st ++ vs) used') /\
    root_numbered reserved (values st) (number st) items vs counter /\
    NoDup used' /\ (forall m, m ∈ used_numbers st -> m ∈ used').
Proof.
  induction items as [|[name|name n] items IH];
    intros st Hres Hused H0 Hbelow Hnd.
  - exists [], (number st), (used_numbers st).
    split; [|split; [constructor|done] ].
    destruct st. simpl. by rewrite app_nil_r.
  - destruct (skip_used_smallest (used_numbers st) (number st) H0 Hbelow)
      as (Hle & Hk).
    set (k := skip_used (length (used_numbers st)) (number st)
                (used_numbers st)) in *.
    destruct (IH (EnumState (k + 1) (values st ++ [pair name k])
                    (used_numbers st ++ [k])))
      as (vs & c & u & Hrun & Hnum & Hu & Hsub).
    + intros m Hm. apply Hres. by rewrite explicit_numbers_cons.
    + intros m. cbn [used_numbers values]. rewrite numbers_app.
      rewrite !elem_of_app, Hused, elem_of_app. cbn. tauto.
    + cbn. lia.
    + intros m Hm. cbn in *. apply elem_of_app.
      destruct (decide (m = k)) as [->|]; [right; by left|].
      left. destruct Hk as (_ & _ & Hk). apply Hk. lia.
    + cbn. apply NoDup_app. split; [done|]. split; [|apply NoDup_singleton].
      intros x Hx ->%list_elem_of_singleton. by destruct Hk as (_ & Hk & _).
    + exists (pair name k :: vs), c, u. split; [|split; [|split] ].
      * change (root_loop (map item_list (Bare name :: items)) st)
          with (root_loop (map item_list items)
                  (EnumState (k + 1) (values st ++ [pair name k])
                     (used_numbers st ++ [k]))).
        rewrite Hrun. cbn [values]. by rewrite <- app_assoc.
      * constructor; [|done]. by apply (smallest_unused_equiv (used_numbers st)).
      * done.
      * intros m Hm. apply Hsub. cbn. apply elem_of_app. by left.
  - destruct (IH (EnumState (number st) (values st ++ [pair name n])
                    (used_numbers st)))
      as (vs & c & u & Hrun & Hnum & Hu & Hsub).
    + intros m Hm. apply Hres. rewrite explicit_numbers_cons. by right.
    + intros m. cbn [used_numbers values]. rewrite numbers_app.
      rewrite Hused, !elem_of_app. cbn. split; [tauto|].
      intros [?|[?|Hm]]; [tauto..|].
      apply list_elem_of_singleton in Hm as ->. left. apply Hres.
      rewrite explicit_numbers_cons. by left.
    + done.
    + done.
    + done.
    + exists (pair name n :: vs), c, u. split; [|split; [|split] ].
      * change (root_loop (map item_list (Numbered name n :: items)) st)
          with (root_loop (map item_list items)
                  (EnumState (number st) (values st ++ [pair name n])
                     (used_numbers st))).
        rewrite Hrun. cbn [values]. by rewrite <- app_assoc.
      * by constructor.
      * done.
      * done.
Qed.


Lemma convert_enum_values_unfold string location root extension :
  convert_enum_values string location (enum_tokens root extension) =
  (used <- add_used_numbers string location (map item_list root) [] ;;
   st <- root_loop (map item_list root) (EnumState 0 [] used) ;;
   match extension with
   | None => ret (values st)
   | Some additional =>
       used <- add_used_numbers string location (map item_list additional)
                 (used_numbers st) ;;
       st <- additional_loop string location (map item_list additional)
               (EnumState (number st) (values st ++ [EXTENSION_MARKER]) used) ;;
       ret (values st)
   end).
Proof.
  unfold convert_enum_values, enum_tokens. cbn [unpack2 py_iter bind ret].
  cbn [py_asList bind ret]. rewrite asList_item_tokens.
  destruct extension as [additional|]; [|reflexivity].
  change (asList (PResults [] :: map item_tokens additional))
    with (PList [] :: asList (map item_tokens additional)).
  rewrite asList_item_tokens. reflexivity.
Qed.

Lemma root_run string location root :
  NoDup (explicit_numbers root) ->
  exists vs counter used,
    root_numbered (explicit_numbers root) [] 0 root vs counter /\
    (used' <- add_used_numbers string location (map item_list root) [] ;;
     root_loop (map item_list root) (EnumState 0 [] used')) =
    ret (EnumState counter vs used) /\
    NoDup used /\ (forall m, m ∈ explicit_numbers root -> m ∈ used).
Proof.
  intros Hnd. rewrite (add_used_numbers_NoDup _ _ _ []) by done.
  destruct (root_loop_numbered (explicit_numbers root) root
              (EnumState 0 [] (explicit_numbers root)))
    as (vs & c & u & Hrun & Hnum & Hu & Hsub); cbn; try done; try lia.
  - intros m. by rewrite app_nil_r.
  - exists vs, c, u. done.
Qed.

Lemma smallest_unused_functional used k1 k2 :
  smallest_unused used k1 -> smallest_unused used k2 -> k1 = k2.
Proof.
  intros (? & Hn1 & Hb1) (? & Hn2 & Hb2).
  destruct (Z.lt_trichotomy k1 k2) as [Hlt|[->|Hlt] ]; [|done|].
  - exfalso. apply Hn1, Hb2. lia.
  - exfalso. apply Hn2, Hb1. lia.
Qed.

(** The numbering of a root enumeration is determined by its items. *)
Lemma root_numbered_functional reserved before counter items vs1 c1 vs2 c2 :
  root_numbered reserved before counter items vs1 c1 ->
  root_numbered reserved before counter items vs2 c2 ->
  vs1 = vs2 /\ c1 = c2.
Proof.
  intros H1. revert vs2 c2.
  induction H1 as [| ? ? ? ? ? ? ? ? IH | ? ? ? ? ? ? ? Hk ? IH];
    intros vs2 c2 H2; inversion H2; subst.
  - done.
  - destruct (IH _ _ ltac:(eassumption)) as [-> ->]. done.
  - match goal with
    | H : smallest_unused _ ?k' |- _ =>
        assert (k = k') as <- by (eapply smallest_unused_functional; eauto)
    end.
    destruct (IH _ _ ltac:(eassumption)) as [-> ->]. done.
Qed.









(** ** 18. Assignment lists (C8) *)

Lemma assignment_step_tokens a log x :
  assignment_step a log (PStr (kind_tag (a_kind x))) (PStr (a_name x))
    (a_value x) =
  (if defined (a_name x) (kind_dict (a_kind x) a)
   then log ++ [already_defined (kind_label (a_kind x)) (a_name x)]
   else log,
   ret (kind_update (a_kind x) a
          (<[a_name x := a_value x]> (kind_dict (a_kind x) a)))).
Proof. by destruct x as [ [] name value]. Qed.

Lemma assignment_loop_cons x items a log :
  assignment_loop (map assignment_tokens (x :: items)) a log =
  assignment_loop (map assignment_tokens items)
    (kind_update (a_kind x) a
       (<[a_name x := a_value x]> (kind_dict (a_kind x) a)))
    (if defined (a_name x) (kind_dict (a_kind x) a)
     then log ++ [already_defined (kind_label (a_kind x)) (a_name x)]
     else log).
Proof.
  cbn [map assignment_loop assignment_tokens unpack3 py_iter bind ret].
  by rewrite assignment_step_tokens.
Qed.

Lemma assignment_loop_app items items' a log :
  assignment_loop (map assignment_tokens (items ++ items')) a log =
  match assignment_loop (map assignment_tokens items) a log with
  | (log', inr a') => assignment_loop (map assignment_tokens items') a' log'
  | r => r
  end.
Proof.
  revert a log. induction items as [|x items IH]; intros a log; [done|].
  rewrite <- app_comm_cons, !assignment_loop_cons. apply IH.
Qed.

Lemma kind_dict_update k k' a d :
  kind_dict k (kind_update k' a d) =
  if decide (kind_key k = kind_key k') then d else kind_dict k a.
Proof. by destruct k, k'. Qed.

(** The loop never raises on assignments of the five kinds; it only adds
    to the log, keeps what is defined defined, and leaves alone the entries
    that no assignment writes. *)
Lemma assignment_loop_total items : forall a log,
  exists a' log',
    assignment_loop (map assignment_tokens items) a log = (log', ret a') /\
    (exists more, log' = log ++ more) /\
    (forall k name, is_Some (kind_dict k a !! name) ->
                    is_Some (kind_dict k a' !! name)) /\
    (forall k name, Forall (fun x => ~ writes k name x) items ->
                    kind_dict k a' !! name = kind_dict k a !! name).
Proof.
  induction items as [|x items IH]; intros a log.
  - exists a, log. split; [done|]. split; [by exists []; rewrite app_nil_r|].
    done.
  - rewrite assignment_loop_cons.
    set (log1 := if defined _ _ then _ else log).
    destruct (IH (kind_update (a_kind x) a
                    (<[a_name x := a_value x]> (kind_dict (a_kind x) a)))
                 log1) as (a' & log' & -> & (more & ->) & Hdef & Hkeep).
    exists a', (log1 ++ more). split; [done|]. split; [|split].
    + unfold log1. destruct (defined _ _); [|by eexists].
      eexists. by rewrite <- app_assoc.
    + intros k name Hsome. apply Hdef. rewrite kind_dict_update.
      destruct (decide _) as [Hk|]; [|done].
      destruct (decide (a_name x = name)) as [<-|].
      * rewrite lookup_insert_eq. by eexists.
      * rewrite lookup_insert_ne by done.
        replace (kind_dict (a_kind x) a) with (kind_dict k a); [done|].
        by destruct k, (a_kind x).
    + intros k name [Hx Hitems]%Forall_cons. rewrite Hkeep by done.
      rewrite kind_dict_update. destruct (decide _) as [Hk|]; [|done].
      assert (a_name x <> name) by (intros Hn; by apply Hx).
      rewrite lookup_insert_ne by done.
      f_equal. by destruct k, (a_kind x).
Qed.

Lemma assignments_dict_lookup k a :
  exists d, assignments_dict a = PDict d /\
            d !! kind_key k = Some (PDict (kind_dict k a)).
Proof. eexists. split; [reflexivity|]. by destruct k. Qed.




(** ** 19. The two grammars (C4, C3) *)

(** C4: [parse_string] on S1 returns the dictionary of the module [M] with
    the single type [A]. *)
Theorem minimal_module :
  parse_string_result S1
    (Returns
       (py_dict
          [("M", py_dict
                   [("extensibility-implied", PBool false);
                    ("imports", py_dict []);
                    ("types", py_dict [("A", py_dict [("type", PStr "INTEGER")])]);
                    ("values", py_dict []);
                    ("object-classes", py_dict []);
                    ("object-sets", py_dict [])])])).
Proof. by_running 3. Qed.

(** What the two [try] blocks of [parse_string] are to the two grammars. *)
Lemma token_stage_alone fuel string :
  snd (token_stage fuel string) = tokenizer_grammar_alone fuel string.
Proof.
  unfold token_stage, tokenizer_grammar_alone.
  destruct (Asn1Parser.parse fuel (chars string)) as [ [] |parse_tree];
    try done.
  by destruct (Transformer.transform parse_tree) as [out [e|modules] ].
Qed.

Lemma combinator_stage_alone fuel string :
  snd (combinator_stage fuel string) =
  combinator_grammar_alone fuel (ignore_comments string).
Proof.
  unfold combinator_stage, combinator_grammar_alone.
  destruct (Grammar.parse fuel Grammar.create_grammar
              (chars (ignore_comments string))) as [lg [] ]; try done.
  cbn [snd idx]. by destruct (asList tokens).
Qed.

Lemma combinator_grammar_alone_mono n m text :
  (n <= m)%nat -> combinator_grammar_alone n text <> FuelExhausted ->
  combinator_grammar_alone m text = combinator_grammar_alone n text.
Proof.
  intros Hle. unfold combinator_grammar_alone, Grammar.parse, parseString,
    parseString_at.
  set (s := expandtabs _). set (g := streamline _).
  destruct (parse Grammar.defn Grammar.forward_action s n true true g 0 [])
    as [lg o] eqn:E.
  intros Hans.
  assert (Ho : o <> OutOfFuel) by (intros ->; by apply Hans).
  rewrite (parse_mono Grammar.defn Grammar.forward_action s n m Hle
             true true g 0 []); rewrite E; done.
Qed.

Lemma tokenizer_grammar_alone_mono n m string :
  (n <= m)%nat -> tokenizer_grammar_alone n string <> FuelExhausted ->
  tokenizer_grammar_alone m string = tokenizer_grammar_alone n string.
Proof.
  intros Hle Hans. rewrite <- !token_stage_alone in *.
  by rewrite (token_stage_mono n m).
Qed.

Lemma combinator_grammar_ends_intro n text c :
  combinator_grammar_alone n text = c -> c <> FuelExhausted ->
  combinator_grammar_ends text c.
Proof.
  intros <- Hans. exists n. intros fuel Hle.
  by apply combinator_grammar_alone_mono.
Qed.

Lemma tokenizer_grammar_ends_intro n text c :
  tokenizer_grammar_alone n text = c -> c <> FuelExhausted ->
  tokenizer_grammar_ends text c.
Proof.
  intros <- Hans. exists n. intros fuel Hle.
  by apply tokenizer_grammar_alone_mono.
Qed.

Lemma modelled_answer c : modelled c = true -> c <> FuelExhausted.
Proof. by intros H ->. Qed.

(** C3 as stated fails for either grammar.  The combinator grammar alone
    accepts a module named [SET], which [parse_string] rejects; the
    tokenizer-based grammar alone accepts a module with an empty [IMPORTS]
    list, which [parse_string] rejects, and on S1 it ends with the empty
    dictionary of the [Transformer], which is not what [parse_string]
    returns. *)
Lemma neither_grammar_alone :
  (parse_string_result keyword_module_input
     (Raises (ParseError InvalidSyntaxTokens)) /\
   forall fuel, (3 <= fuel)%nat ->
     combinator_grammar_alone fuel keyword_module_input =
     Returns (py_dict [("SET", module_dict [] [])])) /\
  (parse_string_result empty_imports_input
     (Raises (ParseError InvalidSyntax)) /\
   forall fuel, (3 <= fuel)%nat ->
     tokenizer_grammar_alone fuel empty_imports_input = Returns (py_dict [])) /\
  (parse_string_result S1
     (Returns
        (py_dict
           [("M", module_dict [("A", py_dict [("type", PStr "INTEGER")])] [])]))
   /\
   forall fuel, (3 <= fuel)%nat ->
     tokenizer_grammar_alone fuel S1 = Returns (py_dict [])).
Proof.
  repeat split.
  - by_running 1.
  - intros fuel Hle.
    rewrite (combinator_grammar_alone_mono 3 fuel); [by vm_compute|done|].
    by vm_compute.
  - by_running 3.
  - intros fuel Hle.
    rewrite (tokenizer_grammar_alone_mono 3 fuel); [by vm_compute|done|].
    by vm_compute.
  - by_running 3.
  - intros fuel Hle.
    rewrite (tokenizer_grammar_alone_mono 3 fuel); [by vm_compute|done|].
    by vm_compute.
Qed.

(** C3, as the code has it: both grammars are reached from [parse_string].
    The tokenizer-based grammar and the [Transformer] run first on the
    string as it is; if they raise, [parse_string] raises the same, logs
    nothing, and the combinator grammar is not run.  If they return, what
    they return is dropped and [parse_string] ends as the combinator grammar
    does on the string without its comments.  So [parse_string] returns a
    module tree only if the tokenizer-based grammar accepts the string and
    the combinator grammar accepts the string without its comments, and the
    tree is the one of the combinator grammar.  The comments have to go: on
    a module with a comment the tokenizer-based grammar alone accepts the
    string as it is, and the combinator grammar alone fails on it, where
    [parse_string] returns. *)
Theorem parse_string_runs_both_grammars :
  (forall string e,
     modelled (Raises e) = true ->
     tokenizer_grammar_ends string (Raises e) ->
     exists out, parse_string_gives string (Run out [] (Raises e))) /\
  (forall string tree c,
     modelled c = true ->
     tokenizer_grammar_ends string (Returns tree) ->
     combinator_grammar_ends (ignore_comments string) c ->
     parse_string_result string c) /\
  (forall string modules,
     parse_string_result string (Returns modules) ->
     (exists tree, tokenizer_grammar_ends string (Returns tree)) /\
     combinator_grammar_ends (ignore_comments string) (Returns modules)) /\
  (parse_string_result comment_input
     (Returns
        (py_dict
           [("M", module_dict [("A", py_dict [("type", PStr "INTEGER")])] [])]))
   /\
   tokenizer_grammar_ends comment_input (Returns (py_dict [])) /\
   combinator_grammar_ends comment_input (Raises (ParseError InvalidSyntax))).
Proof.
  split; [|split; [|split] ].
  - intros string e He (n & Hn).
    exists (fst (token_stage n string)).
    apply (parse_string_gives_intro n); [|done].
    specialize (Hn n (le_n _)). rewrite <- token_stage_alone in Hn.
    unfold parse_string.
    destruct (token_stage n string) as [out r]. cbn in Hn |- *. by subst r.
  - intros string tree c Hc (n1 & H1) (n2 & H2).
    apply (parse_string_result_intro (n1 `max` n2)); [|by apply modelled_answer].
    specialize (H1 (n1 `max` n2)%nat ltac:(lia)).
    specialize (H2 (n1 `max` n2)%nat ltac:(lia)).
    rewrite <- token_stage_alone in H1. rewrite <- combinator_stage_alone in H2.
    unfold parse_string.
    destruct (token_stage _ string) as [out r]. cbn in H1. subst r.
    by destruct (combinator_stage _ string) as [lg r].
  - intros string modules (n & Hn).
    assert (Hrun := Hn n (le_n _)). unfold parse_string in Hrun.
    destruct (token_stage n string) as [out r] eqn:Etok.
    assert (Hr : exists tree, r = Returns tree).
    { destruct r as [tree| |]; [by eexists|done..]. }
    destruct Hr as [tree ->].
    destruct (combinator_stage n string) as [lg r] eqn:Ecomb.
    cbn in Hrun. subst r. split.
    + exists tree. apply (tokenizer_grammar_ends_intro n); [|done].
      by rewrite <- token_stage_alone, Etok.
    + apply (combinator_grammar_ends_intro n); [|done].
      by rewrite <- combinator_stage_alone, Ecomb.
  - split; [by_running 3|]. split.
    + apply (tokenizer_grammar_ends_intro 3); [|done]. vm_compute. reflexivity.
    + apply (combinator_grammar_ends_intro 3); [|done].
      vm_compute. reflexivity.
Qed.

Lemma parse_string_runs_both_grammars_witness :
  (exists tree, tokenizer_grammar_ends S1 (Returns tree)) /\
  combinator_grammar_ends (ignore_comments S1)
    (Returns
       (py_dict
          [("M", module_dict [("A", py_dict [("type", PStr "INTEGER")])] [])])).
Proof.
  apply (proj1 (proj2 (proj2 parse_string_runs_both_grammars)) S1).
  apply (parse_string_result_intro 3); [vm_compute; reflexivity|done].
Defined.


(** ** 20. Reserved words (C5) *)

Lemma reserved_words_match w rest :
  w ∈ guarded_words -> word_end rest = true ->
  is_Some (re_prefix Grammar.reserved_words_re (chars w ++ rest)).
Proof.
  intros Hw Hend. unfold guarded_words in Hw.
  repeat (apply elem_of_cons in Hw as [->|Hw]);
    [..|by apply elem_of_nil in Hw];
    (destruct rest as [|c rest]; [by eexists|]);
    cbn in Hend |- *; rewrite Hend; by eexists.
Qed.

Lemma span_app_stop p pre s :
  Forall (fun c => p c = true) pre ->
  match s with c :: _ => p c = false | [] => True end ->
  span p (pre ++ s) = pre.
Proof.
  intros Hpre Hs. induction Hpre as [|c pre Hc _ IH]; simpl.
  - destruct s as [|c s]; [done|]. simpl. by rewrite Hs.
  - by rewrite Hc, IH.
Qed.

Section Guard.

Variable instring : list ascii.

(** The lookahead [NotAny(reserved_words)] fails in front of a guarded
    word. *)
Lemma not_reserved_words_fails rec loc log pre w rest :
  w ∈ guarded_words ->
  Forall (fun c => pyp_white c = true) pre ->
  word_end rest = true ->
  drop loc instring = pre ++ chars w ++ rest ->
  parse_body Grammar.defn Grammar.forward_action instring rec true true
    (NotAny Grammar.reserved_words) loc log = (log, ParseException).
Proof.
  intros Hw Hpre Hend Hdrop.
  cbn [parse_body Grammar.reserved_words streamline].
  unfold parse_Regex, preParse. rewrite Hdrop.
  rewrite span_app_stop; [|done|].
  2: { unfold guarded_words in Hw.
       repeat (apply elem_of_cons in Hw as [->|Hw]);
         [done..|by apply elem_of_nil in Hw]. }
  rewrite <- drop_drop, Hdrop, drop_app_length.
  by destruct (reserved_words_match w rest Hw Hend) as [x ->].
Qed.

Lemma guarded_reference_fails n f re loc log pre w rest :
  streamline (Grammar.defn f) =
    And [NotAny Grammar.reserved_words; Regex re] ->
  Grammar.forward_action f = None ->
  w ∈ guarded_words ->
  Forall (fun c => pyp_white c = true) pre ->
  word_end rest = true ->
  drop loc instring = pre ++ chars w ++ rest ->
  parse Grammar.defn Grammar.forward_action instring (S (S n)) true true
    (Forward f) loc log = (log, ParseException).
Proof.
  intros Hdef Hact Hw Hpre Hend Hdrop.
  cbn [parse parse_body]. rewrite Hdef.
  cbn [parse_body and_loop].
  pose proof (not_reserved_words_fails
                (parse Grammar.defn Grammar.forward_action instring n)
                loc log pre w rest Hw Hpre Hend Hdrop) as Hfail.
  cbn [parse_body] in Hfail. by rewrite Hfail.
Qed.
End Guard.

(** C5, as the code has it: the lookahead in front of [type_reference] and
    [module_reference] is [NotAny(reserved_words)], and [reserved_words] is
    the pattern [(END|SEQUENCE|ENUMERATED)(\s|$)].  At any position of any
    input where, after optional whitespace, one of these three words stands
    and is followed by whitespace or by the end of the input, neither
    production accepts a reference. *)
Theorem reserved_word_guard (instring : list ascii) (n loc : nat)
    (log : list log_record) (pre : list ascii) (w : string)
    (rest : list ascii) :
  w ∈ guarded_words ->
  Forall (fun c => pyp_white c = true) pre ->
  word_end rest = true ->
  drop loc instring = pre ++ chars w ++ rest ->
  parse Grammar.defn Grammar.forward_action instring (S (S n)) true true
    (Forward Grammar.type_reference) loc log = (log, ParseException) /\
  parse Grammar.defn Grammar.forward_action instring (S (S n)) true true
    (Forward Grammar.module_reference) loc log = (log, ParseException).
Proof.
  intros Hw Hpre Hend Hdrop.
  split; by eapply guarded_reference_fails.
Qed.

Lemma reserved_word_guard_witness :
  parse Grammar.defn Grammar.forward_action (chars "A ::=  END") 2 true true
    (Forward Grammar.type_reference) 5 [] = ([], ParseException) /\
  parse Grammar.defn Grammar.forward_action (chars "A ::=  END") 2 true true
    (Forward Grammar.module_reference) 5 [] = ([], ParseException).
Proof.
  apply (reserved_word_guard (chars "A ::=  END") 0 5 [] (chars "  ") "END" []).
  - by vm_compute; left.
  - by repeat constructor.
  - reflexivity.
  - reflexivity.
Defined.

(** C5 as stated fails for the reserved words outside the pattern:
    [type_reference] and [module_reference] accept [SET], [CHOICE] and
    [TAGS] as references, and [parse_string] takes the [ANY] of
    [A ::= ANY] for a reference to a type named [ANY]. *)
Lemma reference_accepts_reserved_word :
  Grammar.parse 2 (Forward Grammar.type_reference) (chars "SET") =
    ([], Matched 3 [PStr "SET"]) /\
  Grammar.parse 2 (Forward Grammar.type_reference) (chars "CHOICE") =
    ([], Matched 6 [PStr "CHOICE"]) /\
  Grammar.parse 2 (Forward Grammar.type_reference) (chars "TAGS") =
    ([], Matched 4 [PStr "TAGS"]) /\
  Grammar.parse 2 (Forward Grammar.module_reference) (chars "SET") =
    ([], Matched 3 [PStr "SET"]) /\
  Grammar.parse 2 (Forward Grammar.module_reference) (chars "CHOICE") =
    ([], Matched 6 [PStr "CHOICE"]) /\
  Grammar.parse 2 (Forward Grammar.module_reference) (chars "TAGS") =
    ([], Matched 4 [PStr "TAGS"]) /\
  In "SET" Asn1Parser.keywords /\ In "CHOICE" Asn1Parser.keywords /\
  In "TAGS" Asn1Parser.keywords /\ In "ANY" Asn1Parser.keywords /\
  convert_defined_type [PStr "ANY"] = ret (py_dict [("type", PStr "ANY")]) /\
  parse_string_result any_type_input
    (Returns
       (py_dict
          [("M", module_dict [("A", py_dict [("type", PStr "ANY")])] [])])).
Proof.
  repeat split; try reflexivity.
  1-4: cbn; tauto.
  by_running 6.
Qed.

(** ** 21. Enumerations: the returned list *)

Lemma add_used_numbers_ret string location items used used' :
  NoDup used ->
  add_used_numbers string location (map item_list items) used = ret used' ->
  used' = used ++ explicit_numbers items /\ NoDup used'.
Proof.
  intros Hu Hret.
  destruct (decide (NoDup (used ++ explicit_numbers items))) as [Hnd|Hnd].
  - rewrite add_used_numbers_NoDup in Hret by done. by injection Hret as <-.
  - destruct (add_used_numbers_dup string location items used Hu Hnd)
      as (n & Hn & _). by rewrite Hn in Hret.
Qed.

(** In both loops the numbers given so far, with the explicit numbers of
    the items still to come, are the used numbers. *)
Lemma root_loop_used items : forall st st',
  root_loop (map item_list items) st = ret st' ->
  numbers (values st) ++ explicit_numbers items ≡ₚ used_numbers st ->
  numbers (values st') ≡ₚ used_numbers st' /\
  map value_name (values st') =
    map value_name (values st) ++ map (fun i => Some (Some (item_name i))) items.
Proof.
  induction items as [|[name|name n] items IH]; intros st st' Hrun Hperm.
  - injection Hrun as <-. rewrite !app_nil_r in *. done.
  - simpl in Hrun. set (k := skip_used _ _ _) in Hrun.
    apply IH in Hrun as [Hused Hnames].
    + split; [done|]. rewrite Hnames. cbn [values].
      by rewrite map_app, <- app_assoc.
    + cbn [values used_numbers]. rewrite numbers_app.
      change (numbers [PTuple [PStr name; PInt k] ]) with [k].
      rewrite explicit_numbers_cons in Hperm. cbn [explicit app] in Hperm.
      rewrite <- Hperm, <- !app_assoc. f_equiv. apply Permutation_app_comm.
  - cbn in Hrun. apply IH in Hrun as [Hused Hnames].
    + split; [done|]. rewrite Hnames. cbn [values].
      by rewrite map_app, <- app_assoc.
    + cbn [values used_numbers]. rewrite numbers_app.
      rewrite explicit_numbers_cons in Hperm. cbn in Hperm |- *.
      by rewrite <- app_assoc.
Qed.

Lemma additional_loop_used string location items : forall st st',
  additional_loop string location (map item_list items) st = ret st' ->
  NoDup (used_numbers st) ->
  numbers (values st) ++ explicit_numbers items ≡ₚ used_numbers st ->
  NoDup (used_numbers st') /\
  numbers (values st') ≡ₚ used_numbers st' /\
  map value_name (values st') =
    map value_name (values st) ++ map (fun i => Some (Some (item_name i))) items.
Proof.
  induction items as [|[name|name n] items IH]; intros st st' Hrun Hnd Hperm.
  - injection Hrun as <-. rewrite !app_nil_r in *. done.
  - cbn in Hrun. destruct (mem (number st) (used_numbers st)) eqn:E; [done|].
    apply mem_not_elem_of in E.
    apply IH in Hrun as (Hnd' & Hused & Hnames).
    + split; [done|]. split; [done|]. rewrite Hnames. cbn [values].
      by rewrite map_app, <- app_assoc.
    + cbn. apply NoDup_app. split; [done|]. split; [|apply NoDup_singleton].
      by intros x Hx ->%list_elem_of_singleton.
    + cbn [values used_numbers]. rewrite numbers_app.
      change (numbers [PTuple [PStr name; PInt (number st)] ])
        with [number st].
      rewrite explicit_numbers_cons in Hperm. cbn [explicit app] in Hperm.
      rewrite <- Hperm, <- !app_assoc. f_equiv. apply Permutation_app_comm.
  - cbn in Hrun. apply IH in Hrun as (Hnd' & Hused & Hnames).
    + split; [done|]. split; [done|]. rewrite Hnames. cbn [values].
      by rewrite map_app, <- app_assoc.
    + done.
    + cbn [values used_numbers]. rewrite numbers_app.
      rewrite explicit_numbers_cons in Hperm. cbn in Hperm |- *.
      by rewrite <- app_assoc.
Qed.

(** What a run of [convert_enum_values] that returns leaves behind. *)
Lemma convert_enum_values_ret string location root extension vals :
  convert_enum_values string location (enum_tokens root extension) =
    ret vals ->
  NoDup (numbers vals) /\
  map value_name vals = map Some (enum_names root extension).
Proof.
  rewrite convert_enum_values_unfold. intros Hret.
  destruct (add_used_numbers string location (map item_list root) [])
    as [e|used] eqn:Eused; [done|].
  apply add_used_numbers_ret in Eused as [-> Hnd]; [|constructor].
  cbn [bind app] in Hret.
  destruct (root_loop (map item_list root) _) as [e|st] eqn:Eroot; [done|].
  cbn [bind] in Hret.
  assert (Hu : NoDup (used_numbers st)).
  { destruct (root_run string location root Hnd)
      as (vs & c & u & _ & Hrun & Hu & _).
    rewrite (add_used_numbers_NoDup _ _ _ []) in Hrun by done.
    cbn [bind ret app] in Hrun. rewrite Eroot in Hrun. by injection Hrun as ->. }
  apply root_loop_used in Eroot as [Hused Hnames]; [|done].
  cbn [values] in Hnames.
  destruct extension as [additional|]; cbn [enum_names].
  - destruct (add_used_numbers string location (map item_list additional) _)
      as [e|used'] eqn:Eadd; [done|].
    apply add_used_numbers_ret in Eadd as [-> Hnd']; [|done].
    cbn [bind] in Hret.
    destruct (additional_loop string location (map item_list additional) _)
      as [e|st'] eqn:Eloop; [done|].
    injection Hret as <-.
    apply additional_loop_used in Eloop as (Hnd'' & Hused' & Hnames').
    + split; [by rewrite Hused'|]. rewrite Hnames'. cbn [values].
      rewrite map_app, Hnames. rewrite <- app_assoc.
      unfold enum_names. rewrite map_app. cbn [map app].
      by rewrite !map_map.
    + done.
    + cbn [values used_numbers]. rewrite numbers_app.
      change (numbers [EXTENSION_MARKER]) with (@nil Z).
      rewrite <- app_assoc. cbn [app]. by rewrite Hused.
  - injection Hret as <-. split; [by rewrite Hused|].
    rewrite Hnames. unfold enum_names. cbn [map app].
    by rewrite app_nil_r, map_map.
Qed.

(** X1: when [convert_enum_values] returns, no number occurs twice among
    the entries of the returned list, whatever the mix of numbered and
    unnumbered items in front of and behind the extension marker. *)
Theorem enum_values_distinct string location root extension vals :
  convert_enum_values string location (enum_tokens root extension) =
    ret vals ->
  NoDup (numbers vals).
Proof. by intros [? ?]%convert_enum_values_ret. Qed.

Lemma enum_values_distinct_witness :
  NoDup (numbers [pair "a" 0; pair "b" 5; pair "c" 1; EXTENSION_MARKER;
                  pair "d" 2]).
Proof.
  apply (enum_values_distinct [] 0 [Bare "a"; Numbered "b" 5; Bare "c"]
           (Some [Bare "d"])).
  reflexivity.
Defined.

(** X2: when [convert_enum_values] returns, the returned list has one entry
    for every item, in the order written: a pair of name and number for each
    root item, then [EXTENSION_MARKER] if the enumeration has an extension
    marker, then a pair of name and number for each additional item. *)
Theorem enum_values_names string location root extension vals :
  convert_enum_values string location (enum_tokens root extension) =
    ret vals ->
  map value_name vals = map Some (enum_names root extension) /\
  length vals = length (enum_names root extension).
Proof.
  intros [_ Hnames]%convert_enum_values_ret. split; [done|].
  apply (f_equal length) in Hnames. by rewrite !length_map in Hnames.
Qed.

Lemma enum_values_names_witness :
  map value_name [pair "a" 0; pair "b" 5; pair "c" 1; EXTENSION_MARKER;
                  pair "d" 2] =
    map Some (enum_names [Bare "a"; Numbered "b" 5; Bare "c"]
                (Some [Bare "d"])) /\
  length [pair "a" 0; pair "b" 5; pair "c" 1; EXTENSION_MARKER; pair "d" 2] =
    length (enum_names [Bare "a"; Numbered "b" 5; Bare "c"] (Some [Bare "d"])).
Proof.
  apply (enum_values_names [] 0 [Bare "a"; Numbered "b" 5; Bare "c"]
           (Some [Bare "d"])).
  reflexivity.
Defined.

(** ** 22. Assignment lists: distinct names, shared dictionaries, unknown kinds *)

Lemma writes_target k name x :
  writes k name x <-> target x = (kind_key k, name).
Proof. unfold writes, target. split; [by intros [-> ->]|by intros [= -> ->] ]. Qed.

Lemma kind_dict_key k k' a :
  kind_key k = kind_key k' -> kind_dict k a = kind_dict k' a.
Proof. by destruct k, k'. Qed.

(** The loop over assignments that write different entries logs nothing and
    fills every entry. *)
Lemma assignment_loop_distinct items : forall a log,
  NoDup (map target items) ->
  Forall (fun x => kind_dict (a_kind x) a !! a_name x = None) items ->
  exists a',
    assignment_loop (map assignment_tokens items) a log = (log, ret a') /\
    Forall (fun x => kind_dict (a_kind x) a' !! a_name x = Some (a_value x))
      items.
Proof.
  induction items as [|x items IH]; intros a log Hnd Hnone.
  - by exists a.
  - rewrite assignment_loop_cons.
    apply NoDup_cons in Hnd as [Hx Hnd]. apply Forall_cons in Hnone as [Hx0 Hnone].
    unfold defined. rewrite bool_decide_eq_false_2 by (rewrite Hx0; by intros [? ?]).
    set (a1 := kind_update _ _ _).
    assert (Hrest : Forall (fun y => ~ writes (a_kind x) (a_name x) y) items).
    { apply Forall_forall. intros y Hy Hw. apply Hx.
      apply writes_target in Hw.
      change (target x) with (kind_key (a_kind x), a_name x).
      rewrite <- Hw. apply list_elem_of_fmap. by exists y. }
    destruct (IH a1 log Hnd) as (a' & Hrun & Hall).
    { apply Forall_forall. intros y Hy. unfold a1. rewrite kind_dict_update.
      rewrite Forall_forall in Hnone, Hrest.
      destruct (decide _) as [Hk|]; [|by apply Hnone].
      rewrite lookup_insert_ne.
      - rewrite <- (kind_dict_key _ _ a Hk). by apply Hnone.
      - intros Hn. apply (Hrest y Hy). by split. }
    exists a'. split; [done|]. constructor; [|done].
    destruct (assignment_loop_total items a1 log)
      as (a'' & log'' & Hrun' & _ & _ & Hkeep).
    rewrite Hrun in Hrun'. injection Hrun' as _ <-.
    rewrite Hkeep by done. unfold a1. rewrite kind_dict_update.
    rewrite decide_True by done. by rewrite lookup_insert_eq.
Qed.

(** X3: on a list of assignments no two of which write the same name into
    the same dictionary, [convert_assignment_list] logs nothing and returns
    a dictionary in which every assignment of the list is found: under the
    key of its kind, its name is bound to its value. *)
Theorem distinct_assignments_no_warning (items : list assignment) :
  NoDup (map target items) ->
  exists d,
    convert_assignment_list (map assignment_tokens items) =
      ([], ret (PDict d)) /\
    forall x, x ∈ items ->
      exists entries,
        d !! kind_key (a_kind x) = Some (PDict entries) /\
        entries !! a_name x = Some (a_value x).
Proof.
  intros Hnd. unfold convert_assignment_list.
  destruct (assignment_loop_distinct items (Assignments ∅ ∅ ∅ ∅) [] Hnd)
    as (a' & -> & Hall).
  { apply Forall_forall. intros x _. by destruct (a_kind x). }
  cbn [bind ret].
  destruct (assignments_dict_lookup TypeAssignment a') as (d & Hd & _).
  exists d. rewrite Hd. split; [done|].
  intros x Hx. rewrite Forall_forall in Hall.
  destruct (assignments_dict_lookup (a_kind x) a') as (d' & Hd' & Hk).
  rewrite Hd in Hd'. injection Hd' as <-.
  exists (kind_dict (a_kind x) a'). split; [done|]. by apply Hall.
Qed.

Lemma distinct_assignments_no_warning_witness :
  exists d,
    convert_assignment_list
      [PTuple [PStr "parameterized-type-assignment"; PStr "T"; PInt 1];
       PTuple [PStr "parameterized-value-assignment"; PStr "T"; PInt 2]] =
      ([], ret (PDict d)) /\
    forall x,
      x ∈ [Assignment TypeAssignment "T" (PInt 1);
           Assignment ValueAssignment "T" (PInt 2)] ->
      exists entries,
        d !! kind_key (a_kind x) = Some (PDict entries) /\
        entries !! a_name x = Some (a_value x).
Proof.
  apply (distinct_assignments_no_warning
           [Assignment TypeAssignment "T" (PInt 1);
            Assignment ValueAssignment "T" (PInt 2)]).
  apply (bool_decide_unpack _). by vm_compute.
Defined.

(** The loop on a list of tokens that starts with assignments of the five
    kinds. *)
Lemma assignment_loop_app_tokens items rest a log :
  assignment_loop (map assignment_tokens items ++ rest) a log =
  match assignment_loop (map assignment_tokens items) a log with
  | (log', inr a') => assignment_loop rest a' log'
  | r => r
  end.
Proof.
  revert a log. induction items as [|x items IH]; intros a log; [done|].
  rewrite assignment_loop_cons.
  change (map assignment_tokens (x :: items) ++ rest)
    with (assignment_tokens x :: (map assignment_tokens items ++ rest)).
  cbn [assignment_loop assignment_tokens unpack3 py_iter bind ret].
  rewrite assignment_step_tokens. apply IH.
Qed.

Lemma unknown_kind_step a log kind name value :
  kind ∉ map kind_tag assignment_kinds ->
  assignment_step a log (PStr kind) name value =
  (log, raise (InternalParserError (PStr kind))).
Proof.
  intros Hkind. unfold assignment_step. cbn [eq_str].
  assert (Hne : forall k, String.eqb kind (kind_tag k) = false).
  { intros k. apply String.eqb_neq. intros ->. apply Hkind.
    apply list_elem_of_fmap. exists k. split; [done|].
    destruct k; set_solver. }
  pose proof (Hne ObjectSetAssignment) as H1.
  pose proof (Hne ObjectAssignment) as H2.
  pose proof (Hne ObjectClassAssignment) as H3.
  pose proof (Hne TypeAssignment) as H4.
  pose proof (Hne ValueAssignment) as H5.
  cbn [kind_tag] in *. by rewrite H1, H2, H3, H4, H5.
Qed.

(** X4: an assignment whose kind is none of the five known kinds makes
    [convert_assignment_list] raise [InternalParserError] with that kind; no
    dictionary is returned, the assignments behind it are not looked at, and
    the log is that of the assignments in front of it. *)
Theorem unknown_assignment_kind (items : list assignment)
    (kind : string) (name value : pyval) (later : list pyval) :
  kind ∉ map kind_tag assignment_kinds ->
  exists log,
    convert_assignment_list
      (map assignment_tokens items ++ PTuple [PStr kind; name; value] :: later)
    = (log, raise (InternalParserError (PStr kind))) /\
    log = fst (convert_assignment_list (map assignment_tokens items)).
Proof.
  intros Hkind. unfold convert_assignment_list.
  rewrite assignment_loop_app_tokens.
  destruct (assignment_loop_total items (Assignments ∅ ∅ ∅ ∅) [])
    as (a' & log' & -> & _).
  cbn [assignment_loop unpack3 py_iter bind ret].
  rewrite unknown_kind_step by done. by exists log'.
Qed.

Lemma unknown_assignment_kind_witness :
  exists log,
    convert_assignment_list
      [PTuple [PStr "parameterized-type-assignment"; PStr "T"; PInt 1];
       PTuple [PStr "assignment"; PStr "U"; PInt 2];
       PTuple [PStr "parameterized-type-assignment"; PStr "V"; PInt 3]]
    = (log, raise (InternalParserError (PStr "assignment"))) /\
    log = [].
Proof.
  apply (unknown_assignment_kind [Assignment TypeAssignment "T" (PInt 1)]
           "assignment" (PStr "U") (PInt 2)
           [PTuple [PStr "parameterized-type-assignment"; PStr "V"; PInt 3] ]).
  apply (bool_decide_unpack _). by vm_compute.
Defined.

(** X5: two kinds that are stored under the same key share their names:
    when an assignment of kind [k2] follows an assignment of kind [k1] with
    the same name, and [k1] and [k2] have the same key (a value and an
    object are both stored under ['values']), the warning with the label of
    [k2] is logged and the name is left bound to the value of the last
    assignment that writes it. *)
Theorem shared_dictionary_last_wins
    (earlier between later : list assignment) (k1 k2 : assignment_kind)
    (name : string) (v1 v2 : pyval) :
  kind_key k1 = kind_key k2 ->
  Forall (fun x => ~ writes k2 name x) later ->
  exists log d entries,
    convert_assignment_list
      (map assignment_tokens
         (earlier ++ Assignment k1 name v1 ::
          between ++ Assignment k2 name v2 :: later)) =
      (log, ret (PDict d)) /\
    d !! kind_key k2 = Some (PDict entries) /\
    entries !! name = Some v2 /\
    already_defined (kind_label k2) name ∈ log.
Proof.
  intros Hkey Hlater. unfold convert_assignment_list.
  rewrite assignment_loop_app.
  destruct (assignment_loop_total earlier (Assignments ∅ ∅ ∅ ∅) [])
    as (a1 & log1 & -> & _).
  cbv beta iota delta [ret].
  rewrite assignment_loop_cons. cbn [a_kind a_name a_value].
  rewrite assignment_loop_app.
  edestruct (assignment_loop_total between)
    as (a2 & log2 & -> & _ & Hdef & _).
  cbv beta iota delta [ret].
  rewrite assignment_loop_cons. cbn [a_kind a_name a_value].
  assert (Hdefined : defined name (kind_dict k2 a2) = true).
  { apply bool_decide_eq_true_2, Hdef. rewrite kind_dict_update.
    rewrite decide_True by done. rewrite lookup_insert_eq. by eexists. }
  rewrite Hdefined.
  edestruct (assignment_loop_total later)
    as (a3 & log3 & -> & (more & ->) & _ & Hkeep).
  destruct (assignments_dict_lookup k2 a3) as (d & Hd & Hk).
  exists ((log2 ++ [already_defined (kind_label k2) name]) ++ more), d,
    (kind_dict k2 a3).
  cbn [bind ret]. rewrite Hd. split; [done|]. split; [done|]. split.
  - rewrite Hkeep by done. rewrite kind_dict_update.
    rewrite decide_True by done. by rewrite lookup_insert_eq.
  - rewrite !elem_of_app. left. right. by left.
Qed.

Lemma shared_dictionary_last_wins_witness :
  exists log d entries,
    convert_assignment_list
      [PTuple [PStr "parameterized-value-assignment"; PStr "v"; PInt 1];
       PTuple [PStr "parameterized-object-assignment"; PStr "v"; PInt 2]] =
      (log, ret (PDict d)) /\
    d !! "values" = Some (PDict entries) /\
    entries !! "v" = Some (PInt 2) /\
    LogWarning "Object 'v' already defined." ∈ log.
Proof.
  apply (shared_dictionary_last_wins [] [] [] ValueAssignment
           ObjectAssignment "v" (PInt 1) (PInt 2)).
  - reflexivity.
  - constructor.
Defined.

(** ** 23. Comments: what [ignore_comments] leaves *)

Lemma comment_free_tail a x : comment_free (a :: x) -> comment_free x.
Proof. intros H pre c rest ->. by apply (H (a :: pre) c rest). Qed.

Lemma re_sub_comment_free n x :
  comment_free x -> re_sub_fuel n comment_re blank x = x.
Proof.
  revert x. induction n as [|n IH]; intros x Hx; [done|].
  destruct x as [|a x]; [done|]. cbn [re_sub_fuel].
  destruct (re_prefix comment_re (a :: x)) as [rest|] eqn:E.
  - destruct (comment_prefix_Some _ _ E) as (c & Hc & Hs).
    by destruct (Hx [] c rest Hs).
  - f_equal. apply IH. by eapply comment_free_tail.
Qed.

Lemma blank_lookup c i a :
  blank c !! i = Some a -> a = SP \/ a = NL.
Proof.
  unfold blank. rewrite list_lookup_fmap.
  destruct (c !! i) as [b|]; [|done]. cbn. unfold not_newline.
  destruct (Ascii.eqb_spec b NL) as [->|]; cbn; intros [= <-]; auto.
Qed.

(** A hyphen of the output is a hyphen of the input. *)
Lemma stripped_hyphen s out :
  stripped s out ->
  forall i, out !! i = Some "-"%char -> s !! i = Some "-"%char.
Proof.
  induction 1 as [|c rest out Hc Hs IH|x s out Hx Hs IH]; intros i; [done| |].
  - rewrite <- blank_spaced. destruct (decide (i < length c)%nat).
    + rewrite lookup_app_l by (rewrite blank_length; lia).
      by intros [?|?]%blank_lookup.
    + rewrite !lookup_app_r by (rewrite ?blank_length; lia).
      rewrite blank_length. apply IH.
  - destruct i; [done|apply IH].
Qed.

Lemma terminator_at_lookup y :
  terminator_at y = true <->
  (y !! 0%nat = Some "-"%char /\ y !! 1%nat = Some "-"%char) \/
  y !! 0%nat = Some NL.
Proof.
  unfold terminator_at. rewrite orb_true_iff, !starts_with_spec. split.
  - intros [ [r ->]|[r ->] ]; [left|right]; done.
  - intros [ [H0 H1]|H0].
    + left. destruct y as [|a [|b y] ]; try done.
      injection H0 as ->. injection H1 as ->. by exists y.
    + right. destruct y as [|a y]; [done|]. injection H0 as ->. by exists y.
Qed.

(** A terminator of the output is a terminator of the input. *)
Lemma stripped_terminator s out i :
  stripped s out ->
  terminator_at (drop i out) = true -> terminator_at (drop i s) = true.
Proof.
  intros Hs. rewrite !terminator_at_lookup, !lookup_drop.
  intros [ [H0 H1]|H0]; [left|right].
  - split; by apply (stripped_hyphen _ _ Hs).
  - by apply (stripped_newlines _ _ Hs).
Qed.

(** Two hyphens with a terminator somewhere behind them start a comment. *)
Lemma comment_prefix_exists s2 i :
  terminator_at (drop i s2) = true ->
  exists c rest, chars "--" ++ s2 = c ++ rest /\ comment c.
Proof.
  intros Hterm.
  destruct (re_prefix comment_re (chars "--" ++ s2)) as [rest|] eqn:E.
  - destruct (comment_prefix_Some _ _ E) as (c & Hc & Hs). by exists c, rest.
  - rewrite comment_prefix_eq in E.
    replace (starts_with _ _) with true in E by done.
    replace (drop 2 (chars "--" ++ s2)) with s2 in E by done.
    by rewrite (star_lazy_None _ E i) in Hterm.
Qed.

Lemma stripped_comment_free s out : stripped s out -> comment_free out.
Proof.
  induction 1 as [|c0 rest0 out0 Hc0 Hs IH|x s0 out0 Hx Hs IH];
    intros pre c rest Hout Hc.
  - pose proof (comment_length c Hc) as Hlen.
    apply (f_equal length) in Hout. rewrite !length_app in Hout.
    simpl in Hout. lia.
  - rewrite <- blank_spaced in Hout.
    destruct (decide (length pre < length c0)%nat) as [Hlt|Hge].
    + assert (Hl : (blank c0 ++ out0) !! length pre = Some "-"%char).
      { rewrite Hout. rewrite lookup_app_r by lia.
        replace (length pre - length pre)%nat with 0%nat by lia.
        by destruct Hc. }
      rewrite lookup_app_l in Hl by (rewrite blank_length; lia).
      by apply blank_lookup in Hl as [?|?].
    + apply (IH (drop (length c0) pre) c rest); [|done].
      apply (f_equal (drop (length c0))) in Hout.
      rewrite <- (blank_length c0) in Hout at 1.
      rewrite drop_app_length in Hout. rewrite Hout.
      rewrite drop_app_le by lia. done.
  - destruct pre as [|p pre].
    + assert (Hfull : stripped (x :: s0) (x :: out0)) by (by constructor).
      destruct Hc as [body term Hterm Hbody]. cbn [app] in Hout.
      assert (H0 : (x :: s0) !! 0%nat = Some "-"%char)
        by (apply (stripped_hyphen _ _ Hfull); by rewrite Hout).
      assert (H1 : (x :: s0) !! 1%nat = Some "-"%char)
        by (apply (stripped_hyphen _ _ Hfull); by rewrite Hout).
      destruct s0 as [|y s2]; [done|].
      injection H0 as ->. injection H1 as ->.
      assert (Ht : terminator_at (drop (2 + length body) (chars "--" ++ s2))
                   = true).
      { apply (stripped_terminator _ _ _ Hfull). rewrite Hout.
        rewrite <- !app_assoc.
        cbn [Nat.add list_ascii_of_string app drop].
        rewrite drop_app_length.
        by destruct Hterm as [->| ->]. }
      cbn [Nat.add drop app list_ascii_of_string] in Ht.
      destruct (comment_prefix_exists s2 _ Ht) as (c' & rest' & Heq & Hc').
      by apply (Hx c' rest' Heq).
    + injection Hout as -> ->. by apply (IH pre c rest).
Qed.

Lemma hyphen_pair_app pre s2 : hyphen_pair (pre ++ chars "--" ++ s2) = true.
Proof.
  induction pre as [|a pre IH]; [done|].
  cbn [app]. destruct (pre ++ chars "--" ++ s2) as [|b l] eqn:E.
  - by destruct pre.
  - change (hyphen_pair (a :: b :: l))
      with (Ascii.eqb a "-" && Ascii.eqb b "-" || hyphen_pair (b :: l)).
    rewrite IH. by rewrite orb_true_r.
Qed.

Lemma no_hyphen_pair_comment_free s :
  hyphen_pair s = false -> comment_free s.
Proof.
  intros Hs pre c rest -> Hc. destruct Hc as [body term _ _].
  rewrite <- !app_assoc in Hs. by rewrite hyphen_pair_app in Hs.
Qed.

(** X6: the string [ignore_comments] returns holds no comment, and
    [ignore_comments] leaves it as it is: stripping twice is stripping
    once. *)
Theorem ignore_comments_idempotent (s : string) :
  comment_free (chars (ignore_comments s)) /\
  ignore_comments (ignore_comments s) = ignore_comments s.
Proof.
  assert (Hfree : comment_free (chars (ignore_comments s))).
  { unfold ignore_comments. rewrite chars_str_of.
    eapply stripped_comment_free, ignore_comments_stripped. }
  split; [done|].
  unfold ignore_comments at 1. unfold ignore_comments_chars, re_sub.
  rewrite re_sub_comment_free by done. apply str_of_chars.
Qed.

(** X7: a string in which no two hyphens are adjacent is returned by
    [ignore_comments] unchanged. *)
Theorem ignore_comments_without_hyphens (s : string) :
  hyphen_pair (chars s) = false -> ignore_comments s = s.
Proof.
  intros Hs. unfold ignore_comments, ignore_comments_chars, re_sub.
  rewrite re_sub_comment_free by (by apply no_hyphen_pair_comment_free).
  apply str_of_chars.
Qed.

Lemma ignore_comments_without_hyphens_witness :
  ignore_comments "a INTEGER ::= -1 - x" = "a INTEGER ::= -1 - x".
Proof.
  apply (ignore_comments_without_hyphens "a INTEGER ::= -1 - x").
  reflexivity.
Defined.

(** ** 24. Modules and imports *)

Lemma mapM_as_dict ds : mapM as_dict (map PDict ds) = ret ds.
Proof. induction ds as [|d ds IH]; [done|]. cbn. rewrite IH. done. Qed.

Lemma mapM_app {A B} (f : A -> res B) l1 l2 :
  mapM f (l1 ++ l2) =
  (a <- mapM f l1 ;; b <- mapM f l2 ;; ret (a ++ b)).
Proof.
  induction l1 as [|x l1 IH]; cbn [app mapM].
  - cbn. by destruct (mapM f l2).
  - destruct (f x) as [e|y]; [done|]. cbn [bind]. rewrite IH.
    destruct (mapM f l1) as [e|a]; [done|]. cbn [bind].
    by destruct (mapM f l2).
Qed.

Lemma mapM_as_dict_items dicts :
  Forall (fun v => has_items v = true) dicts ->
  exists ds, mapM as_dict dicts = ret ds.
Proof.
  induction 1 as [|v dicts Hv _ [ds IH] ]; [by exists []|].
  cbn [mapM]. rewrite IH.
  destruct v; try done; by eexists.
Qed.

Section Union.
Context (k : string).
Implicit Types (acc d : gmap string pyval) (ds : list (gmap string pyval)).

Let union_of acc ds := foldl (fun acc m => m ∪ acc) acc ds.

Lemma union_of_absent ds : forall acc,
  Forall (fun d => d !! k = None) ds -> union_of acc ds !! k = acc !! k.
Proof.
  induction ds as [|d ds IH]; intros acc Hds; [done|].
  apply Forall_cons in Hds as [Hd Hds]. cbn. unfold union_of in IH.
  rewrite IH by done. rewrite lookup_union_r; done.
Qed.

Lemma union_of_last pre d post v acc :
  d !! k = Some v -> Forall (fun d' => d' !! k = None) post ->
  union_of acc (pre ++ d :: post) !! k = Some v.
Proof.
  intros Hd Hpost. unfold union_of. rewrite foldl_app. cbn.
  fold (union_of (d ∪ foldl (fun acc m => m ∪ acc) acc pre) post).
  rewrite union_of_absent by done. by apply lookup_union_Some_l.
Qed.
End Union.

(** X8: [merge_dicts] on a list of dictionaries returns one dictionary; a
    key that is in none of them is not in it, and a key is bound to the
    value it has in the last dictionary of the list that has it.  A
    [ParseResults] in the list adds nothing, and the first element that is
    neither a dictionary nor a [ParseResults] makes [merge_dicts] raise
    [AttributeError].  So of two modules of the same name in one
    specification, [parse_string] returns the second only. *)
Theorem merge_dicts_last_wins :
  (forall ds : list (gmap string pyval),
   exists m,
     merge_dicts (map PDict ds) = ret (PDict m) /\
     forall k,
       (Forall (fun d => d !! k = None) ds -> m !! k = None) /\
       (forall pre d post v,
          ds = pre ++ d :: post -> d !! k = Some v ->
          Forall (fun d' => d' !! k = None) post -> m !! k = Some v)) /\
  (forall before tokens after,
     merge_dicts (before ++ PResults tokens :: after) =
     merge_dicts (before ++ after)) /\
  (forall before v after,
     Forall (fun d => has_items d = true) before -> has_items v = false ->
     merge_dicts (before ++ v :: after) = raise AttributeError) /\
  parse_string_result two_modules_input
    (Returns (py_dict [("M", module_dict
                               [("B", py_dict [("type", PStr "BOOLEAN")])]
                               [])])).
Proof.
  split; [|split; [|split] ].
  - intros ds. unfold merge_dicts. rewrite mapM_as_dict. cbn [bind ret].
    eexists. split; [reflexivity|]. intros k. split.
    + intros Hds. by rewrite union_of_absent.
    + intros pre d post v -> Hd Hpost. by apply union_of_last.
  - intros before tokens after. unfold merge_dicts.
    rewrite !mapM_app. cbn [mapM as_dict bind ret].
    destruct (mapM as_dict before) as [e|a]; [done|]. cbn [bind].
    destruct (mapM as_dict after) as [e|b]; [done|]. cbn [bind ret].
    rewrite !foldl_app. cbn [foldl]. by rewrite (left_id_L ∅ (∪)).
  - intros before v after Hbefore Hv. unfold merge_dicts.
    rewrite mapM_app.
    destruct (mapM_as_dict_items before Hbefore) as [ds ->].
    cbn [bind mapM]. by destruct v.
  - by_running 8.
Qed.

Lemma merge_dicts_last_wins_witness :
  exists m,
    merge_dicts [PDict {["a" := PInt 1]}; PDict {["a" := PInt 2]}] =
      ret (PDict m) /\
    m !! "a" = Some (PInt 2).
Proof.
  destruct (proj1 merge_dicts_last_wins
              [{["a" := PInt 1]}; {["a" := PInt 2]}]) as (m & Hm & Hk).
  exists m. split; [exact Hm|].
  apply (proj2 (Hk "a") [{["a" := PInt 1]}] {["a" := PInt 2]} [] (PInt 2)).
  - reflexivity.
  - reflexivity.
  - constructor.
Defined.

Lemma asList_val_strings l :
  map asList_val (map PStr l) = map PStr l.
Proof. induction l as [|s l IH]; [done|]. cbn. by rewrite IH. Qed.

Lemma imports_loop_cons c clauses imports log :
  imports_loop (asList (map clause_tokens (c :: clauses))) imports log =
  imports_loop (asList (map clause_tokens clauses))
    (<[ic_module c := clause_symbols c]> imports)
    (log ++ [clause_record c]).
Proof.
  cbn [map asList clause_tokens asList_val imports_loop idx lookup
       list_lookup].
  by rewrite asList_val_strings.
Qed.

Lemma imports_loop_clauses clauses : forall imports log,
  exists imports',
    imports_loop (asList (map clause_tokens clauses)) imports log =
      (log ++ map clause_record clauses, ret imports') /\
    (forall name,
       Forall (fun c => ic_module c <> name) clauses ->
       imports' !! name = imports !! name) /\
    (forall pre c post,
       clauses = pre ++ c :: post ->
       Forall (fun c' => ic_module c' <> ic_module c) post ->
       imports' !! ic_module c = Some (clause_symbols c)).
Proof.
  induction clauses as [|c clauses IH]; intros imports log.
  - exists imports. split; [by rewrite app_nil_r|]. split; [done|].
    by intros [] ? ?.
  - rewrite imports_loop_cons.
    destruct (IH (<[ic_module c := clause_symbols c]> imports)
                 (log ++ [clause_record c]))
      as (imports' & -> & Hkeep & Hlast).
    exists imports'. split; [by rewrite <- app_assoc|]. split.
    + intros name [Hc Hrest]%Forall_cons. rewrite Hkeep by done.
      by rewrite lookup_insert_ne.
    + intros [|c0 pre] c' post.
      * intros [= <- <-] Hpost. rewrite Hkeep by done.
        by rewrite lookup_insert_eq.
      * intros [= <- ->] Hpost. by apply (Hlast pre c' post).
Qed.

(** X9: [convert_imports] logs one debug record for every clause
    [symbols FROM module], in the order of the clauses, and returns
    [{'imports': imports}] where [imports] has no entry for a module that no
    clause names and binds a module to the symbols of the last clause that
    names it. *)
Theorem convert_imports_clauses (clauses : list import_clause) :
  exists imports,
    convert_imports (map clause_tokens clauses) =
      (map clause_record clauses,
       ret (PDict {["imports" := PDict imports]})) /\
    (forall name,
       Forall (fun c => ic_module c <> name) clauses ->
       imports !! name = None) /\
    (forall pre c post,
       clauses = pre ++ c :: post ->
       Forall (fun c' => ic_module c' <> ic_module c) post ->
       imports !! ic_module c = Some (clause_symbols c)).
Proof.
  unfold convert_imports.
  destruct (imports_loop_clauses clauses ∅ [])
    as (imports & -> & Hkeep & Hlast).
  exists imports. split; [done|]. split; [|done].
  intros name Hname. by rewrite Hkeep.
Qed.

Lemma convert_imports_clauses_witness :
  exists imports,
    convert_imports
      [PResults [PResults [PStr "X"; PStr "Y"]; PStr "FROM"; PStr "N"] ] =
      ([LogDebug "Converting imports from 'N'."],
       ret (PDict {["imports" := PDict imports]})) /\
    imports !! "N" = Some (PList [PStr "X"; PStr "Y"]).
Proof.
  destruct (convert_imports_clauses [ImportClause ["X"; "Y"] "N"])
    as (imports & Hrun & _ & Hlast).
  exists imports. split; [exact Hrun|].
  apply (Hlast [] (ImportClause ["X"; "Y"] "N") []).
  - reflexivity.
  - constructor.
Defined.

(** ** 25. Constrained types *)

Lemma convert_type_step_value converted_type restricted_to c :
  convert_type_step (converted_type, restricted_to)
    (restriction_tokens c) =
  ret (converted_type, restricted_to ++ [restriction_value c]).
Proof. by destruct c. Qed.

Lemma convert_type_loop_values cs : forall converted_type restricted_to,
  foldM convert_type_step (map restriction_tokens cs)
    (converted_type, restricted_to) =
  ret (converted_type, restricted_to ++ map restriction_value cs).
Proof.
  induction cs as [|c cs IH]; intros converted_type restricted_to.
  - cbn. by rewrite app_nil_r.
  - cbn [map foldM]. rewrite convert_type_step_value. cbn [bind ret].
    rewrite IH. by rewrite <- app_assoc.
Qed.

Lemma no_brace cs :
  existsb (fun x => eq_str x "{") (map restriction_value cs) = false.
Proof. induction cs as [|[] cs IH]; done. Qed.

Lemma convert_size_values c cs :
  convert_size (PResults (map restriction_tokens (c :: cs))) = ret PNone.
Proof. destruct c as [n|lo hi|]; try done. Qed.

Lemma contains_ampersand s :
  contains_str "&" (PStr s) = ret (existsb (Ascii.eqb "&") (chars s)).
Proof.
  unfold contains_str. f_equal.
  induction (chars s) as [|c l IH]; [done|].
  cbn [is_infix existsb]. rewrite IH. cbn [chars is_prefix].
  by rewrite andb_true_r.
Qed.

(** X10: for a type whose dictionary names it by a string without [&],
    [convert_type] on a list of single integers, value ranges and extension
    markers returns that dictionary with ['restricted-to'] bound to the list
    of the values, the (minimum, maximum) pairs and [EXTENSION_MARKER], in
    the order written; without a constraint the dictionary is returned as it
    is, with no ['restricted-to'] added. *)
Theorem convert_type_restricted_to (base : gmap string pyval)
    (type_name : string) (cs : list restriction) :
  base !! "type" = Some (PStr type_name) ->
  existsb (Ascii.eqb "&") (chars type_name) = false ->
  convert_type
    (PResults [PDict base; PResults (map restriction_tokens cs)]) =
  ret (PDict match cs with
             | [] => base
             | _ => <["restricted-to" :=
                        PList (map restriction_value cs)]> base
             end).
Proof.
  intros Htype Hamp. unfold convert_type.
  cbn [unpack2 py_iter bind ret]. rewrite convert_type_loop_values.
  cbn [bind ret app]. rewrite no_brace.
  destruct cs as [|c cs].
  - cbn [map bind ret dict_get]. rewrite Htype. cbn [bind ret].
    destruct (existsb _ sized_types);
      cbn [convert_size py_len length Nat.eqb bind ret py_truth];
      rewrite contains_ampersand, Hamp; done.
  - set (values := map restriction_value (c :: cs)).
    assert (Hv : values = restriction_value c ::
                          map restriction_value cs) by done.
    rewrite Hv at 1. cbn [dict_set bind ret dict_get].
    rewrite lookup_insert_ne by done. rewrite Htype. cbn [bind ret].
    rewrite convert_size_values.
    destruct (existsb _ sized_types); cbn [bind ret py_truth];
      rewrite contains_ampersand, Hamp; done.
Qed.

Lemma convert_type_restricted_to_witness :
  convert_type
    (PResults [PDict {["type" := PStr "INTEGER"]};
               PResults [PResults [PTuple [PInt 5; PInt 1] ];
                         PStr "...";
                         PResults [PResults [PInt 7] ] ] ]) =
  ret (PDict (<["restricted-to" :=
                  PList [PTuple [PInt 5; PInt 1]; PNone; PInt 7] ]>
              {["type" := PStr "INTEGER"]})).
Proof.
  apply (convert_type_restricted_to {["type" := PStr "INTEGER"]} "INTEGER"
           [ValueRange (PInt 5) (PInt 1); ExtensionMark; SingleValue 7]).
  - reflexivity.
  - reflexivity.
Defined.

(** ** 26. The literal patterns and the tokenizer *)

(** A greedy star that can take the whole of [body] and then go on does. *)
Lemma star_greedy_all {A} p body s' (k : list ascii -> option A) x :
  Forall (fun c => p c = true) body ->
  match s' with c :: _ => p c = false | [] => True end ->
  k s' = Some x ->
  star_greedy p (body ++ s') k = Some x.
Proof.
  intros Hbody Hstop Hk. induction Hbody as [|c body Hc _ IH]; cbn [app].
  - destruct s' as [|c s']; [done|]. cbn. by rewrite Hstop.
  - cbn. by rewrite Hc, IH.
Qed.

Lemma hstring_re_complete body rest :
  Forall (fun c => hstring_char c = true) body ->
  re_prefix Grammar.hstring_re ("'"%char :: body ++ chars "'H" ++ rest) =
  Some rest.
Proof.
  intros Hbody. unfold re_prefix, Grammar.hstring_re. cbn [re_match].
  change (Ascii.eqb "'" "'") with true. cbn iota.
  by apply star_greedy_all.
Qed.

Lemma bstring_re_complete body rest :
  Forall (fun c => bstring_char c = true) body ->
  re_prefix Grammar.bstring_re ("'"%char :: body ++ chars "'B" ++ rest) =
  Some rest.
Proof.
  intros Hbody. unfold re_prefix, Grammar.bstring_re. cbn [re_match].
  change (Ascii.eqb "'" "'") with true. cbn iota.
  by apply star_greedy_all.
Qed.

(** X11: the pattern of an hstring matches a prefix of [s] exactly when
    [s] starts with a quote, then characters that are upper-case hexadecimal
    digits or white space, then ['H]; the pattern of a bstring likewise with
    the digits [0] and [1] and ['B].  What is left, [rest], is what follows
    the ['H] or ['B]. *)
Theorem bit_string_patterns_exact (s rest : list ascii) :
  (re_prefix Grammar.hstring_re s = Some rest <->
   exists body, s = "'"%char :: body ++ chars "'H" ++ rest /\
                Forall (fun c => hstring_char c = true) body) /\
  (re_prefix Grammar.bstring_re s = Some rest <->
   exists body, s = "'"%char :: body ++ chars "'B" ++ rest /\
                Forall (fun c => bstring_char c = true) body).
Proof.
  split; (split; [|intros (body & -> & Hbody)]).
  - apply hstring_re_matches.
  - by apply hstring_re_complete.
  - apply bstring_re_matches.
  - by apply bstring_re_complete.
Qed.

(** The [SKIP] pattern takes a run of whitespace whole. *)
Lemma skip_blank c l :
  Forall (fun a => Asn1Parser.skip_white a = true) (c :: l) ->
  re_prefix (RAlt (RPlus Asn1Parser.skip_white) comment_re) (c :: l) = Some [].
Proof.
  intros [Hc Hl]%Forall_cons. unfold re_prefix, RPlus. cbn [re_match].
  rewrite Hc.
  replace (star_greedy Asn1Parser.skip_white l Some) with (Some (@nil ascii));
    [done|].
  symmetry. rewrite <- (app_nil_r l) at 1. by apply star_greedy_all.
Qed.

Lemma tokenize_blank text :
  Forall (fun a => Asn1Parser.skip_white a = true) text ->
  tp.tokenize Asn1Parser.token_specs Asn1Parser.keywords text = inr [].
Proof.
  intros Htext. unfold tp.tokenize. destruct text as [|c l]; [done|].
  cbn [length tp.tokenize_loop Asn1Parser.token_specs tp.first_spec
       tp.spec2 tp.spec_re].
  rewrite skip_blank by done. cbn [tp.spec_name].
  unfold matched. cbn [length]. rewrite Nat.sub_0_r. cbn [take].
  by destruct l.
Qed.

(** X12: on a string that is empty or holds only blanks, carriage returns,
    newlines and tabs, [parse_string] raises [ParseError] with the message
    of the tokenizer-based parser, and nothing is printed or logged. *)
Theorem blank_input_rejected (s : string) :
  Forall (fun a => Asn1Parser.skip_white a = true) (chars s) ->
  parse_string_gives s (Run [] [] (Raises (ParseError InvalidSyntaxTokens))).
Proof.
  intros Hs.
  assert (Hstage : token_stage 3 s =
                   ([], Raises (ParseError InvalidSyntaxTokens))).
  { unfold token_stage, Asn1Parser.parse, tp.parse.
    rewrite tokenize_blank by done. cbn [app]. by vm_compute. }
  exists 3%nat. intros fuel Hle. unfold parse_string.
  rewrite (token_stage_mono 3 fuel) by (rewrite ?Hstage; done).
  by rewrite Hstage.
Qed.

Lemma blank_input_rejected_witness :
  parse_string_gives "" (Run [] [] (Raises (ParseError InvalidSyntaxTokens)))
  /\
  parse_string_gives (String " " (String NL (String TAB EmptyString)))
    (Run [] [] (Raises (ParseError InvalidSyntaxTokens))).
Proof.
  split.
  - apply (blank_input_rejected ""). constructor.
  - apply (blank_input_rejected (String " " (String NL (String TAB EmptyString)))).
    by repeat constructor.
Defined.

Lemma forallb_Forall_true {A} (f : A -> bool) l :
  forallb f l = true -> Forall (fun a => f a = true) l.
Proof.
  induction l as [|a l IH]; [done|]. cbn.
  intros [Ha Hl]%andb_true_iff. constructor; [done|by apply IH].
Qed.

Lemma first_spec_skip before after s :
  Forall (fun sp => re_prefix (tp.spec_re sp) s = None) before ->
  tp.first_spec (before ++ after) s = tp.first_spec after s.
Proof.
  induction 1 as [|sp before Hsp _ IH]; [done|]. cbn. by rewrite Hsp.
Qed.

(** No pattern in front of [TREF] matches at an upper-case letter. *)
Lemma before_TREF_fail c t :
  is_upper c = true ->
  Forall (fun sp => re_prefix (tp.spec_re sp) (c :: t) = None)
    (take 31 Asn1Parser.token_specs).
Proof.
  intros Hc.
  destruct c as [ [] [] [] [] [] [] [] [] ]; vm_compute in Hc;
    try discriminate Hc;
    cbn [take Asn1Parser.token_specs]; repeat constructor.
Qed.

Lemma first_spec_upper_word w rest :
  upper_word w = true -> word_stop rest = true ->
  tp.first_spec Asn1Parser.token_specs (w ++ rest) =
  Some (tp.spec2 "TREF" Grammar.upper_ident_re, rest).
Proof.
  intros Hw Hstop. destruct w as [|c l]; [done|].
  apply andb_true_iff in Hw as [Hc Hl].
  rewrite <- (take_drop 31 Asn1Parser.token_specs).
  rewrite first_spec_skip by (by apply before_TREF_fail).
  cbn [drop Asn1Parser.token_specs tp.first_spec tp.spec2 tp.spec_re].
  unfold re_prefix, Grammar.upper_ident_re. cbn [app re_match]. rewrite Hc.
  rewrite (star_greedy_all Grammar.ident_rest l rest Some rest); [done| | |done].
  - by apply forallb_Forall_true.
  - destruct rest as [|a rest]; [done|]. cbn in Hstop.
    by apply negb_true_iff in Hstop.
Qed.

Lemma keyword_names :
  Forall (fun k => tp.names Asn1Parser.token_specs k = k) Asn1Parser.keywords.
Proof. apply (bool_decide_unpack _). by vm_compute. Qed.

Lemma existsb_eqb_elem_of v l :
  existsb (String.eqb v) l = bool_decide (v ∈ l).
Proof.
  induction l as [|k l IH]; [done|]. cbn. rewrite IH.
  destruct (String.eqb_spec v k) as [->|Hne]; cbn.
  - symmetry. apply bool_decide_eq_true_2. by left.
  - apply bool_decide_ext. rewrite elem_of_cons. split; [by right|by intros [?|?]].
Qed.

(** One round of the loop of [tokenize] at a token that is neither skipped
    nor a mismatch. *)
Lemma tokenize_loop_token n specs keywords s off sp rest a text :
  tp.first_spec specs s = Some (sp, rest) ->
  matched s rest = a :: text ->
  String.eqb (tp.spec_name sp) "SKIP" = false ->
  String.eqb (tp.spec_name sp) "MISMATCH" = false ->
  tp.tokenize_loop (S n) specs keywords s off =
  match tp.tokenize_loop n specs keywords rest (off + length (a :: text)) with
  | inr ts =>
      inr (tp.mkToken
             (tp.names specs
                (if existsb (String.eqb (str_of (a :: text))) keywords
                 then str_of (a :: text) else tp.spec_name sp))
             (PStr (str_of (a :: text))) off :: ts)
  | inl e => inl e
  end.
Proof.
  intros Hfirst Hmatched Hskip Hmis.
  destruct s as [|x s]; [done|].
  cbn [tp.tokenize_loop]. rewrite Hfirst. cbv zeta. rewrite Hmatched.
  by rewrite Hskip, Hmis.
Qed.

(** X13: at a word that starts with an upper-case letter, goes on with
    letters, digits and hyphens and ends where the text ends or another
    character follows, the tokenizer makes one token of the whole word, at
    the offset of its first character: of the kind of the word itself if the
    word is a keyword, of the kind [TREF] otherwise; it goes on behind the
    word. *)
Theorem upper_word_token (n off : nat) (w rest : list ascii) :
  upper_word w = true -> word_stop rest = true ->
  tp.tokenize_loop (S n) Asn1Parser.token_specs Asn1Parser.keywords
    (w ++ rest) off =
  match tp.tokenize_loop n Asn1Parser.token_specs Asn1Parser.keywords
          rest (off + length w) with
  | inr ts =>
      inr (tp.mkToken (upper_word_kind w) (PStr (str_of w)) off :: ts)
  | inl e => inl e
  end.
Proof.
  intros Hw Hstop.
  destruct w as [|c l] eqn:Ew; [done|]. rewrite <- Ew in *.
  rewrite (tokenize_loop_token n _ _ (w ++ rest) off
             (tp.spec2 "TREF" Grammar.upper_ident_re) rest c l);
    [|by apply first_spec_upper_word|by rewrite matched_app|done..].
  rewrite <- Ew.
  replace (tp.names _ _) with (upper_word_kind w); [done|].
  unfold upper_word_kind. rewrite existsb_eqb_elem_of.
  destruct (bool_decide _) eqn:E; [|done].
  apply bool_decide_eq_true_1 in E. symmetry.
  pose proof keyword_names as Hk. rewrite Forall_forall in Hk. by apply Hk.
Qed.

Lemma upper_word_token_witness :
  tp.tokenize_loop 2 Asn1Parser.token_specs Asn1Parser.keywords
    (chars "SET" ++ chars "{") 4 =
  inr [tp.mkToken "SET" (PStr "SET") 4; tp.mkToken "{" (PStr "{") 7].
Proof.
  rewrite (upper_word_token 1 4 (chars "SET") (chars "{")).
  - reflexivity.
  - reflexivity.
  - reflexivity.
Defined.

(** ** 27. Structured types and size constraints *)

Lemma convert_members_results l :
  convert_members (PResults l) =
  (ms <- mapM (fun m => convert_member m (group_of m)) l ;; ret (PList ms)).
Proof.
  cbn [convert_members]. f_equal.
  induction l as [|m l IH]; [done|]. cbn [mapM]. by rewrite <- IH.
Qed.

Lemma bind_ret {A B} (m : res A) (f : A -> res B) b :
  (x <- m ;; f x) = ret b -> exists a, m = ret a /\ f a = ret b.
Proof. destruct m as [e|a]; [done|]. intros H. by exists a. Qed.

Lemma ret_inj {A} (a b : A) : ret a = ret b -> a = b.
Proof. unfold ret, res. intros H. by injection H. Qed.

Lemma dict_set_ret v k x w :
  dict_set v k x = ret w -> exists d, v = PDict d /\ w = PDict (<[k := x]> d).
Proof. destruct v; try done. intros [= <-]. by eexists. Qed.

Lemma convert_named name tag type_ q group v :
  convert_member (component_tokens (CNamed name tag type_ q)) group = ret v ->
  member_of (CNamed name tag type_ q) v.
Proof.
  unfold convert_member.
  cbn [component_tokens is_ellipsis eq_str idx lookup list_lookup bind ret
       py_len length Nat.eqb unpack2 py_iter fst snd py_asList].
  intros (member & Htype & H)%bind_ret.
  apply bind_ret in H as (member1 & Hname & H).
  apply dict_set_ret in Hname as (d0 & -> & ->).
  apply bind_ret in H as (member2 & Hopt & H).
  apply bind_ret in H as (member3 & Hdef & H).
  apply bind_ret in H as (tagv & Htag & H).
  assert (H2 : exists d2, member2 = PDict d2 /\ d2 !! "name" = Some (PStr name)
                 /\ (q = IsOptional -> d2 !! "optional" = Some (PBool true))
                 /\ (forall k, k <> "name" -> k <> "optional" ->
                        d2 !! k = d0 !! k)).
  { destruct q as [|  |value]; cbn in Hopt.
    - apply ret_inj in Hopt as <-. eexists. split; [done|].
      split; [by rewrite lookup_insert_eq|]. split; [done|].
      intros k ? ?. by rewrite lookup_insert_ne.
    - apply ret_inj in Hopt as <-. eexists. split; [done|].
      split; [by rewrite lookup_insert_ne, lookup_insert_eq|].
      split; [intros _; by rewrite lookup_insert_eq|].
      intros k ? ?. by rewrite !lookup_insert_ne.
    - destruct (eq_str _ _ || false); apply ret_inj in Hopt as <-;
        (eexists; split; [done|]); (split; [|split; [done|] ]).
      + by rewrite lookup_insert_ne, lookup_insert_eq.
      + intros k ? ?. by rewrite !lookup_insert_ne.
      + by rewrite lookup_insert_eq.
      + intros k ? ?. by rewrite !lookup_insert_ne. }
  destruct H2 as (d2 & -> & Hn2 & Ho2 & Hk2).
  assert (H3 : exists d3, member3 = PDict d3 /\ d3 !! "name" = Some (PStr name)
                 /\ (q = IsOptional -> d3 !! "optional" = Some (PBool true))
                 /\ (forall value, q = HasDefault value ->
                       is_Some (d3 !! "default"))
                 /\ (forall k, k <> "name" -> k <> "optional" ->
                        k <> "default" -> d3 !! k = d0 !! k)).
  { destruct q as [|  |value]; cbn [qualifier_tokens asList map asList_val
                                     existsb eq_str orb] in Hdef.
    - cbn in Hdef. apply ret_inj in Hdef as <-. exists d2.
      repeat split; try done. intros k ? ? ?. by apply Hk2.
    - cbn in Hdef. apply ret_inj in Hdef as <-. exists d2.
      repeat split; try done. intros k ? ? ?. by apply Hk2.
    - change (String.eqb "DEFAULT" "DEFAULT") with true in Hdef.
      cbn [orb] in Hdef.
      apply bind_ret in Hdef as (q1 & _ & Hdef).
      apply bind_ret in Hdef as (n1 & _ & Hdef).
      apply bind_ret in Hdef as (dv & _ & Hdef).
      cbn in Hdef. apply ret_inj in Hdef as <-. eexists. split; [done|].
      split; [by rewrite lookup_insert_ne|]. split; [done|].
      split; [intros ? _; rewrite lookup_insert_eq; by eexists|].
      intros k ? ? ?. rewrite lookup_insert_ne by done. by apply Hk2. }
  destruct H3 as (d3 & -> & Hn3 & Ho3 & Hd3 & Hk3).
  destruct (py_truth tagv) eqn:Htruth.
  - cbn in H. apply ret_inj in H as <-.
    apply (member_of_named _ _ _ _ d0); [done| | | | |].
    + by rewrite lookup_insert_ne.
    + intros Hq. rewrite lookup_insert_ne by done. by apply Ho3.
    + intros value Hq. rewrite lookup_insert_ne by done. by eapply Hd3.
    + intros t Ht _. rewrite Htag in Ht. apply ret_inj in Ht as <-.
      by rewrite lookup_insert_eq.
    + intros k ? ? ? ?. rewrite lookup_insert_ne by done.
      by rewrite Hk3.
  - apply ret_inj in H as <-.
    apply (member_of_named _ _ _ _ d0); [done|done|done|done| |].
    + intros t Ht Hp. rewrite Htag in Ht. apply ret_inj in Ht as <-.
      by rewrite Hp in Htruth.
    + intros k ? ? ? ?. by rewrite Hk3.
Qed.

Lemma convert_member_of c : forall v,
  convert_member (component_tokens c) (group_of (component_tokens c)) = ret v ->
  member_of c v.
Proof.
  apply (component_induction (fun c => forall v,
    convert_member (component_tokens c) (group_of (component_tokens c)) = ret v ->
    member_of c v)); clear c.
  - intros v [= <-]. constructor.
  - intros type_ v. unfold convert_member.
    cbn [component_tokens is_ellipsis eq_str idx lookup list_lookup bind ret].
    change (String.eqb "COMPONENTS OF" "...") with false.
    change (String.eqb "COMPONENTS OF" "COMPONENTS OF") with true.
    cbn iota.
    intros (m10 & Hm & H)%bind_ret. apply bind_ret in H as (ty & Hty & H).
    injection H as <-. constructor. by rewrite Hm.
  - intros members IH v. unfold convert_member.
    cbn [component_tokens is_ellipsis eq_str idx lookup list_lookup bind ret].
    change (String.eqb "[[" "COMPONENTS OF") with false.
    change (String.eqb "[[" "[[") with true. cbn iota.
    fold component_tokens. cbn [group_of].
    rewrite convert_members_results.
    intros (ms & Hms & [= <-])%bind_ret. constructor.
    revert ms Hms. induction IH as [|c members Hc _ IHm]; intros ms Hms.
    + injection Hms as <-. constructor.
    + cbn [map mapM] in Hms.
      apply bind_ret in Hms as (m & Hm & Hms).
      apply bind_ret in Hms as (ms' & Hms' & [= <-]).
      constructor; [by apply Hc|by apply IHm].
  - intros name tag type_ q v. apply convert_named.
Qed.

(** X14: when [convert_sequence_type] returns, it returns
    [{'type': 'SEQUENCE', 'members': members}] where [members] has one entry
    for every component, in the order written: [EXTENSION_MARKER] for an
    extension marker, [{'components-of': type}] for [COMPONENTS OF], a list
    of the same kind for a group in version brackets, and for a named
    component the dictionary of its type with ['name'] bound to its name,
    ['optional'] to [True] if it is OPTIONAL, ['default'] bound if it has a
    DEFAULT, ['tag'] to its tag if it has one, and all other keys as
    [convert_type] gave them. *)
Theorem sequence_type_members (cs : list component) (keyword v : pyval) :
  convert_sequence_type
    [keyword; PStr "{"; PResults (map component_tokens cs); PStr "}"] =
  ret v ->
  exists vs,
    v = PDict (<["members" := PList vs]> {["type" := PStr "SEQUENCE"]}) /\
    Forall2 member_of cs vs.
Proof.
  unfold convert_sequence_type, members_type.
  cbn [tok idx lookup list_lookup bind ret].
  rewrite convert_members_results.
  intros (members & (ms & Hms & [= <-])%bind_ret & [= <-])%bind_ret.
  exists ms. split; [done|].
  revert ms Hms. induction cs as [|c cs IH]; intros ms Hms.
  - injection Hms as <-. constructor.
  - cbn [map mapM] in Hms.
    apply bind_ret in Hms as (m & Hm & Hms).
    apply bind_ret in Hms as (ms' & Hms' & [= <-]).
    constructor; [by apply convert_member_of|by apply IH].
Qed.

Lemma sequence_type_members_witness :
  exists vs,
    PDict (<["members" :=
               PList [PDict (<["optional" := PBool true]>
                             (<["name" := PStr "a"]>
                              {["type" := PStr "INTEGER"]}));
                      EXTENSION_MARKER;
                      PList [PDict (<["tag" := PDict {["number" := PInt 1]}]>
                                    (<["default" := PList [] ]>
                                     (<["name" := PStr "c"]>
                                      {["type" := PStr "NULL"]})))];
                      PDict {["components-of" := PStr "T"]}] ]>
           {["type" := PStr "SEQUENCE"]}) =
    PDict (<["members" := PList vs]> {["type" := PStr "SEQUENCE"]}) /\
    Forall2 member_of
      [CNamed "a" (PResults [])
         (PResults [PDict {["type" := PStr "INTEGER"]}; PResults []])
         IsOptional;
       CExtension;
       CGroup [CNamed "c" (PResults [PResults [PStr "1"]; PResults []])
                 (PResults [PDict {["type" := PStr "NULL"]}; PResults []])
                 (HasDefault (PResults []))];
       CComponentsOf
         (PResults [PDict {["type" := PStr "T"]}; PResults []])]
      vs.
Proof.
  apply (sequence_type_members _ (PStr "SEQUENCE")).
  vm_compute. reflexivity.
Defined.

Lemma convert_size_constraint_item_value c :
  convert_size_constraint_item (asList_val (restriction_tokens c)) =
  ret (restriction_value c).
Proof. by destruct c. Qed.

Lemma size_constraint_values cs :
  mapM convert_size_constraint_item (asList (map restriction_tokens cs)) =
  ret (map restriction_value cs).
Proof.
  induction cs as [|c cs IH]; [done|].
  cbn [map asList mapM]. rewrite convert_size_constraint_item_value.
  cbn [bind ret]. fold (asList (map restriction_tokens cs)).
  by rewrite IH.
Qed.

(** X15: [convert_size_constraint] on a list of single integers, value
    ranges and extension markers returns [{'size': values}] where [values]
    holds the values, the (minimum, maximum) pairs and [EXTENSION_MARKER],
    in the order written. *)
Theorem size_constraint_values_in_order (keyword : pyval)
    (cs : list restriction) :
  convert_size_constraint
    [keyword; PResults (map restriction_tokens cs)] =
  ret (PDict {["size" := PList (map restriction_value cs)]}).
Proof.
  unfold convert_size_constraint.
  cbn [asList map idx lookup list_lookup bind ret asList_val py_iter].
  fold (asList (map restriction_tokens cs)).
  by rewrite size_constraint_values.
Qed.

(** X16: [convert_sequence_of_type] on a SEQUENCE OF with a size
    constraint, as [convert_size_constraint] leaves it, returns
    [{'type': 'SEQUENCE OF', 'element': element, 'size': values}]: the size
    is the list of the size constraint, and a tag is stored in the element,
    not in the SEQUENCE OF. *)
Theorem sequence_of_type_size (keyword of_ tag type_ t : pyval)
    (cs : list restriction) (element : gmap string pyval) (size : pyval) :
  convert_type type_ = ret (PDict element) ->
  convert_tag tag = ret t ->
  convert_size_constraint
    [PStr "SIZE"; PResults (map restriction_tokens cs)] = ret size ->
  convert_sequence_of_type [keyword; PResults [size]; of_; tag; type_] =
  ret (PDict (<["size" := PList (map restriction_value cs)]>
              (<["element" := PDict (if py_truth t then <["tag" := t]> element
                                     else element)]>
               {["type" := PStr "SEQUENCE OF"]}))).
Proof.
  intros Htype Htag. unfold convert_size_constraint.
  cbn [asList map idx lookup list_lookup bind ret asList_val py_iter].
  fold (asList (map restriction_tokens cs)).
  rewrite size_constraint_values. cbn [bind ret].
  intros <-%ret_inj. unfold convert_sequence_of_type, element_type.
  cbn [tok idx lookup list_lookup bind ret]. rewrite Htype, Htag.
  cbn [bind ret py_len length Nat.ltb Nat.leb dict_get].
  rewrite lookup_singleton_eq. cbn [bind ret].
  by destruct (py_truth t).
Qed.

Lemma sequence_of_type_size_witness :
  convert_sequence_of_type
    [PStr "SEQUENCE";
     PResults [PDict {["size" := PList [PTuple [PInt 1; PInt 5] ] ]}];
     PStr "OF";
     PResults [PResults [PStr "2"]; PResults []];
     PResults [PDict {["type" := PStr "INTEGER"]}; PResults []] ] =
  ret (PDict (<["size" := PList [PTuple [PInt 1; PInt 5] ] ]>
              (<["element" :=
                   PDict (<["tag" := PDict {["number" := PInt 2]}]>
                          {["type" := PStr "INTEGER"]})]>
               {["type" := PStr "SEQUENCE OF"]}))).
Proof.
  pose proof (sequence_of_type_size (PStr "SEQUENCE") (PStr "OF")
                (PResults [PResults [PStr "2"]; PResults []])
                (PResults [PDict {["type" := PStr "INTEGER"]}; PResults []])
                (PDict {["number" := PInt 2]})
                [ValueRange (PInt 1) (PInt 5)]
                {["type" := PStr "INTEGER"]}
                (PDict {["size" := PList [PTuple [PInt 1; PInt 5] ] ]})) as H.
  vm_compute in H. vm_compute. apply H; reflexivity.
Defined.
